(** * The load-test engine of main.go, embedded in Rocq

    The development follows src/main.go: the probe [checkStatus], the
    helper [calculateAverageDuration] and the orchestrator [runAPITest]
    (whose loop body is the cycle runner).  Go's [int] and
    [time.Duration] are 64-bit integers, modelled as [Z] with the
    wrap-around written out; [map[int]int] is a [gmap Z Z]; slices are
    lists; strings are byte strings.  The closure [runTest] of [main],
    which reads the entries of the window, runs the engine and shows the
    report, is embedded as the list of the calls that it makes on the
    widgets. *)

From Stdlib Require Import ZArith String Ascii List Lia.
From Stdlib Require Floats.SpecFloat.
From stdpp Require Import gmap strings list fin_maps.

Open Scope Z_scope.

(** ** Go integers *)

Definition MaxInt64 : Z := 2 ^ 63 - 1.
Definition MinInt64 : Z := - 2 ^ 63.

(** Two's-complement wrap-around of an [int64] result. *)
Definition wrap64 (x : Z) : Z := (x + 2 ^ 63) mod 2 ^ 64 - 2 ^ 63.

(** [x++] on an [int]. *)
Definition incr (x : Z) : Z := wrap64 (x + 1).

(** ** The library functions the engine calls *)

(** [fmt.Sscanf(s, "%d", &v)]: the scanner skips leading white space (a
    newline is an error), accepts one optional sign, needs at least one
    decimal digit, reads all digits that follow and converts the token
    with [strconv.ParseInt(tok, 10, 64)].  [None] stands for every error
    return; the destination is then left untouched.  Digits, signs and
    the newline are ASCII, and the non-ASCII space runes are recognised
    by their UTF-8 encodings, so that the scan can run on bytes.  (The
    scanner's width limit of 2^30 runes is beyond any status line and is
    left out.) *)
Module fmt.

Definition byte (c : ascii) : Z := Z.of_N (N_of_ascii c).

(** The one-byte runes of the scanner's [space] table:
    U+0009..U+000D and U+0020. *)
Definition isSpace1 (b : Z) : bool :=
  ((9 <=? b) && (b <=? 13)) || (b =? 32).

(** U+0085 and U+00A0, encoded C2 85 and C2 A0. *)
Definition isSpace2 (b1 b2 : Z) : bool :=
  (b1 =? 194) && ((b2 =? 133) || (b2 =? 160)).

(** U+1680 (E1 9A 80), U+2000..U+200A (E2 80 80..8A), U+2028, U+2029
    (E2 80 A8, A9), U+202F (E2 80 AF), U+205F (E2 81 9F) and U+3000
    (E3 80 80). *)
Definition isSpace3 (b1 b2 b3 : Z) : bool :=
  ((b1 =? 225) && (b2 =? 154) && (b3 =? 128))
  || ((b1 =? 226) && (b2 =? 128)
      && (((128 <=? b3) && (b3 <=? 138)) || (b3 =? 168) || (b3 =? 169)
          || (b3 =? 175)))
  || ((b1 =? 226) && (b2 =? 129) && (b3 =? 159))
  || ((b1 =? 227) && (b2 =? 128) && (b3 =? 128)).

(** The scanner's [SkipSpace], with [nlIsSpace = false].  A carriage
    return is skipped whether or not a newline follows; the newline
    itself is the error "unexpected newline". *)
Fixpoint SkipSpace (s : string) : option string :=
  match s with
  | EmptyString => Some s
  | String c1 s1 =>
      let b1 := byte c1 in
      if b1 =? 10 then None
      else if isSpace1 b1 then SkipSpace s1
      else
        match s1 with
        | EmptyString => Some s
        | String c2 s2 =>
            if isSpace2 b1 (byte c2) then SkipSpace s2
            else
              match s2 with
              | EmptyString => Some s
              | String c3 s3 =>
                  if isSpace3 b1 (byte c2) (byte c3) then SkipSpace s3
                  else Some s
              end
        end
  end.

Definition isDigit (c : ascii) : bool :=
  (48 <=? byte c) && (byte c <=? 57).

Definition isSign (c : ascii) : bool :=
  (byte c =? 43) || (byte c =? 45).

(** The digits accepted by [scanNumber], and what follows them. *)
Fixpoint digits (s : string) : string * string :=
  match s with
  | EmptyString => (EmptyString, EmptyString)
  | String c s' =>
      if isDigit c then
        let '(ds, rest) := digits s' in (String c ds, rest)
      else (EmptyString, s)
  end.

(** The value of a string of decimal digits, most significant first. *)
Fixpoint decimal (acc : Z) (ds : string) : Z :=
  match ds with
  | EmptyString => acc
  | String c ds' => decimal (10 * acc + (byte c - 48)) ds'
  end.

(** [strconv.ParseInt(tok, 10, 64)] on a token made of an optional
    sign and digits: a value outside the [int64] range is a range
    error. *)
Definition ParseInt (neg : bool) (ds : string) : option Z :=
  let v := if neg then - decimal 0 ds else decimal 0 ds in
  if (MinInt64 <=? v) && (v <=? MaxInt64) then Some v else None.

(** [scanInt] for the verb [%d], after the spaces were skipped. *)
Definition scanInt (s : string) : option Z :=
  match s with
  | EmptyString => None                    (* notEOF: unexpected EOF *)
  | String c s' =>
      let neg := byte c =? 45 in
      let body := if isSign c then s' else s in
      match digits body with
      | (EmptyString, _) => None           (* EOF or "expected integer" *)
      | (ds, _) => ParseInt neg ds
      end
  end.

Definition Sscanf_d (s : string) : option Z :=
  match SkipSpace s with
  | None => None
  | Some s' => scanInt s'
  end.

End fmt.

(** [time.Duration] is an [int64] count of nanoseconds;
    [(Duration).String] prints it ("1.5s", "2h45m0s", "1.234ms", "0s"). *)
Module time.

Definition Nanosecond : Z := 1.
Definition Microsecond : Z := 1000 * Nanosecond.
Definition Millisecond : Z := 1000 * Microsecond.
Definition Second : Z := 1000 * Millisecond.
Definition Minute : Z := 60 * Second.
Definition Hour : Z := 60 * Minute.

Definition digit (d : Z) : ascii := ascii_of_N (Z.to_N (d + 48)).

(** [fmtFrac(buf, v, prec)]: the low [prec] digits of [v] are written
    in front of [buf], trailing zeros and then the point itself being
    omitted; returns the text and [v / 10^prec]. *)
Fixpoint fmtFrac_loop (prec : nat) (buf : string) (v : Z) (print : bool)
  : string * Z * bool :=
  match prec with
  | O => (buf, v, print)
  | S p =>
      let d := v mod 10 in
      let print := print || negb (d =? 0) in
      let buf := if print then String (digit d) buf else buf in
      fmtFrac_loop p buf (v / 10) print
  end.

Definition fmtFrac (buf : string) (v : Z) (prec : nat) : string * Z :=
  let '(buf, v, print) := fmtFrac_loop prec buf v false in
  (if print then String "." buf else buf, v).

(** [fmtInt(buf, v)]: the decimal digits of [v] in front of [buf]; a
    [uint64] has at most twenty of them. *)
Fixpoint fmtInt_loop (fuel : nat) (buf : string) (v : Z) : string :=
  match fuel with
  | O => buf
  | S f =>
      if 0 <? v then fmtInt_loop f (String (digit (v mod 10)) buf) (v / 10)
      else buf
  end.

Definition fmtInt (buf : string) (v : Z) : string :=
  if v =? 0 then String "0" buf else fmtInt_loop 20 buf v.

(** The micro sign U+00B5, two bytes in UTF-8. *)
Definition micro : string :=
  String (ascii_of_N 194) (String (ascii_of_N 181) EmptyString).

(** [(Duration).format], with the buffer filled from its end: first the
    digits and units of the absolute value, then the sign. *)
Definition formatUnsigned (u : Z) : string :=
  if u <? Second then
    if u =? 0 then "0s"%string
    else if u <? Microsecond then
      let '(buf, u) := fmtFrac "ns" u 0 in fmtInt buf u
    else if u <? Millisecond then
      let '(buf, u) := fmtFrac (micro ++ "s") u 3 in fmtInt buf u
    else
      let '(buf, u) := fmtFrac "ms" u 6 in fmtInt buf u
  else
    let '(buf, u) := fmtFrac "s" u 9 in
    let buf := fmtInt buf (u mod 60) in
    let u := u / 60 in
    if 0 <? u then
      let buf := fmtInt (String "m" buf) (u mod 60) in
      let u := u / 60 in
      if 0 <? u then fmtInt (String "h" buf) u else buf
    else buf.

Definition Duration_String (d : Z) : string :=
  let neg := d <? 0 in
  let u := if neg then - d else d in
  let body := formatUnsigned u in
  if neg then String "-" body else body.

(** [time.ParseDuration], used to run the engine on examples.  The
    one step that Go computes in [float64], the nanoseconds of the
    fraction [f/scale] of a unit, is computed here on integers; the two
    agree whenever [scale] divides the unit, as it does for every
    string that [Duration_String] prints.  The engine itself is
    defined and verified for an arbitrary parser. *)

Definition isPoint (c : ascii) : bool := fmt.byte c =? 46.

Fixpoint leadingInt (s : string) (x : Z) : option (Z * string) :=
  match s with
  | EmptyString => Some (x, s)
  | String c s' =>
      if fmt.isDigit c then
        if 2 ^ 63 / 10 <? x then None
        else
          let x := x * 10 + (fmt.byte c - 48) in
          if 2 ^ 63 <? x then None else leadingInt s' x
      else Some (x, s)
  end.

Fixpoint leadingFraction (s : string) (x scale : Z) (overflow : bool)
  : Z * Z * string :=
  match s with
  | EmptyString => (x, scale, s)
  | String c s' =>
      if fmt.isDigit c then
        if overflow then leadingFraction s' x scale overflow
        else if (2 ^ 63 - 1) / 10 <? x then leadingFraction s' x scale true
        else
          let y := x * 10 + (fmt.byte c - 48) in
          if 2 ^ 63 <? y then leadingFraction s' x scale true
          else leadingFraction s' y (scale * 10) overflow
      else (x, scale, s)
  end.

(** The unit: everything up to the next digit or point. *)
Fixpoint unitSpan (s : string) : string * string :=
  match s with
  | EmptyString => (EmptyString, EmptyString)
  | String c s' =>
      if isPoint c || fmt.isDigit c then (EmptyString, s)
      else let '(u, rest) := unitSpan s' in (String c u, rest)
  end.

(** The Greek letter mu, U+03BC. *)
Definition mu : string :=
  String (ascii_of_N 206) (String (ascii_of_N 188) EmptyString).

Definition unitMap (u : string) : option Z :=
  if String.eqb u "ns" then Some Nanosecond
  else if String.eqb u "us" then Some Microsecond
  else if String.eqb u (micro ++ "s") then Some Microsecond
  else if String.eqb u (mu ++ "s") then Some Microsecond
  else if String.eqb u "ms" then Some Millisecond
  else if String.eqb u "s" then Some Second
  else if String.eqb u "m" then Some Minute
  else if String.eqb u "h" then Some Hour
  else None.

(** The loop that runs while [s] is not empty; every round consumes at
    least one byte, so that the length of the input is fuel enough. *)
Fixpoint parseLoop (fuel : nat) (s : string) (d : Z) : option Z :=
  match fuel with
  | O => match s with EmptyString => Some d | _ => None end
  | S fuel' =>
      match s with
      | EmptyString => Some d
      | String c _ =>
          if negb (isPoint c || fmt.isDigit c) then None
          else
            match leadingInt s 0 with
            | None => None
            | Some (v, s1) =>
                let pre := negb (String.length s =? String.length s1)%nat in
                let '(f, scale, s2, post) :=
                  match s1 with
                  | String c1 s1' =>
                      if isPoint c1 then
                        let '(f, scale, r) := leadingFraction s1' 0 1 false in
                        (f, scale, r,
                         negb (String.length s1' =? String.length r)%nat)
                      else (0, 1, s1, false)
                  | EmptyString => (0, 1, s1, false)
                  end in
                if negb pre && negb post then None
                else
                  let '(u, s3) := unitSpan s2 in
                  match unitMap u with
                  | None => None
                  | Some unit =>
                      if 2 ^ 63 / unit <? v then None
                      else
                        let v := v * unit in
                        let v := if 0 <? f then v + f * unit / scale else v in
                        if (0 <? f) && (2 ^ 63 <? v) then None
                        else
                          let d := (d + v) mod 2 ^ 64 in
                          if 2 ^ 63 <? d then None else parseLoop fuel' s3 d
                  end
            end
      end
  end.

Definition invalid : string := "time: invalid duration".

Definition ParseDuration (s : string) : Z * option string :=
  let '(neg, s) :=
    match s with
    | String c s' =>
        if (fmt.byte c =? 45) || (fmt.byte c =? 43)
        then (fmt.byte c =? 45, s')
        else (false, s)
    | EmptyString => (false, s)
    end in
  if String.eqb s "0" then (0, None)
  else if String.eqb s EmptyString then (0, Some invalid)
  else
    match parseLoop (String.length s) s 0 with
    | None => (0, Some invalid)
    | Some d =>
        if neg then (wrap64 (- d), None)
        else if 2 ^ 63 - 1 <? d then (0, Some invalid)
        else (d, None)
    end.

End time.

(** ** Data model (main.go, lines 19-43) *)

Module RequestResult.
Record t : Type := mk {
  ID : Z;
  URL : string;
  Status : string;
  Error : string;
  Duration : string
}.
End RequestResult.

Module CycleStats.
Record t : Type := mk {
  CycleNumber : Z;
  TotalRequests : Z;
  SuccessCount : Z;
  ErrorCount : Z;
  AvgDurationMS : string;
  ResponseCodes : gmap Z Z
}.
End CycleStats.

Module Report.
Record t : Type := mk {
  TotalRequests : Z;
  SuccessCount : Z;
  ErrorCount : Z;
  AvgDurationMS : string;
  ResponseCodes : gmap Z Z;
  CycleDetails : list CycleStats.t
}.
End Report.

(** What [http.Get] hands back: a response, of which the engine reads only
    [resp.Status], or an error, of which it reads only [err.Error()]. *)
Inductive GetResult : Type :=
| Response (status : string)
| TransportError (msg : string).

(** The errors of [http.Get] are values of [*url.Error], whose message
    joins the operation, the quoted URL and the message of the cause. *)
Definition url_Error (Op quotedURL Err : string) : string :=
  (Op ++ " " ++ quotedURL ++ ": " ++ Err)%string.

(** ** checkStatus (main.go, lines 46-64)

    [get] is the return of [http.Get(url)] and [duration] the value of
    [time.Since(start)]; the result is the value sent on the channel. *)
Definition checkStatus (url : string) (id : Z) (get : GetResult) (duration : Z)
  : RequestResult.t :=
  let result :=
    RequestResult.mk id url EmptyString EmptyString
      (time.Duration_String duration) in
  match get with
  | TransportError msg =>
      RequestResult.mk (RequestResult.ID result) (RequestResult.URL result)
        (RequestResult.Status result) msg (RequestResult.Duration result)
  | Response status =>
      RequestResult.mk (RequestResult.ID result) (RequestResult.URL result)
        status (RequestResult.Error result) (RequestResult.Duration result)
  end.

(** ** Running Go code: a result, a panic, or a loop cut short by the
    fuel of the model *)

Inductive res (A : Type) : Type :=
| Done (a : A)
| Panic (msg : string)
| OutOfFuel.
Arguments Done {A} a.
Arguments Panic {A} msg.
Arguments OutOfFuel {A}.

#[global] Instance res_bind : MBind res := fun A B k m =>
  match m with
  | Done a => k a
  | Panic msg => Panic msg
  | OutOfFuel => OutOfFuel
  end.

(** ** calculateAverageDuration (main.go, lines 132-138)

    [total += d] wraps around; the division of two [int64] truncates
    toward zero and panics on a zero divisor. *)
Definition sumDurations (durations : list Z) : Z :=
  fold_left (fun total d => wrap64 (total + d)) durations 0.

Definition calculateAverageDuration (durations : list Z) : res Z :=
  let total := sumDurations durations in
  let n := Z.of_nat (length durations) in
  if n =? 0 then Panic "runtime error: integer divide by zero"
  else Done (Z.quot total n).

(** ** Field updates of the two statistics records *)

(** [m[k]++] on a [map[int]int]: a missing key reads as 0. *)
Definition incrCode (k : Z) (m : gmap Z Z) : gmap Z Z :=
  <[k := incr (default 0 (m !! k))]> m.

Module CycleUpd.
Import CycleStats.
Definition incrTotalRequests (c : t) : t :=
  mk (CycleNumber c) (incr (TotalRequests c)) (SuccessCount c)
     (ErrorCount c) (AvgDurationMS c) (ResponseCodes c).
Definition incrSuccessCount (c : t) : t :=
  mk (CycleNumber c) (TotalRequests c) (incr (SuccessCount c))
     (ErrorCount c) (AvgDurationMS c) (ResponseCodes c).
Definition incrErrorCount (c : t) : t :=
  mk (CycleNumber c) (TotalRequests c) (SuccessCount c)
     (incr (ErrorCount c)) (AvgDurationMS c) (ResponseCodes c).
Definition incrResponseCode (k : Z) (c : t) : t :=
  mk (CycleNumber c) (TotalRequests c) (SuccessCount c)
     (ErrorCount c) (AvgDurationMS c) (incrCode k (ResponseCodes c)).
Definition setAvgDurationMS (s : string) (c : t) : t :=
  mk (CycleNumber c) (TotalRequests c) (SuccessCount c)
     (ErrorCount c) s (ResponseCodes c).
End CycleUpd.

Module ReportUpd.
Import Report.
Definition incrTotalRequests (r : t) : t :=
  mk (incr (TotalRequests r)) (SuccessCount r) (ErrorCount r)
     (AvgDurationMS r) (ResponseCodes r) (CycleDetails r).
Definition incrSuccessCount (r : t) : t :=
  mk (TotalRequests r) (incr (SuccessCount r)) (ErrorCount r)
     (AvgDurationMS r) (ResponseCodes r) (CycleDetails r).
Definition incrErrorCount (r : t) : t :=
  mk (TotalRequests r) (SuccessCount r) (incr (ErrorCount r))
     (AvgDurationMS r) (ResponseCodes r) (CycleDetails r).
Definition incrResponseCode (k : Z) (r : t) : t :=
  mk (TotalRequests r) (SuccessCount r) (ErrorCount r)
     (AvgDurationMS r) (incrCode k (ResponseCodes r)) (CycleDetails r).
Definition setAvgDurationMS (s : string) (r : t) : t :=
  mk (TotalRequests r) (SuccessCount r) (ErrorCount r)
     s (ResponseCodes r) (CycleDetails r).
Definition appendCycle (c : CycleStats.t) (r : t) : t :=
  mk (TotalRequests r) (SuccessCount r) (ErrorCount r)
     (AvgDurationMS r) (ResponseCodes r) (CycleDetails r ++ [c]).
End ReportUpd.

(** [n] increments, and the codes of a list counted into a histogram. *)
Definition incrN (n : nat) (x : Z) : Z := Nat.iter n incr x.

Definition incrCodes (codes : list Z) (m : gmap Z Z) : gmap Z Z :=
  fold_left (fun m k => incrCode k m) codes m.

(** Reading a histogram: the count of a code, and the sum of all counts. *)
Definition bucket (m : gmap Z Z) (k : Z) : Z := default 0 (m !! k).

Definition histTotal (m : gmap Z Z) : Z :=
  map_fold (fun _ v acc => v + acc) 0 m.

(** The sum of a list of integers, without wrap-around. *)
Definition sumZ (l : list Z) : Z := foldr Z.add 0 l.

(** ** The order in which the goroutines of a cycle reach their send

    The goroutines of a cycle run concurrently; each one sends exactly
    one value on [results], whose capacity is their number, and the
    deferred [wg.Done()] runs after the send.  When [wg.Wait()] returns,
    the channel therefore holds the value of every goroutine, in the
    order of the sends.  That order is the scheduler's: a list of
    choices picks, at each step, which of the goroutines still pending
    sends next (choice [k] among [n] pending ones picks number
    [k mod n]; missing choices count as 0). *)
Fixpoint interleave {A : Type} (n : nat) (choices : list nat)
  (pending : list A) : list A :=
  match n with
  | O => []
  | S n' =>
      let k := (hd 0%nat choices `mod` length pending)%nat in
      match pending !! k with
      | Some x => x :: interleave n' (tl choices) (delete k pending)
      | None => []
      end
  end.

Definition arrival {A : Type} (choices : list nat) (pending : list A)
  : list A :=
  interleave (length pending) choices pending.

(** *** The same, step by step

    The goroutines of a cycle as a transition system, of which [arrival]
    is the summary.  The main goroutine runs the loop of lines 80-83
    ([wg.Add(1)] and the [go] statement form one step), then blocks in
    [wg.Wait()] until the counter is zero, then closes the channel.
    Goroutine [id] sends its value, which needs room in the channel of
    capacity [n], and then runs its deferred [wg.Done()].  Nothing is
    received before the channel is closed, so that the channel holds the
    values of the goroutines of [sent], in this order. *)
Inductive MainPC : Type := Spawning | Waiting | Closed.

Record Fanout : Type := mkFanout {
  pc : MainPC;
  launched : Z;        (* the loop variable [i] *)
  wg : Z;              (* the counter of the WaitGroup *)
  sent : list Z;       (* the goroutines that have sent, in order *)
  exited : list Z      (* the goroutines that have run [wg.Done()] *)
}.

Definition fanoutStart : Fanout := mkFanout Spawning 0 0 [] [].

Inductive fanoutStep (n : Z) : Fanout -> Fanout -> Prop :=
| step_go (c : Fanout) :
    pc c = Spawning -> launched c < n ->
    fanoutStep n c
      (mkFanout Spawning (launched c + 1) (wg c + 1) (sent c) (exited c))
| step_loop_exit (c : Fanout) :
    pc c = Spawning -> ~ launched c < n ->
    fanoutStep n c
      (mkFanout Waiting (launched c) (wg c) (sent c) (exited c))
| step_send (c : Fanout) (id : Z) :
    0 <= id < launched c -> id ∉ sent c ->
    Z.of_nat (length (sent c)) < n ->
    fanoutStep n c
      (mkFanout (pc c) (launched c) (wg c) (sent c ++ [id]) (exited c))
| step_done (c : Fanout) (id : Z) :
    id ∈ sent c -> id ∉ exited c ->
    fanoutStep n c
      (mkFanout (pc c) (launched c) (wg c - 1) (sent c) (id :: exited c))
| step_wait_return (c : Fanout) :
    pc c = Waiting -> wg c = 0 ->
    fanoutStep n c
      (mkFanout Closed (launched c) (wg c) (sent c) (exited c)).

(** What holds of every state that the goroutines can reach. *)
Definition fanoutInv (n : Z) (c : Fanout) : Prop :=
  0 <= launched c <= n /\
  NoDup (sent c) /\
  NoDup (exited c) /\
  (forall id, id ∈ exited c -> id ∈ sent c) /\
  (forall id, id ∈ sent c -> 0 <= id < launched c) /\
  wg c = launched c - Z.of_nat (length (exited c)) /\
  (pc c <> Spawning -> launched c = n) /\
  (pc c = Closed -> wg c = 0).

(** What the main goroutine does that an observer can order in time. *)
Inductive Event : Type :=
| EvProgress (cycle : Z)          (* progress(cycle) is called *)
| EvGo (cycle : Z) (id : Z)       (* go checkStatus(url, id, &wg, results) *)
| EvWait (cycle : Z).             (* wg.Wait() returned; close(results) *)

(** ** Making the channel of a cycle

    [make(chan RequestResult, size)] is the runtime's [makechan], which
    panics unless the buffer can be allocated: the product of the size of
    an element and of [size], taken as unsigned words, must not overflow
    and must leave room for the channel header below the largest
    allocation, and [size] must not be negative.  The platform is a 64-bit
    one with 48 bits of heap addresses.  (Running out of the memory of the
    machine is no panic, and is not modelled.) *)
Module runtime.

(** [unsafe.Sizeof(RequestResult{})]: an [int] and four strings. *)
Definition elemSize : Z := 8 + 4 * 16.

Definition maxAlloc : Z := 2 ^ 48.

(** [unsafe.Sizeof(hchan{})], rounded up to the alignment. *)
Definition hchanSize : Z := 96.

Definition MaxUintptr : Z := 2 ^ 64 - 1.

(** The conversion of an [int] to [uintptr]. *)
Definition uintptr (x : Z) : Z := x mod 2 ^ 64.

(** [math.MulUintptr(a, b)]: the product and whether it overflows. *)
Definition MulUintptr (a b : Z) : Z * bool :=
  if (Z.lor a b <? 2 ^ 32) || (a =? 0) then (uintptr (a * b), false)
  else (uintptr (a * b), MaxUintptr / a <? b).

(** The test of [makechan]: [true] when the channel is made, [false]
    when the call panics. *)
Definition makechan (size : Z) : bool :=
  let '(mem, overflow) := MulUintptr elemSize (uintptr size) in
  negb (overflow || (maxAlloc - hchanSize <? mem) || (size <? 0)).

(** The largest capacity of a channel of [RequestResult]. *)
Definition maxWidth : Z := (maxAlloc - hchanSize) / elemSize.

End runtime.

(** ** runAPITest (main.go, lines 67-129) *)

(** The local variables that the loop over [results] updates. *)
Record Acc : Type := mkAcc {
  report : Report.t;
  cycleStats : CycleStats.t;
  totalDurations : list Z;
  cycleDurations : list Z
}.

(** The variables that live across cycles, and the log of events. *)
Record RunState : Type := mkRun {
  run_report : Report.t;
  run_totalDurations : list Z;
  run_trace : list Event
}.

Section Engine.

(** [time.ParseDuration] returns a duration and an error; its
    conversion goes through [float64] and is kept abstract. *)
Variable ParseDuration : string -> Z * option string.

(** The arguments of [runAPITest]; the callback [progress] is observed
    through the event log. *)
Variable url : string.
Variable numGoroutines maxCycles : Z.

(** The environment: what [http.Get] returns to goroutine [id] of
    cycle [cycle], the time it took, and the scheduling choices of the
    cycle. *)
Variable http_Get : Z -> Z -> GetResult.
Variable since : Z -> Z -> Z.
Variable sched : Z -> list nat.

(** [fmt.Sscanf(result.Status, "%d", &statusCode)] on a zero
    [statusCode], its error return dropped. *)
Definition statusCode (result : RequestResult.t) : Z :=
  match fmt.Sscanf_d (RequestResult.Status result) with
  | Some v => v
  | None => 0
  end.

(** [duration, _ := time.ParseDuration(result.Duration)]. *)
Definition parsedDuration (result : RequestResult.t) : Z :=
  fst (ParseDuration (RequestResult.Duration result)).

(** The test of line 97: [result.Error] is the empty string. *)
Definition succeeded (result : RequestResult.t) : bool :=
  String.eqb (RequestResult.Error result) EmptyString.

(** The body of [for result := range results] (lines 95-112). *)
Definition reduce (a : Acc) (result : RequestResult.t) : Acc :=
  let report := ReportUpd.incrTotalRequests (report a) in
  let cycleStats := CycleUpd.incrTotalRequests (cycleStats a) in
  if succeeded result then
    let report := ReportUpd.incrSuccessCount report in
    let cycleStats := CycleUpd.incrSuccessCount cycleStats in
    let statusCode := statusCode result in
    let report := ReportUpd.incrResponseCode statusCode report in
    let cycleStats := CycleUpd.incrResponseCode statusCode cycleStats in
    let duration := parsedDuration result in
    mkAcc report cycleStats
      (totalDurations a ++ [duration]) (cycleDurations a ++ [duration])
  else
    let report := ReportUpd.incrErrorCount report in
    let cycleStats := CycleUpd.incrErrorCount cycleStats in
    mkAcc report cycleStats (totalDurations a) (cycleDurations a).

(** The contents of [results] once [wg.Wait()] has returned: one value
    per goroutine launched by the loop of lines 80-83, in the order of
    arrival. *)
Definition probe (cycle id : Z) : RequestResult.t :=
  checkStatus url id (http_Get cycle id) (since cycle id).

Definition results (cycle : Z) : list RequestResult.t :=
  probe cycle <$> arrival (sched cycle) (seqZ 0 numGoroutines).

(** One iteration of the loop over cycles (lines 75-120). *)
Definition runCycle (cycle : Z) (st : RunState) : res RunState :=
  let trace := run_trace st ++ [EvProgress cycle] in
  if negb (runtime.makechan numGoroutines)
  then Panic "makechan: size out of range"
  else
    let trace := trace ++ (EvGo cycle <$> seqZ 0 numGoroutines) in
    let trace := trace ++ [EvWait cycle] in
    let fresh := CycleStats.mk cycle 0 0 0 EmptyString ∅ in
    let a :=
      fold_left reduce (results cycle)
        (mkAcc (run_report st) fresh (run_totalDurations st) []) in
    final ←
      (if 0 <? Z.of_nat (length (cycleDurations a)) then
         avg ← calculateAverageDuration (cycleDurations a);
         Done (CycleUpd.setAvgDurationMS (time.Duration_String avg)
                 (cycleStats a))
       else Done (cycleStats a));
    Done (mkRun (ReportUpd.appendCycle final (report a))
            (totalDurations a) trace).

(** [for cycle := 1; cycle <= maxCycles; cycle++]. *)
Fixpoint cycles (fuel : nat) (cycle : Z) (st : RunState) : res RunState :=
  match fuel with
  | O => OutOfFuel
  | S fuel' =>
      if cycle <=? maxCycles then
        st' ← runCycle cycle st;
        cycles fuel' (incr cycle) st'
      else Done st
  end.

Definition runAPITest (fuel : nat) : res (Report.t * list Event) :=
  let empty := Report.mk 0 0 0 EmptyString ∅ [] in
  st ← cycles fuel 1 (mkRun empty [] []);
  final ←
    (if 0 <? Z.of_nat (length (run_totalDurations st)) then
       avg ← calculateAverageDuration (run_totalDurations st);
       Done (ReportUpd.setAvgDurationMS (time.Duration_String avg)
               (run_report st))
     else Done (run_report st));
  Done (final, run_trace st).

(** *** What a list of results contributes to the statistics *)

Definition successes (rs : list RequestResult.t) : list RequestResult.t :=
  List.filter succeeded rs.

Definition failures (rs : list RequestResult.t) : list RequestResult.t :=
  List.filter (fun r => negb (succeeded r)) rs.

Definition codes (rs : list RequestResult.t) : list Z :=
  statusCode <$> successes rs.

Definition latencies (rs : list RequestResult.t) : list Z :=
  parsedDuration <$> successes rs.

(** The durations that the successful goroutines of a cycle measured, in
    the order of arrival. *)
Definition measured (cycle : Z) : list Z :=
  since cycle
    <$> List.filter (fun id => succeeded (probe cycle id))
          (arrival (sched cycle) (seqZ 0 numGoroutines)).

(** The text of an average field: set only for a non-empty pool. *)
Definition average (ds : list Z) : string :=
  if 0 <? Z.of_nat (length ds)
  then time.Duration_String (Z.quot (sumDurations ds) (Z.of_nat (length ds)))
  else EmptyString.

(** The results of several cycles, in the order of reduction. *)
Definition allResults (cs : list Z) : list RequestResult.t :=
  concat (results <$> cs).

(** The statistics of one cycle, as a function of its results. *)
Definition cycleSummary (cycle : Z) : CycleStats.t :=
  let rs := results cycle in
  CycleStats.mk cycle
    (incrN (length rs) 0)
    (incrN (length (successes rs)) 0)
    (incrN (length (failures rs)) 0)
    (average (latencies rs))
    (incrCodes (codes rs) ∅).

(** The events of one cycle. *)
Definition cycleEvents (cycle : Z) : list Event :=
  [EvProgress cycle] ++ (EvGo cycle <$> seqZ 0 numGoroutines)
    ++ [EvWait cycle].

(** The state of the run after the cycles [cs], started from [st]. *)
Definition stateAfter (cs : list Z) (st : RunState) : RunState :=
  let rs := allResults cs in
  let r := run_report st in
  mkRun
    (Report.mk
       (incrN (length rs) (Report.TotalRequests r))
       (incrN (length (successes rs)) (Report.SuccessCount r))
       (incrN (length (failures rs)) (Report.ErrorCount r))
       (Report.AvgDurationMS r)
       (incrCodes (codes rs) (Report.ResponseCodes r))
       (Report.CycleDetails r ++ (cycleSummary <$> cs)))
    (run_totalDurations st ++ latencies rs)
    (run_trace st ++ concat (cycleEvents <$> cs)).

(** The report of a whole run. *)
Definition finalReport : Report.t :=
  let cs := seqZ 1 maxCycles in
  let rs := allResults cs in
  Report.mk
    (incrN (length rs) 0)
    (incrN (length (successes rs)) 0)
    (incrN (length (failures rs)) 0)
    (average (latencies rs))
    (incrCodes (codes rs) ∅)
    (cycleSummary <$> cs).

Definition finalTrace : list Event :=
  concat (cycleEvents <$> seqZ 1 maxCycles).

End Engine.

(** ** Notions used to state the properties *)

(** The arguments of the calls of [progress], in the order of the calls. *)
Definition progressCalls (trace : list Event) : list Z :=
  omap (fun e => match e with EvProgress c => Some c | _ => None end) trace.

(** [text] is the average that the code reports for the pool [ds] of
    [count] durations: the text of the quotient of their sum by their
    number, the division truncating toward zero.  The sum is the one that
    the code computes in 64 bits; it is the plain sum whenever that fits. *)
Definition isTruncatedMean (ds : list Z) (count : Z) (text : string) : Prop :=
  let q := Z.quot (sumDurations ds) count in
  count = Z.of_nat (length ds) /\
  text = time.Duration_String q /\
  Z.abs (count * q) <= Z.abs (sumDurations ds) < Z.abs (count * q) + count /\
  0 <= q * sumDurations ds /\
  sumDurations ds = wrap64 (sumZ ds) /\
  (MinInt64 <= sumZ ds <= MaxInt64 ->
   text = time.Duration_String (Z.quot (sumZ ds) count)).

(** The mean of the averages of the cycles that have one, each cycle
    counting once: what the report does not contain. *)
Definition meanOfCycleAverages (parse : string -> Z * option string)
  (details : list CycleStats.t) : res Z :=
  calculateAverageDuration
    ((fun cs => fst (parse (CycleStats.AvgDurationMS cs)))
       <$> List.filter
             (fun cs => negb (String.eqb (CycleStats.AvgDurationMS cs) EmptyString))
             details).

(** Reading a status text: made of digits only; starting with a digit;
    beginning with a decimal integer in the sense of the verb [%d], that
    is, after the white space that the scanner skips, an optional sign
    and at least one digit. *)
Fixpoint isDigits (s : string) : bool :=
  match s with
  | EmptyString => true
  | String c s' => fmt.isDigit c && isDigits s'
  end.

Definition startsWithDigit (s : string) : bool :=
  match s with
  | EmptyString => false
  | String c _ => fmt.isDigit c
  end.

Definition startsWithPoint (s : string) : bool :=
  match s with
  | EmptyString => false
  | String c _ => time.isPoint c
  end.

Definition beginsWithInteger (s : string) : bool :=
  match fmt.SkipSpace s with
  | Some (String c s') =>
      startsWithDigit (if fmt.isSign c then s' else String c s')
  | _ => false
  end.

(** The same notions on the code points themselves: the ASCII digits and
    letters, and the number that a text of digits writes, every digit
    weighted by its power of ten. *)
Definition asciiCode (c : ascii) : Z := Z.of_N (N_of_ascii c).

Definition asciiDigit (c : ascii) : bool :=
  (48 <=? asciiCode c) && (asciiCode c <=? 57).

Definition asciiLetter (c : ascii) : bool :=
  ((65 <=? asciiCode c) && (asciiCode c <=? 90))
  || ((97 <=? asciiCode c) && (asciiCode c <=? 122)).

Fixpoint allAsciiDigits (s : string) : bool :=
  match s with
  | EmptyString => true
  | String c s' => asciiDigit c && allAsciiDigits s'
  end.

Definition firstIsAsciiDigit (s : string) : bool :=
  match s with
  | EmptyString => false
  | String c _ => asciiDigit c
  end.

Definition firstIsAsciiLetter (s : string) : bool :=
  match s with
  | EmptyString => false
  | String c _ => asciiLetter c
  end.

Fixpoint positional (ds : string) : Z :=
  match ds with
  | EmptyString => 0
  | String c ds' =>
      (asciiCode c - 48) * 10 ^ Z.of_nat (String.length ds') + positional ds'
  end.

(** The histogram [m'] is [m] with one more result counted under the key
    [k]: the count of [k], which is 0 for a key that [m] does not have, is
    one more (as an [int]), and no other key has changed. *)
Definition countedUnder (k : Z) (m m' : gmap Z Z) : Prop :=
  m' !! k = Some (wrap64 (default 0 (m !! k) + 1)) /\
  (0 <= default 0 (m !! k) < MaxInt64 ->
   m' !! k = Some (default 0 (m !! k) + 1)) /\
  (forall j : Z, j <> k -> m' !! j = m !! j).

(** ** A run to compute with

    Two cycles of two requests.  The server answers in 100ms during the
    first cycle and in 400ms during the second, whose second request is
    refused; in every cycle goroutine 1 is the first to send. *)
Module Example.

Definition url : string := "http://localhost:8025/".

Definition http_Get (cycle id : Z) : GetResult :=
  if (cycle =? 2) && (id =? 1)
  then TransportError "Get http://localhost:8025/: connection refused"
  else Response "200 OK".

Definition since (cycle id : Z) : Z :=
  if cycle =? 1 then 100 * time.Millisecond else 400 * time.Millisecond.

Definition sched (cycle : Z) : list nat := [1%nat].

Definition run : res (Report.t * list Event) :=
  runAPITest time.ParseDuration url 2 2 http_Get since sched 3.

End Example.

(** ** The window (main.go, lines 141-223) *)

(** [strconv.Atoi], by which [runTest] reads the two numbers, and
    [strconv.Itoa], whose text is what the verb [%d] prints.  [Atoi]
    returns a value and an error that is nil, a syntax error or a range
    error; base and size are fixed here to 10 and 64. *)
Module strconv.

Inductive Err : Type := ErrSyntax | ErrRange.

(** The loop of the fast path of [Atoi], for texts of fewer than 19
    bytes: [ch -= '0'; if ch > 9 { syntax error }; n = n*10 + int(ch)]. *)
Fixpoint fastLoop (s : string) (n : Z) : option Z :=
  match s with
  | EmptyString => Some n
  | String ch s' =>
      if fmt.isDigit ch then fastLoop s' (n * 10 + (fmt.byte ch - 48))
      else None
  end.

(** [lower(c)] is [c | ('x' - 'X')]. *)
Definition lower (b : Z) : Z := Z.lor b 32.

Definition maxUint64 : Z := 2 ^ 64 - 1.

(** The loop of [ParseUint(s, 10, 64)]: a byte that is no digit of the
    base is a syntax error; a value beyond 64 bits is a range error, which
    returns the largest value at once. *)
Fixpoint ParseUint_loop (s : string) (n : Z) : Z * option Err :=
  match s with
  | EmptyString => (n, None)
  | String c s' =>
      let b := fmt.byte c in
      let d :=
        if fmt.isDigit c then Some (b - 48)
        else if (97 <=? lower b) && (lower b <=? 122)
             then Some (lower b - 97 + 10)
        else None in
      match d with
      | None => (0, Some ErrSyntax)
      | Some d =>
          if 10 <=? d then (0, Some ErrSyntax)
          else if maxUint64 / 10 + 1 <=? n then (maxUint64, Some ErrRange)
          else
            let n := n * 10 in
            let n1 := (n + d) mod 2 ^ 64 in
            if (n1 <? n) || (maxUint64 <? n1) then (maxUint64, Some ErrRange)
            else ParseUint_loop s' n1
      end
  end.

Definition ParseUint (s : string) : Z * option Err :=
  match s with
  | EmptyString => (0, Some ErrSyntax)
  | _ => ParseUint_loop s 0
  end.

(** [ParseInt(s, 10, 0)]: the sign is picked off, the rest converted as
    an unsigned number and checked against the range of [int64]. *)
Definition ParseInt (s : string) : Z * option Err :=
  match s with
  | EmptyString => (0, Some ErrSyntax)
  | String c s' =>
      let neg := fmt.byte c =? 45 in
      let body := if (fmt.byte c =? 43) || (fmt.byte c =? 45) then s' else s in
      let '(un, err) := ParseUint body in
      match err with
      | Some ErrSyntax => (0, Some ErrSyntax)
      | _ =>
          let cutoff := 2 ^ 63 in
          if negb neg && (cutoff <=? un) then (cutoff - 1, Some ErrRange)
          else if neg && (cutoff <? un) then (- cutoff, Some ErrRange)
          else
            let n := wrap64 un in
            (if neg then wrap64 (- n) else n, None)
      end
  end.

Definition Atoi (s : string) : Z * option Err :=
  let sLen := String.length s in
  if ((0 <? sLen) && (sLen <? 19))%nat then
    match s with
    | EmptyString => (0, Some ErrSyntax)
    | String c s' =>
        let body :=
          if (fmt.byte c =? 45) || (fmt.byte c =? 43) then s' else s in
        if (String.length body <? 1)%nat then (0, Some ErrSyntax)
        else
          match fastLoop body 0 with
          | None => (0, Some ErrSyntax)
          | Some n => (if fmt.byte c =? 45 then - n else n, None)
          end
    end
  else ParseInt s.

(** The decimal text of an [int]: a minus sign for a negative value,
    then the digits of the magnitude. *)
Definition Itoa (i : Z) : string :=
  if i <? 0 then String "-" (time.fmtInt EmptyString (- i))
  else time.fmtInt EmptyString i.

End strconv.

(** [float64(n)] for an [int] and the quotient of two [float64]: IEEE 754
    binary64 values, rounded to nearest, ties to even. *)
Definition float64 (n : Z) : SpecFloat.spec_float :=
  SpecFloat.binary_normalize 53 1024 n 0 false.

Definition float64_div (x y : SpecFloat.spec_float) : SpecFloat.spec_float :=
  SpecFloat.SFdiv 53 1024 x y.

(** What [runTest] does to the widgets, in the order of the calls, with
    the events of the engine in between. *)
Inductive Label : Type := resultLabel | statusLabel.

Inductive Call : Type :=
| SetText (label : Label) (text : string)
| SetValue (value : SpecFloat.spec_float)      (* progressBar.SetValue *)
| Engine (e : Event).

Definition newline : string := String (ascii_of_N 10) EmptyString.

Definition invalidMessage : string := "Por favor, insira valores válidos.".

(** [fmt.Sprintf("Executando ciclo %d de %d...", currentCycle, maxCycles)] *)
Definition cycleMessage (currentCycle maxCycles : Z) : string :=
  ("Executando ciclo " ++ strconv.Itoa currentCycle ++ " de "
     ++ strconv.Itoa maxCycles ++ "...")%string.

(** The text of lines 190-196. *)
Definition reportMessage (report : Report.t) : string :=
  ("Total Requests: " ++ strconv.Itoa (Report.TotalRequests report) ++ newline
     ++ "Success: " ++ strconv.Itoa (Report.SuccessCount report) ++ newline
     ++ "Errors: " ++ strconv.Itoa (Report.ErrorCount report) ++ newline
     ++ "Avg Duration: " ++ Report.AvgDurationMS report)%string.

(** The closure [updateProgress] (lines 181-184). *)
Definition updateProgress (maxCycles currentCycle : Z) : list Call :=
  [SetValue (float64_div (float64 currentCycle) (float64 maxCycles));
   SetText statusLabel (cycleMessage currentCycle maxCycles)].

(** The engine calls [progress], here [updateProgress], at the start of
    each cycle. *)
Definition observe (maxCycles : Z) (e : Event) : list Call :=
  match e with
  | EvProgress cycle => Engine e :: updateProgress maxCycles cycle
  | _ => [Engine e]
  end.

Definition failed (err : option strconv.Err) : bool :=
  match err with Some _ => true | None => false end.

Section Window.

Variable ParseDuration : string -> Z * option string.
Variable http_Get : Z -> Z -> GetResult.
Variable since : Z -> Z -> Z.
Variable sched : Z -> list nat.

(** The closure [runTest] (lines 165-201) on the texts of the three
    entries. *)
Definition runTest (urlEntry goroutinesEntry cyclesEntry : string)
  (fuel : nat) : res (list Call) :=
  let url := urlEntry in
  let '(numGoroutines, err1) := strconv.Atoi goroutinesEntry in
  let '(maxCycles, err2) := strconv.Atoi cyclesEntry in
  if String.eqb url EmptyString || failed err1 || failed err2
     || (numGoroutines <=? 0) || (maxCycles <=? 0)
  then Done [SetText resultLabel invalidMessage]
  else
    out ← runAPITest ParseDuration url numGoroutines maxCycles http_Get since
            sched fuel;
    Done ([SetText resultLabel EmptyString; SetValue (float64 0);
           SetText statusLabel "Executando ciclos..."]
            ++ concat (observe maxCycles <$> snd out)
            ++ [SetText resultLabel (reportMessage (fst out));
                SetValue (float64 1);
                SetText statusLabel "Concluído!"]).

End Window.

(** The entries that [main] fills in before the user types. *)
Definition goroutinesDefault : string := "200".
Definition cyclesDefault : string := "30".

(** Notions to state the properties of the window: a decimal integer as
    [Atoi] reads it, its value, and the texts that a log sets on the two
    labels. *)
Definition isDecimalInt (s : string) : bool :=
  match s with
  | EmptyString => false
  | String c s' =>
      let body := if fmt.isSign c then s' else s in
      negb (String.eqb body EmptyString) && isDigits body
  end.

Definition decimalValue (s : string) : Z :=
  match s with
  | EmptyString => 0
  | String c s' =>
      if fmt.byte c =? 45 then - fmt.decimal 0 s'
      else if fmt.byte c =? 43 then fmt.decimal 0 s'
      else fmt.decimal 0 s
  end.

Definition statusTexts (log : list Call) : list string :=
  omap (fun c => match c with SetText statusLabel t => Some t | _ => None end)
    log.

Definition resultTexts (log : list Call) : list string :=
  omap (fun c => match c with SetText resultLabel t => Some t | _ => None end)
    log.

Definition barValues (log : list Call) : list SpecFloat.spec_float :=
  omap (fun c => match c with SetValue v => Some v | _ => None end) log.

Definition requests (log : list Call) : list (Z * Z) :=
  omap (fun c => match c with
                 | Engine (EvGo cycle id) => Some (cycle, id)
                 | _ => None
                 end) log.

(** The entries with which a test starts. *)
Definition validEntries (urlEntry goroutinesEntry cyclesEntry : string)
  : Prop :=
  urlEntry <> EmptyString /\
  (isDecimalInt goroutinesEntry = true /\
   1 <= decimalValue goroutinesEntry <= MaxInt64) /\
  (isDecimalInt cyclesEntry = true /\
   1 <= decimalValue cyclesEntry <= MaxInt64).

(** ** The steps of the goroutines of a cycle, counted

    Every step of [fanoutStep] moves one of four counters: a launch, a
    send, an exit, or the progress of the main goroutine past its loop
    and past [wg.Wait()]. *)
Definition fanoutMeasure (c : Fanout) : Z :=
  launched c + Z.of_nat (length (sent c)) + Z.of_nat (length (exited c))
  + match pc c with Spawning => 0 | Waiting => 1 | Closed => 2 end.

(** * Properties *)

(** ** Integers *)

Lemma wrap64_id (x : Z) : MinInt64 <= x <= MaxInt64 -> wrap64 x = x.
Proof.
  unfold wrap64, MinInt64, MaxInt64. intros H.
  rewrite Z.mod_small by lia. lia.
Qed.

Lemma wrap64_range (x : Z) : MinInt64 <= wrap64 x <= MaxInt64.
Proof.
  unfold wrap64, MinInt64, MaxInt64.
  pose proof (Z.mod_pos_bound (x + 2 ^ 63) (2 ^ 64)). lia.
Qed.

Lemma incr_exact (x : Z) : MinInt64 <= x < MaxInt64 -> incr x = x + 1.
Proof. intros H. unfold incr. apply wrap64_id. lia. Qed.

Lemma incrN_exact (n : nat) (x : Z) :
  MinInt64 <= x -> x + Z.of_nat n <= MaxInt64 -> incrN n x = x + Z.of_nat n.
Proof.
  unfold incrN. revert x. induction n as [|n IH]; intros x Hlo Hhi.
  - simpl. lia.
  - rewrite Nat.iter_succ_r, incr_exact by lia.
    rewrite IH by lia. lia.
Qed.

Lemma incrN_zero (n : nat) :
  Z.of_nat n <= MaxInt64 -> incrN n 0 = Z.of_nat n.
Proof.
  intros H. rewrite incrN_exact; unfold MinInt64; lia.
Qed.

Lemma incrN_add (a b : nat) (x : Z) :
  incrN (a + b) x = incrN b (incrN a x).
Proof. unfold incrN. rewrite Nat.add_comm. apply Nat.iter_add. Qed.

Lemma incrN_S (n : nat) (x : Z) : incrN (S n) x = incrN n (incr x).
Proof. apply Nat.iter_succ_r. Qed.

#[global] Arguments incrN : simpl never.

Lemma wrap64_wrap64_add (a b : Z) : wrap64 (wrap64 a + b) = wrap64 (a + b).
Proof.
  unfold wrap64. f_equal.
  replace ((a + 2 ^ 63) mod 2 ^ 64 - 2 ^ 63 + b + 2 ^ 63)
    with ((a + 2 ^ 63) mod 2 ^ 64 + b) by lia.
  rewrite Zplus_mod_idemp_l. f_equal. lia.
Qed.

(** Beyond the range of [int], a counter holds its count modulo 2^64. *)
Lemma incrN_wrap (n : nat) (x : Z) :
  MinInt64 <= x <= MaxInt64 -> incrN n x = wrap64 (x + Z.of_nat n).
Proof.
  revert x. induction n as [|n IH]; intros x Hx.
  - unfold incrN. simpl. rewrite Z.add_0_r. symmetry. apply wrap64_id, Hx.
  - rewrite incrN_S, IH by apply wrap64_range.
    unfold incr. rewrite wrap64_wrap64_add. f_equal. lia.
Qed.

(** ** The widths for which the channel of a cycle can be made *)

Lemma lor_below (a b n : Z) :
  0 <= a -> 0 <= b -> 0 < n -> Z.lor a b < 2 ^ n -> b < 2 ^ n.
Proof.
  intros Ha Hb Hn Hlor.
  destruct (Z.eq_dec b 0) as [->|Hb0].
  - apply Z.pow_pos_nonneg; lia.
  - destruct (Z.eq_dec (Z.lor a b) 0) as [Hz|Hnz].
    + apply Z.lor_eq_0_iff in Hz. lia.
    + assert (Hpos : 0 < Z.lor a b).
      { pose proof (proj2 (Z.lor_nonneg a b) (conj Ha Hb)). lia. }
      apply Z.log2_lt_pow2 in Hlor; [|exact Hpos].
      rewrite Z.log2_lor in Hlor by assumption.
      apply Z.log2_lt_pow2; lia.
Qed.

(** For a width that is an [int], [makechan] succeeds exactly from 0 to
    [runtime.maxWidth], which is 3909374676535. *)
Lemma makechan_spec (size : Z) :
  MinInt64 <= size <= MaxInt64 ->
  runtime.makechan size = true <-> 0 <= size <= runtime.maxWidth.
Proof.
  unfold MinInt64, MaxInt64. intros Hsize.
  unfold runtime.makechan, runtime.MulUintptr, runtime.uintptr,
    runtime.maxWidth, runtime.maxAlloc, runtime.hchanSize, runtime.elemSize,
    runtime.MaxUintptr.
  change (8 + 4 * 16) with 72.
  change ((2 ^ 48 - 96) / 72) with 3909374676535.
  change ((2 ^ 64 - 1) / 72) with 256204778801521550.
  change (2 ^ 48 - 96) with 281474976710560.
  change (2 ^ 64) with 18446744073709551616.
  change (2 ^ 63) with 9223372036854775808 in Hsize.
  destruct (Z.ltb_spec size 0) as [Hneg|Hpos].
  - split; [|lia].
    destruct ((Z.lor 72 (size mod 18446744073709551616) <? 2 ^ 32)
              || (72 =? 0))%bool;
      cbn [fst snd]; rewrite !orb_true_r; discriminate.
  - rewrite (Z.mod_small size) by lia.
    destruct (Z.ltb_spec (Z.lor 72 size) (2 ^ 32)) as [Hsmall|Hlarge].
    + apply lor_below in Hsmall; [|lia|lia|lia].
      change (2 ^ 32) with 4294967296 in Hsmall.
      cbn [orb]. rewrite Z.mod_small by lia.
      destruct (Z.ltb_spec 281474976710560 (72 * size)); [lia|].
      cbn. split; [lia | reflexivity].
    + change (72 =? 0) with false. cbn [orb].
      destruct (Z.ltb_spec 256204778801521550 size) as [Hover|Hfit].
      * cbn. split; [discriminate | lia].
      * rewrite Z.mod_small by lia.
        destruct (Z.ltb_spec 281474976710560 (72 * size)).
        -- cbn. split; [discriminate | lia].
        -- cbn. split; [lia | reflexivity].
Qed.

Lemma makechan_width (size : Z) :
  0 <= size <= runtime.maxWidth -> runtime.makechan size = true.
Proof.
  intros H. apply makechan_spec; [|exact H].
  unfold MinInt64, MaxInt64.
  assert (runtime.maxWidth = 3909374676535) by reflexivity. lia.
Qed.

Lemma makechan_too_wide (size : Z) :
  runtime.maxWidth < size <= MaxInt64 -> runtime.makechan size = false.
Proof.
  intros H. destruct (runtime.makechan size) eqn:Hm; [|reflexivity].
  apply makechan_spec in Hm; [lia|].
  assert (runtime.maxWidth = 3909374676535) by reflexivity.
  unfold MinInt64, MaxInt64 in *. lia.
Qed.

Lemma makechan_negative (size : Z) :
  size < 0 -> runtime.makechan size = false.
Proof.
  intros H. unfold runtime.makechan.
  destruct (runtime.MulUintptr runtime.elemSize (runtime.uintptr size))
    as [mem overflow].
  destruct (Z.ltb_spec size 0); [|lia].
  rewrite orb_true_r. reflexivity.
Qed.

(** The bound is the same for every size of the channel header from 65 to
    136 bytes, the size of the element being 72 bytes. *)
Lemma maxWidth_header (h : Z) :
  64 < h <= 136 ->
  (runtime.maxAlloc - h) / runtime.elemSize = runtime.maxWidth.
Proof.
  intros Hh. unfold runtime.maxAlloc, runtime.elemSize.
  change (8 + 4 * 16) with 72.
  change (2 ^ 48) with 281474976710656.
  assert (Hw : runtime.maxWidth = 3909374676535) by reflexivity.
  rewrite Hw. symmetry.
  apply Z.div_unique with (r := 136 - h); lia.
Qed.

Lemma maxWidth_value : runtime.maxWidth = 3909374676535.
Proof. reflexivity. Qed.

Lemma maxWidth_fits : runtime.maxWidth < MaxInt64.
Proof. rewrite maxWidth_value. unfold MaxInt64. lia. Qed.

#[global] Opaque runtime.maxWidth.

(** ** The scheduler's order is a permutation of the goroutines *)

Lemma interleave_Permutation {A : Type} (n : nat) (choices : list nat)
  (pending : list A) :
  n = length pending -> interleave n choices pending ≡ₚ pending.
Proof.
  revert choices pending. induction n as [|n IH]; intros choices pending Hn.
  - destruct pending; [reflexivity | discriminate].
  - simpl.
    assert (Hk : (hd 0%nat choices `mod` length pending < length pending)%nat)
      by (apply Nat.mod_upper_bound; lia).
    destruct (lookup_lt_is_Some_2 pending _ Hk) as [x Hx].
    rewrite Hx.
    etrans; [| symmetry; apply (delete_Permutation pending _ x Hx)].
    constructor. apply IH.
    rewrite length_delete by eauto. lia.
Qed.

Lemma arrival_Permutation {A : Type} (choices : list nat) (pending : list A) :
  arrival choices pending ≡ₚ pending.
Proof. apply interleave_Permutation. reflexivity. Qed.

Lemma arrival_length {A : Type} (choices : list nat) (pending : list A) :
  length (arrival choices pending) = length pending.
Proof. apply Permutation_length, arrival_Permutation. Qed.

(** Every order of the goroutines is the order of some scheduler. *)
Lemma interleave_complete {A : Type} (l pending : list A) :
  l ≡ₚ pending ->
  exists choices : list nat, interleave (length pending) choices pending = l.
Proof.
  revert pending. induction l as [|x l IH]; intros pending Hperm.
  - apply Permutation_nil_l in Hperm. subst pending. exists []. reflexivity.
  - assert (Hx : x ∈ pending).
    { rewrite <- Hperm. apply list_elem_of_here. }
    apply list_elem_of_lookup in Hx. destruct Hx as [k Hk].
    pose proof (lookup_lt_Some _ _ _ Hk) as Hlt.
    assert (Hrest : l ≡ₚ delete k pending).
    { apply (Permutation_cons_inv (a := x)).
      etrans; [exact Hperm | apply delete_Permutation, Hk]. }
    destruct (IH _ Hrest) as [choices Hch].
    exists (k :: choices).
    destruct pending as [|y pending]; [simpl in Hlt; lia|].
    cbn [interleave length hd tl].
    rewrite Nat.mod_small by exact Hlt.
    rewrite Hk. f_equal.
    rewrite <- Hch. f_equal.
    rewrite length_delete by eauto. simpl. lia.
Qed.

Lemma arrival_complete {A : Type} (l pending : list A) :
  l ≡ₚ pending -> exists choices : list nat, arrival choices pending = l.
Proof. apply interleave_complete. Qed.

(** ** The goroutines of a cycle: all values are in the channel when
    [wg.Wait()] returns, and no send ever blocks *)

Lemma NoDup_bounded_length (l : list Z) (n : Z) :
  0 <= n -> NoDup l -> (forall x, x ∈ l -> 0 <= x < n) ->
  Z.of_nat (length l) <= n.
Proof.
  intros Hn Hnd Hin.
  assert (Hsub : l ⊆+ seqZ 0 n).
  { apply NoDup_submseteq; [exact Hnd|].
    intros x Hx. apply elem_of_seqZ. specialize (Hin x Hx). lia. }
  apply submseteq_length in Hsub. rewrite length_seqZ in Hsub. lia.
Qed.

Lemma NoDup_full_Permutation (l : list Z) (n : Z) :
  0 <= n -> NoDup l -> (forall x, x ∈ l -> 0 <= x < n) ->
  n <= Z.of_nat (length l) -> l ≡ₚ seqZ 0 n.
Proof.
  intros Hn Hnd Hin Hlen.
  apply submseteq_length_Permutation.
  - apply NoDup_submseteq; [exact Hnd|].
    intros x Hx. apply elem_of_seqZ. specialize (Hin x Hx). lia.
  - rewrite length_seqZ. lia.
Qed.

Lemma fanoutInv_start (n : Z) : 0 <= n -> fanoutInv n fanoutStart.
Proof.
  intros Hn. unfold fanoutInv, fanoutStart. cbn [pc launched wg sent exited].
  split; [lia|]. split; [apply NoDup_nil_2|]. split; [apply NoDup_nil_2|].
  split; [intros id H; inversion H|]. split; [intros id H; inversion H|].
  split; [reflexivity|]. split; [intros H; contradiction | discriminate].
Qed.

Lemma fanoutInv_step (n : Z) (c c' : Fanout) :
  fanoutInv n c -> fanoutStep n c c' -> fanoutInv n c'.
Proof.
  intros (Hl & Hns & Hne & Hes & Hsl & Hwg & Hpc & Hcl) Hstep.
  destruct Hstep as [c Hp Hlt | c Hp Hge | c id Hid Hnot Hroom
                    | c id Hin Hnot | c Hp Hz];
    unfold fanoutInv; cbn [pc launched wg sent exited];
    refine (conj _ (conj _ (conj _ (conj _ (conj _ (conj _ (conj _ _))))))).
  (* wg.Add(1); go checkStatus *)
  - lia.
  - exact Hns.
  - exact Hne.
  - exact Hes.
  - intros x Hx. specialize (Hsl x Hx). lia.
  - lia.
  - intros H. contradiction.
  - discriminate.
  (* the loop ends *)
  - lia.
  - exact Hns.
  - exact Hne.
  - exact Hes.
  - exact Hsl.
  - exact Hwg.
  - intros _. lia.
  - discriminate.
  (* results <- result *)
  - lia.
  - apply NoDup_app. split; [exact Hns|]. split; [|apply NoDup_singleton].
    intros x Hx Hx'. apply list_elem_of_singleton in Hx'. subst x.
    contradiction.
  - exact Hne.
  - intros x Hx. apply elem_of_app. left. apply Hes, Hx.
  - intros x Hx. apply elem_of_app in Hx. destruct Hx as [Hx | Hx].
    + apply (Hsl _ Hx).
    + apply list_elem_of_singleton in Hx. subst x. exact Hid.
  - exact Hwg.
  - exact Hpc.
  - exact Hcl.
  (* wg.Done() *)
  - lia.
  - exact Hns.
  - apply NoDup_cons. split; assumption.
  - intros x Hx. apply elem_of_cons in Hx.
    destruct Hx as [-> | Hx]; [exact Hin | apply Hes, Hx].
  - exact Hsl.
  - simpl length. lia.
  - exact Hpc.
  - intros Hclosed. exfalso. specialize (Hcl Hclosed).
    assert (Hbound : Z.of_nat (length (id :: exited c)) <= launched c).
    { apply NoDup_bounded_length; [lia | |].
      - apply NoDup_cons. split; assumption.
      - intros x Hx. apply elem_of_cons in Hx.
        destruct Hx as [-> | Hx]; [apply Hsl, Hin | apply Hsl, Hes, Hx]. }
    simpl length in Hbound. lia.
  (* wg.Wait() returns *)
  - lia.
  - exact Hns.
  - exact Hne.
  - exact Hes.
  - exact Hsl.
  - exact Hwg.
  - intros _. apply Hpc. rewrite Hp. discriminate.
  - intros _. exact Hz.
Qed.

Lemma fanoutInv_reachable (n : Z) (c : Fanout) :
  0 <= n -> rtc (fanoutStep n) fanoutStart c -> fanoutInv n c.
Proof.
  intros Hn Hreach.
  apply (rtc_ind_r (fanoutInv n) fanoutStart) with (z := c) in Hreach.
  - exact Hreach.
  - apply fanoutInv_start, Hn.
  - intros y z _ Hstep Hy. exact (fanoutInv_step n y z Hy Hstep).
Qed.

(** When [wg.Wait()] has returned, every goroutine has sent: the channel
    holds exactly one value per goroutine, in an order that a scheduler
    of [arrival] describes. *)
Lemma fanout_closed_holds_all (n : Z) (c : Fanout) :
  0 <= n -> rtc (fanoutStep n) fanoutStart c -> pc c = Closed ->
  sent c ≡ₚ seqZ 0 n /\
  Z.of_nat (length (sent c)) = n /\
  exists choices : list nat, sent c = arrival choices (seqZ 0 n).
Proof.
  intros Hn Hreach Hclosed.
  destruct (fanoutInv_reachable n c Hn Hreach)
    as (Hl & Hns & Hne & Hes & Hsl & Hwg & Hpc & Hcl).
  specialize (Hcl Hclosed).
  assert (Hln : launched c = n) by (apply Hpc; rewrite Hclosed; discriminate).
  assert (Hex : Z.of_nat (length (exited c)) <= Z.of_nat (length (sent c))).
  { apply Nat2Z.inj_le, submseteq_length, NoDup_submseteq; assumption. }
  assert (Hperm : sent c ≡ₚ seqZ 0 n).
  { apply NoDup_full_Permutation; try assumption.
    - intros x Hx. specialize (Hsl x Hx). lia.
    - lia. }
  split; [exact Hperm|]. split.
  - rewrite (Permutation_length Hperm), length_seqZ. lia.
  - destruct (arrival_complete _ _ Hperm) as [choices Hch].
    exists choices. symmetry. exact Hch.
Qed.

(** Until then some goroutine can always move: a goroutine that has not
    sent finds room in the channel, and the main goroutine waits for
    nothing but the goroutines. *)
Lemma fanout_progress (n : Z) (c : Fanout) :
  0 <= n -> rtc (fanoutStep n) fanoutStart c -> pc c <> Closed ->
  exists c', fanoutStep n c c'.
Proof.
  intros Hn Hreach Hopen.
  destruct (fanoutInv_reachable n c Hn Hreach)
    as (Hl & Hns & Hne & Hes & Hsl & Hwg & Hpc & Hcl).
  destruct (pc c) eqn:Hp; [| |contradiction].
  - destruct (Z_lt_dec (launched c) n) as [Hlt | Hge].
    + eexists. apply step_go; assumption.
    + eexists. apply step_loop_exit; assumption.
  - destruct (Z.eq_dec (wg c) 0) as [Hz | Hnz].
    + eexists. apply step_wait_return; assumption.
    + assert (Hbound : Z.of_nat (length (exited c)) <= launched c).
      { apply NoDup_bounded_length; [lia | exact Hne |].
        intros x Hx. apply Hsl, Hes, Hx. }
      assert (Hsome : exists id, 0 <= id < launched c /\ id ∉ exited c).
      { destruct (decide (Forall (fun id => id ∈ exited c)
                            (seqZ 0 (launched c)))) as [Hall | Hnot].
        - exfalso.
          assert (Hsub : seqZ 0 (launched c) ⊆+ exited c).
          { apply NoDup_submseteq; [apply NoDup_seqZ|].
            intros x Hx. rewrite Forall_forall in Hall. apply Hall, Hx. }
          apply submseteq_length in Hsub. rewrite length_seqZ in Hsub. lia.
        - apply not_Forall_Exists in Hnot; [|intros x; apply _].
          apply Exists_exists in Hnot. destruct Hnot as (id & Hid & Hout).
          apply elem_of_seqZ in Hid. exists id. split; [lia | exact Hout]. }
      destruct Hsome as (id & Hid & Hout).
      destruct (decide (id ∈ sent c)) as [Hin | Hnin].
      * eexists. apply (step_done n c id); assumption.
      * eexists. apply (step_send n c id); try assumption.
        assert (Hb : Z.of_nat (length (id :: sent c)) <= launched c).
        { apply NoDup_bounded_length; [lia | |].
          - apply NoDup_cons. split; assumption.
          - intros x Hx. apply elem_of_cons in Hx.
            destruct Hx as [-> | Hx]; [exact Hid | apply Hsl, Hx]. }
        simpl length in Hb. lia.
Qed.

(** Conversely, the goroutines can send in any order: every order of
    [arrival] is the content of the channel after some execution. *)
Lemma fanout_reaches_launch (n : Z) (k : nat) :
  Z.of_nat k <= n ->
  rtc (fanoutStep n) fanoutStart
    (mkFanout Spawning (Z.of_nat k) (Z.of_nat k) [] []).
Proof.
  induction k as [|k IH]; intros Hk; [apply rtc_refl|].
  eapply rtc_r; [apply IH; lia|].
  replace (Z.of_nat (S k)) with (Z.of_nat k + 1) by lia.
  apply (step_go n (mkFanout Spawning (Z.of_nat k) (Z.of_nat k) [] []));
    cbn [pc launched]; [reflexivity | lia].
Qed.

Lemma fanout_reaches_sends (n : Z) (l : list Z) :
  0 <= n -> NoDup l -> (forall x, x ∈ l -> 0 <= x < n) ->
  rtc (fanoutStep n) fanoutStart (mkFanout Waiting n n l []).
Proof.
  intros Hn. induction l as [|x l IH] using rev_ind; intros Hnd Hin.
  - pose proof (fanout_reaches_launch n (Z.to_nat n)) as Hlaunch.
    rewrite Z2Nat.id in Hlaunch by exact Hn.
    eapply rtc_r; [apply Hlaunch; lia|].
    apply (step_loop_exit n (mkFanout Spawning n n [] []));
      cbn [pc launched]; [reflexivity | lia].
  - apply NoDup_app in Hnd. destruct Hnd as (Hnd & Hdisj & _).
    assert (Hx : x ∉ l).
    { intros Hx. apply (Hdisj x Hx), list_elem_of_here. }
    assert (Hlen : Z.of_nat (length (x :: l)) <= n).
    { apply NoDup_bounded_length; [exact Hn | |].
      - apply NoDup_cons. split; assumption.
      - intros y Hy. apply Hin. apply elem_of_cons in Hy.
        apply elem_of_app. destruct Hy as [-> | Hy];
          [right; apply list_elem_of_here | left; exact Hy]. }
    simpl length in Hlen.
    eapply rtc_r.
    + apply IH; [exact Hnd|].
      intros y Hy. apply Hin, elem_of_app. left. exact Hy.
    + apply (step_send n (mkFanout Waiting n n l []) x);
        cbn [launched sent]; [|exact Hx | lia].
      apply Hin, elem_of_app. right. apply list_elem_of_here.
Qed.

Lemma fanout_reaches_exits (n : Z) (l e : list Z) :
  0 <= n -> NoDup l -> (forall x, x ∈ l -> 0 <= x < n) ->
  NoDup e -> (forall x, x ∈ e -> x ∈ l) ->
  rtc (fanoutStep n) fanoutStart
    (mkFanout Waiting n (n - Z.of_nat (length e)) l e).
Proof.
  intros Hn Hnd Hin. induction e as [|x e IH]; intros Hne Hsub.
  - simpl length. replace (n - Z.of_nat 0) with n by lia.
    apply fanout_reaches_sends; assumption.
  - apply NoDup_cons in Hne. destruct Hne as [Hx Hne].
    eapply rtc_r.
    + apply IH; [exact Hne|].
      intros y Hy. apply Hsub, list_elem_of_further, Hy.
    + replace (n - Z.of_nat (length (x :: e)))
        with (n - Z.of_nat (length e) - 1) by (simpl length; lia).
      apply (step_done n
               (mkFanout Waiting n (n - Z.of_nat (length e)) l e) x);
        cbn [sent exited]; [|exact Hx].
      apply Hsub, list_elem_of_here.
Qed.

Lemma fanout_reaches_every_order (n : Z) (choices : list nat) :
  0 <= n ->
  exists c : Fanout,
    rtc (fanoutStep n) fanoutStart c /\ pc c = Closed /\
    sent c = arrival choices (seqZ 0 n).
Proof.
  intros Hn. set (l := arrival choices (seqZ 0 n)).
  pose proof (arrival_Permutation choices (seqZ 0 n)) as Hperm. fold l in Hperm.
  assert (Hnd : NoDup l) by (rewrite Hperm; apply NoDup_seqZ).
  assert (Hin : forall x, x ∈ l -> 0 <= x < n).
  { intros x Hx. rewrite Hperm in Hx. apply elem_of_seqZ in Hx. lia. }
  assert (Hlen : Z.of_nat (length l) = n).
  { rewrite (Permutation_length Hperm), length_seqZ. lia. }
  exists (mkFanout Closed n (n - Z.of_nat (length l)) l l).
  split; [|split; reflexivity].
  eapply rtc_r.
  - apply (fanout_reaches_exits n l l); try assumption. intros x Hx. exact Hx.
  - apply (step_wait_return n
             (mkFanout Waiting n (n - Z.of_nat (length l)) l l));
      cbn [pc wg]; [reflexivity | lia].
Qed.

(** ** The text of a duration is never empty *)

Lemma fmtInt_loop_length (fuel : nat) (buf : string) (v : Z) :
  (String.length buf <= String.length (time.fmtInt_loop fuel buf v))%nat.
Proof.
  revert buf v. induction fuel as [|fuel IH]; intros buf v; simpl; [lia|].
  destruct (0 <? v); [|lia].
  etrans; [|apply IH]. simpl. lia.
Qed.

Lemma fmtInt_length (buf : string) (v : Z) :
  (String.length buf <= String.length (time.fmtInt buf v))%nat.
Proof.
  unfold time.fmtInt. destruct (v =? 0); [simpl; lia|].
  apply fmtInt_loop_length.
Qed.

Lemma fmtFrac_loop_length (prec : nat) (buf : string) (v : Z) (print : bool) :
  (String.length buf
   <= String.length (fst (fst (time.fmtFrac_loop prec buf v print))))%nat.
Proof.
  revert buf v print. induction prec as [|prec IH]; intros buf v print;
    simpl; [lia|].
  etrans; [|apply IH].
  destruct (print || negb (v mod 10 =? 0)); simpl; lia.
Qed.

Lemma fmtFrac_length (buf : string) (v : Z) (prec : nat) :
  (String.length buf <= String.length (fst (time.fmtFrac buf v prec)))%nat.
Proof.
  unfold time.fmtFrac.
  pose proof (fmtFrac_loop_length prec buf v false) as H.
  destruct (time.fmtFrac_loop prec buf v false) as [[buf' v'] print].
  simpl in *. destruct print; simpl; lia.
Qed.

Lemma fmtInt_fmtFrac_length (buf : string) (v : Z) (prec : nat) :
  (String.length buf
   <= String.length
        (let '(buf', u) := time.fmtFrac buf v prec in time.fmtInt buf' u))%nat.
Proof.
  pose proof (fmtFrac_length buf v prec) as H.
  destruct (time.fmtFrac buf v prec) as [buf' u]. simpl in H.
  etrans; [exact H | apply fmtInt_length].
Qed.

Lemma formatUnsigned_length (u : Z) :
  (1 <= String.length (time.formatUnsigned u))%nat.
Proof.
  unfold time.formatUnsigned.
  destruct (u <? time.Second).
  - destruct (u =? 0); [simpl; lia|].
    destruct (u <? time.Microsecond);
      [|destruct (u <? time.Millisecond)];
      (etrans; [|apply fmtInt_fmtFrac_length]); simpl; lia.
  - pose proof (fmtFrac_length "s" u 9) as H.
    destruct (time.fmtFrac "s" u 9) as [buf u1]. simpl in H.
    assert (H1 : (1 <= String.length (time.fmtInt buf (u1 mod 60)))%nat).
    { etrans; [|apply fmtInt_length]. exact H. }
    destruct (0 <? u1 / 60); [|exact H1].
    assert (H2 : (1 <= String.length
                    (time.fmtInt (String "m" (time.fmtInt buf (u1 mod 60)))
                       (u1 / 60 mod 60)))%nat).
    { etrans; [|apply fmtInt_length]. simpl. lia. }
    destruct (0 <? u1 / 60 / 60); [|exact H2].
    etrans; [|apply fmtInt_length]. simpl. lia.
Qed.

Lemma Duration_String_length (d : Z) :
  (1 <= String.length (time.Duration_String d))%nat.
Proof.
  unfold time.Duration_String. cbv zeta.
  destruct (d <? 0); [simpl; lia | apply formatUnsigned_length].
Qed.

Lemma Duration_String_nonempty (d : Z) :
  time.Duration_String d <> EmptyString.
Proof.
  intros H. pose proof (Duration_String_length d) as Hlen.
  rewrite H in Hlen. simpl in Hlen. lia.
Qed.

(** ** Parsing inverts printing

    On the text that [Duration_String] prints for an [int64], the parser
    [time.ParseDuration] returns the duration and no error. *)

Lemma byte_digit (d : Z) : 0 <= d <= 9 -> fmt.byte (time.digit d) = d + 48.
Proof.
  intros H. unfold fmt.byte, time.digit.
  rewrite N_ascii_embedding; lia.
Qed.

Lemma isDigit_digit (d : Z) : 0 <= d <= 9 -> fmt.isDigit (time.digit d) = true.
Proof.
  intros H. unfold fmt.isDigit. rewrite byte_digit by exact H.
  apply andb_true_intro. split; apply Z.leb_le; lia.
Qed.

Lemma leadingInt_stop (buf : string) (v : Z) :
  startsWithDigit buf = false -> time.leadingInt buf v = Some (v, buf).
Proof.
  destruct buf as [|c buf]; [reflexivity|]. simpl. intros ->. reflexivity.
Qed.

Lemma leadingInt_cons_digit (d : Z) (buf : string) (x : Z) :
  0 <= d <= 9 -> 0 <= x -> x * 10 + d <= 2 ^ 63 ->
  time.leadingInt (String (time.digit d) buf) x = time.leadingInt buf (x * 10 + d).
Proof.
  intros Hd Hx Hb. cbn [time.leadingInt].
  rewrite isDigit_digit, byte_digit by exact Hd.
  destruct (Z.ltb_spec (2 ^ 63 / 10) x) as [Hlt|_].
  - exfalso. assert (2 ^ 63 / 10 * 10 + 10 > 2 ^ 63) by (vm_compute; reflexivity). lia.
  - replace (x * 10 + (d + 48 - 48)) with (x * 10 + d) by lia.
    destruct (Z.ltb_spec (2 ^ 63) (x * 10 + d)); [lia | reflexivity].
Qed.

Lemma leadingInt_fmtInt_loop (fuel : nat) (buf : string) (v : Z) :
  0 <= v <= 2 ^ 63 -> v < 10 ^ Z.of_nat fuel ->
  time.leadingInt (time.fmtInt_loop fuel buf v) 0 = time.leadingInt buf v.
Proof.
  revert buf v. induction fuel as [|fuel IH]; intros buf v Hv Hfuel.
  - simpl in Hfuel. assert (v = 0) by lia. subst v. reflexivity.
  - cbn [time.fmtInt_loop]. destruct (Z.ltb_spec 0 v) as [Hpos|Hz].
    + pose proof (Z.mod_pos_bound v 10 ltac:(lia)) as Hm.
      pose proof (Z.div_mod v 10 ltac:(lia)) as Hdm.
      rewrite IH.
      * rewrite leadingInt_cons_digit by lia. f_equal. lia.
      * split; [apply Z.div_pos; lia|]. lia.
      * rewrite Nat2Z.inj_succ, Z.pow_succ_r in Hfuel by lia.
        apply Z.div_lt_upper_bound; lia.
    + assert (v = 0) by lia. subst v. reflexivity.
Qed.

Lemma leadingInt_fmtInt (buf : string) (v : Z) :
  0 <= v <= 2 ^ 63 ->
  time.leadingInt (time.fmtInt buf v) 0 = time.leadingInt buf v.
Proof.
  intros Hv. unfold time.fmtInt. destruct (Z.eqb_spec v 0) as [->|Hne].
  - change "0"%char with (time.digit 0).
    rewrite leadingInt_cons_digit by lia. reflexivity.
  - apply leadingInt_fmtInt_loop; [exact Hv|].
    assert (2 ^ 63 < 10 ^ Z.of_nat 20) by (vm_compute; reflexivity). lia.
Qed.

Lemma fmtInt_loop_starts (fuel : nat) (buf : string) (v : Z) :
  startsWithDigit buf = true \/ (0 < v /\ (0 < fuel)%nat) ->
  startsWithDigit (time.fmtInt_loop fuel buf v) = true.
Proof.
  revert buf v. induction fuel as [|fuel IH]; intros buf v H.
  - destruct H as [H|[_ H]]; [exact H | lia].
  - cbn [time.fmtInt_loop]. destruct (Z.ltb_spec 0 v) as [Hpos|Hz].
    + apply IH. left. simpl. apply isDigit_digit.
      pose proof (Z.mod_pos_bound v 10 ltac:(lia)). lia.
    + destruct H as [H|[H _]]; [exact H | lia].
Qed.

Lemma fmtInt_starts (buf : string) (v : Z) :
  0 <= v -> startsWithDigit (time.fmtInt buf v) = true.
Proof.
  intros Hv. unfold time.fmtInt. destruct (Z.eqb_spec v 0) as [->|Hne].
  - reflexivity.
  - apply fmtInt_loop_starts. right. lia.
Qed.

Lemma fmtInt_loop_longer (fuel : nat) (buf : string) (v : Z) :
  0 < v -> (0 < fuel)%nat ->
  (String.length buf < String.length (time.fmtInt_loop fuel buf v))%nat.
Proof.
  intros Hv Hf. destruct fuel as [|fuel]; [lia|]. cbn [time.fmtInt_loop].
  destruct (Z.ltb_spec 0 v); [|lia].
  eapply Nat.lt_le_trans; [|apply fmtInt_loop_length]. simpl. lia.
Qed.

Lemma fmtInt_longer (buf : string) (v : Z) :
  0 <= v -> (String.length buf < String.length (time.fmtInt buf v))%nat.
Proof.
  intros Hv. unfold time.fmtInt. destruct (Z.eqb_spec v 0) as [->|Hne].
  - simpl. lia.
  - apply fmtInt_loop_longer; lia.
Qed.

(** The digits of the fraction. *)

Lemma leadingFraction_stop (buf : string) (x scale : Z) :
  startsWithDigit buf = false ->
  time.leadingFraction buf x scale false = (x, scale, buf).
Proof.
  destruct buf as [|c buf]; [reflexivity|]. simpl. intros ->. reflexivity.
Qed.

Lemma leadingFraction_cons_digit (d : Z) (buf : string) (x scale : Z) :
  0 <= d <= 9 -> 0 <= x -> x * 10 + d <= 10 ^ 9 ->
  time.leadingFraction (String (time.digit d) buf) x scale false =
  time.leadingFraction buf (x * 10 + d) (scale * 10) false.
Proof.
  intros Hd Hx Hb. cbn [time.leadingFraction].
  rewrite isDigit_digit, byte_digit by exact Hd.
  assert (H9 : 10 ^ 9 < (2 ^ 63 - 1) / 10) by (vm_compute; reflexivity).
  assert (H63 : 10 ^ 9 < 2 ^ 63) by (vm_compute; reflexivity).
  destruct (Z.ltb_spec ((2 ^ 63 - 1) / 10) x); [lia|].
  replace (x * 10 + (d + 48 - 48)) with (x * 10 + d) by lia.
  destruct (Z.ltb_spec (2 ^ 63) (x * 10 + d)); [lia | reflexivity].
Qed.

Lemma mod_pow_succ (v : Z) (p : nat) :
  0 <= v ->
  v mod 10 ^ Z.of_nat (S p) = (v / 10) mod 10 ^ Z.of_nat p * 10 + v mod 10.
Proof.
  intros Hv. rewrite Nat2Z.inj_succ, Z.pow_succ_r by lia.
  rewrite Z.rem_mul_r by (try apply Z.pow_nonzero; lia). lia.
Qed.

Lemma div_pow_succ (v : Z) (p : nat) :
  0 <= v -> v / 10 ^ Z.of_nat (S p) = v / 10 / 10 ^ Z.of_nat p.
Proof.
  intros Hv. rewrite Nat2Z.inj_succ, Z.pow_succ_r by lia.
  rewrite Z.div_div by (try apply Z.pow_pos_nonneg; lia). reflexivity.
Qed.

(** Once printing has started, all digits are printed. *)
Lemma fmtFrac_loop_printing (p : nat) (buf : string) (v : Z) :
  0 <= v -> (p <= 8)%nat ->
  exists buf',
    time.fmtFrac_loop p buf v true = (buf', v / 10 ^ Z.of_nat p, true) /\
    (String.length buf <= String.length buf')%nat /\
    (startsWithDigit buf = true -> startsWithDigit buf' = true) /\
    time.leadingFraction buf' 0 1 false =
    time.leadingFraction buf (v mod 10 ^ Z.of_nat p) (10 ^ Z.of_nat p) false.
Proof.
  revert buf v. induction p as [|p IH]; intros buf v Hv Hp.
  - exists buf. simpl. rewrite Z.div_1_r, Z.mod_1_r.
    repeat split; [lia | tauto].
  - cbn [time.fmtFrac_loop orb].
    pose proof (Z.mod_pos_bound v 10 ltac:(lia)) as Hm.
    destruct (IH (String (time.digit (v mod 10)) buf) (v / 10))
      as (buf' & Hloop & Hlen & Hst & Hlead);
      [apply Z.div_pos; lia | lia |].
    exists buf'. rewrite Hloop, div_pow_succ by exact Hv.
    split; [reflexivity|]. split; [simpl in Hlen; lia|].
    split; [intros _; apply Hst; simpl; apply isDigit_digit; lia|].
    rewrite Hlead.
    pose proof (Z.mod_pos_bound (v / 10) (10 ^ Z.of_nat p)
                  ltac:(apply Z.pow_pos_nonneg; lia)) as Hmp.
    assert (Hpow : 10 ^ Z.of_nat p <= 10 ^ 8)
      by (apply Z.pow_le_mono_r; lia).
    rewrite leadingFraction_cons_digit; [|lia|lia|].
    + rewrite mod_pow_succ by exact Hv.
      rewrite Nat2Z.inj_succ, Z.pow_succ_r by lia.
      f_equal. lia.
    + assert (10 ^ 8 * 10 = 10 ^ 9) by reflexivity. lia.
Qed.

(** The whole loop, from the state in which nothing has been printed. *)
Lemma fmtFrac_loop_spec (p : nat) (buf : string) (v : Z) :
  0 <= v -> (p <= 9)%nat -> startsWithDigit buf = false ->
  exists buf' print,
    time.fmtFrac_loop p buf v false = (buf', v / 10 ^ Z.of_nat p, print) /\
    (v mod 10 ^ Z.of_nat p = 0 -> buf' = buf /\ print = false) /\
    (v mod 10 ^ Z.of_nat p <> 0 ->
     print = true /\
     (String.length buf < String.length buf')%nat /\
     exists f scale,
       time.leadingFraction buf' 0 1 false = (f, scale, buf) /\
       0 < f /\ 0 < scale /\
       f * 10 ^ Z.of_nat p = v mod 10 ^ Z.of_nat p * scale).
Proof.
  revert v. induction p as [|p IH]; intros v Hv Hp Hbuf.
  - exists buf, false. simpl. rewrite Z.div_1_r, Z.mod_1_r.
    split; [reflexivity|]. split; [tauto | intros H; contradiction].
  - cbn [time.fmtFrac_loop orb].
    pose proof (Z.mod_pos_bound v 10 ltac:(lia)) as Hm.
    pose proof (mod_pow_succ v p Hv) as Hmod.
    pose proof (Z.mod_pos_bound (v / 10) (10 ^ Z.of_nat p)
                  ltac:(apply Z.pow_pos_nonneg; lia)) as Hmp.
    destruct (Z.eqb_spec (v mod 10) 0) as [Hz|Hnz]; cbn [negb].
    + destruct (IH (v / 10)) as (buf' & print & Hloop & Hzero & Hnonzero);
        [apply Z.div_pos; lia | lia | exact Hbuf |].
      exists buf', print. rewrite Hloop, div_pow_succ by exact Hv.
      split; [reflexivity|]. split.
      * intros H. apply Hzero. lia.
      * intros H. destruct Hnonzero as (Hpr & Hlen & f & scale & Hlead & Hf & Hs & Heq);
          [lia|].
        split; [exact Hpr|]. split; [exact Hlen|].
        exists f, scale. split; [exact Hlead|]. split; [exact Hf|].
        split; [exact Hs|].
        rewrite Hmod, Nat2Z.inj_succ, Z.pow_succ_r by lia. nia.
    + destruct (fmtFrac_loop_printing p (String (time.digit (v mod 10)) buf)
                  (v / 10)) as (buf' & Hloop & Hlen & _ & Hlead);
        [apply Z.div_pos; lia | lia |].
      exists buf', true. rewrite Hloop, div_pow_succ by exact Hv.
      split; [reflexivity|]. split; [intros H; lia|].
      intros _. split; [reflexivity|]. split; [simpl in Hlen; lia|].
      exists (v mod 10 ^ Z.of_nat (S p)), (10 ^ Z.of_nat (S p)).
      assert (Hpow : 10 ^ Z.of_nat p <= 10 ^ 8)
        by (apply Z.pow_le_mono_r; lia).
      assert (H89 : 10 ^ 8 * 10 = 10 ^ 9) by reflexivity.
      split.
      * rewrite Hlead, leadingFraction_cons_digit by lia.
        rewrite leadingFraction_stop by exact Hbuf.
        rewrite Hmod, Nat2Z.inj_succ, Z.pow_succ_r by lia.
        do 2 f_equal. lia.
      * split; [lia|]. split; [apply Z.pow_pos_nonneg; lia | reflexivity].
Qed.

(** One round of the parsing loop. *)

Lemma parse_round_int (fuel : nat) (t u rest : string) (U vint d : Z) :
  startsWithDigit t = false -> startsWithPoint t = false ->
  time.unitSpan t = (u, rest) -> time.unitMap u = Some U -> 0 < U ->
  0 <= vint -> vint <= 2 ^ 63 / U -> 0 <= d -> d + vint * U <= 2 ^ 63 ->
  time.parseLoop (S fuel) (time.fmtInt t vint) d =
  time.parseLoop fuel rest (d + vint * U).
Proof.
  intros Hnd Hnp Hspan Hmap HU Hv HvU Hd Hsum.
  assert (Hv63 : vint <= 2 ^ 63).
  { etrans; [exact HvU|]. apply Z.div_le_upper_bound; nia. }
  pose proof (fmtInt_starts t vint Hv) as Hst.
  pose proof (fmtInt_longer t vint Hv) as Hlen.
  pose proof (leadingInt_fmtInt t vint ltac:(lia)) as Hlead.
  rewrite (leadingInt_stop t vint Hnd) in Hlead.
  destruct (time.fmtInt t vint) as [|c s'] eqn:Hs; [discriminate|].
  cbn [time.parseLoop]. cbn [startsWithDigit] in Hst.
  rewrite Hst, orb_true_r. cbn [negb]. rewrite Hlead.
  destruct (Nat.eqb_spec (String.length (String c s')) (String.length t));
    [lia|]. cbn [negb].
  assert (Htail : match t with
                  | String c1 s1' =>
                      if time.isPoint c1
                      then let '(f, scale, r) := time.leadingFraction s1' 0 1 false in
                           (f, scale, r, negb (String.length s1' =? String.length r)%nat)
                      else (0, 1, t, false)
                  | EmptyString => (0, 1, t, false)
                  end = (0, 1, t, false)).
  { destruct t as [|c1 s1']; [reflexivity|]. cbn [startsWithPoint] in Hnp.
    rewrite Hnp. reflexivity. }
  rewrite Htail. cbn [andb negb]. rewrite Hspan, Hmap.
  destruct (Z.ltb_spec (2 ^ 63 / U) vint); [lia|].
  cbn [Z.ltb Z.compare andb].
  change (0 <? 0) with false. cbn [andb].
  rewrite Z.mod_small by (assert (2 ^ 63 < 2 ^ 64) by reflexivity; nia).
  destruct (Z.ltb_spec (2 ^ 63) (d + vint * U)); [lia | reflexivity].
Qed.

Lemma parse_round_frac (fuel : nat) (t u rest buf' : string)
  (U vint d f scale phi : Z) :
  startsWithDigit t = false ->
  time.unitSpan t = (u, rest) -> time.unitMap u = Some U -> 0 < U ->
  time.leadingFraction buf' 0 1 false = (f, scale, t) ->
  (String.length t < String.length buf')%nat ->
  0 < f -> 0 < scale -> f * U = phi * scale -> 0 <= phi ->
  0 <= vint -> vint <= 2 ^ 63 / U -> 0 <= d ->
  d + vint * U + phi <= 2 ^ 63 ->
  time.parseLoop (S fuel) (time.fmtInt (String "." buf') vint) d =
  time.parseLoop fuel rest (d + vint * U + phi).
Proof.
  intros Hnd Hspan Hmap HU Hfrac Hlenf Hf Hs Heq Hphi Hv HvU Hd Hsum.
  assert (Hv63 : vint <= 2 ^ 63).
  { etrans; [exact HvU|]. apply Z.div_le_upper_bound; nia. }
  pose proof (fmtInt_starts (String "." buf') vint Hv) as Hst.
  pose proof (fmtInt_longer (String "." buf') vint Hv) as Hlen.
  pose proof (leadingInt_fmtInt (String "." buf') vint ltac:(lia)) as Hlead.
  rewrite (leadingInt_stop (String "." buf') vint eq_refl) in Hlead.
  destruct (time.fmtInt (String "." buf') vint) as [|c s'] eqn:Hfi;
    [discriminate|].
  cbn [time.parseLoop]. cbn [startsWithDigit] in Hst.
  rewrite Hst, orb_true_r. cbn [negb]. rewrite Hlead.
  destruct (Nat.eqb_spec (String.length (String c s'))
              (String.length (String "." buf'))); [lia|]. cbn [negb].
  change (time.isPoint ".") with true. cbn iota. rewrite Hfrac.
  destruct (Nat.eqb_spec (String.length buf') (String.length t)); [lia|].
  cbn [andb negb]. rewrite Hspan, Hmap.
  destruct (Z.ltb_spec (2 ^ 63 / U) vint); [lia|].
  destruct (Z.ltb_spec 0 f); [|lia].
  rewrite Heq, Z.div_mul by lia.
  destruct (Z.ltb_spec (2 ^ 63) (vint * U + phi)); [lia|]. cbn [andb].
  rewrite Z.mod_small by (assert (2 ^ 63 < 2 ^ 64) by reflexivity; nia).
  replace (d + (vint * U + phi)) with (d + vint * U + phi) by lia.
  destruct (Z.ltb_spec (2 ^ 63) (d + vint * U + phi)); [lia | reflexivity].
Qed.

(** The last component: integer part, optional fraction, unit. *)

Lemma parseLoop_empty (fuel : nat) (d : Z) :
  time.parseLoop fuel EmptyString d = Some d.
Proof. destruct fuel; reflexivity. Qed.

Lemma parse_last (fuel : nat) (t : string) (p : nat) (w vint d : Z) :
  startsWithDigit t = false -> startsWithPoint t = false ->
  time.unitSpan t = (t, EmptyString) ->
  time.unitMap t = Some (10 ^ Z.of_nat p) -> (p <= 9)%nat ->
  0 <= w -> 0 <= vint -> vint <= 2 ^ 63 / 10 ^ Z.of_nat p -> 0 <= d ->
  d + vint * 10 ^ Z.of_nat p + w mod 10 ^ Z.of_nat p <= 2 ^ 63 ->
  time.parseLoop (S fuel) (time.fmtInt (fst (time.fmtFrac t w p)) vint) d =
  Some (d + vint * 10 ^ Z.of_nat p + w mod 10 ^ Z.of_nat p).
Proof.
  intros Hnd Hnp Hspan Hmap Hp Hw Hv HvU Hd Hsum.
  assert (HU : 0 < 10 ^ Z.of_nat p) by (apply Z.pow_pos_nonneg; lia).
  pose proof (Z.mod_pos_bound w _ HU) as Hphi.
  unfold time.fmtFrac.
  destruct (fmtFrac_loop_spec p t w Hw Hp Hnd)
    as (buf' & print & Hloop & Hzero & Hnonzero).
  rewrite Hloop.
  destruct (Z.eq_dec (w mod 10 ^ Z.of_nat p) 0) as [Hz|Hnz].
  - destruct (Hzero Hz) as [-> ->]. cbn [fst].
    rewrite (parse_round_int fuel t t EmptyString (10 ^ Z.of_nat p))
      by (try assumption; lia).
    rewrite parseLoop_empty. f_equal. lia.
  - destruct (Hnonzero Hnz) as (-> & Hlen & f & scale & Hlead & Hf & Hs & Heq).
    cbn [fst].
    rewrite (parse_round_frac fuel t t EmptyString buf' (10 ^ Z.of_nat p)
               vint d f scale (w mod 10 ^ Z.of_nat p))
      by (try assumption; lia).
    apply parseLoop_empty.
Qed.

Lemma fmtFrac_snd (t : string) (w : Z) (p : nat) :
  0 <= w -> (p <= 9)%nat -> startsWithDigit t = false ->
  snd (time.fmtFrac t w p) = w / 10 ^ Z.of_nat p.
Proof.
  intros Hw Hp Hnd. unfold time.fmtFrac.
  destruct (fmtFrac_loop_spec p t w Hw Hp Hnd) as (buf' & print & Hloop & _).
  rewrite Hloop. reflexivity.
Qed.

Lemma pair_fst_snd {A B C : Type} (x : A * B) (k : A -> B -> C) :
  (let '(a, b) := x in k a b) = k (fst x) (snd x).
Proof. destruct x. reflexivity. Qed.

Lemma parse_subsecond (fuel : nat) (t : string) (p : nat) (u : Z) :
  startsWithDigit t = false -> startsWithPoint t = false ->
  time.unitSpan t = (t, EmptyString) ->
  time.unitMap t = Some (10 ^ Z.of_nat p) -> (p <= 9)%nat ->
  0 <= u <= 2 ^ 63 ->
  time.parseLoop (S fuel)
    (let '(buf, u') := time.fmtFrac t u p in time.fmtInt buf u') 0 = Some u.
Proof.
  intros Hnd Hnp Hspan Hmap Hp Hu.
  assert (HU : 0 < 10 ^ Z.of_nat p) by (apply Z.pow_pos_nonneg; lia).
  rewrite pair_fst_snd, fmtFrac_snd by (try assumption; lia).
  pose proof (Z.div_mod u (10 ^ Z.of_nat p) ltac:(lia)) as Hdm.
  pose proof (Z.mod_pos_bound u _ HU) as Hm.
  rewrite parse_last; try assumption; try lia.
  - f_equal. lia.
  - apply Z.div_pos; lia.
  - apply Z.div_le_mono; lia.
Qed.

Lemma unitSpan_letter (c : ascii) (rest : string) :
  time.isPoint c = false -> fmt.isDigit c = false ->
  startsWithDigit rest = true ->
  time.unitSpan (String c rest) = (String c EmptyString, rest).
Proof.
  intros Hp Hd Hrest. cbn [time.unitSpan]. rewrite Hp, Hd. cbn [orb].
  destruct rest as [|c' rest]; [discriminate|].
  cbn [startsWithDigit] in Hrest. cbn [time.unitSpan].
  rewrite Hrest, orb_true_r. reflexivity.
Qed.

Lemma parse_seconds (fuel : nat) (u d : Z) :
  0 <= u -> 0 <= d ->
  d + (u / 10 ^ 9 mod 60) * 10 ^ 9 + u mod 10 ^ 9 <= 2 ^ 63 ->
  time.parseLoop (S fuel)
    (time.fmtInt (fst (time.fmtFrac "s" u 9)) (u / 10 ^ 9 mod 60)) d =
  Some (d + (u / 10 ^ 9 mod 60) * 10 ^ 9 + u mod 10 ^ 9).
Proof.
  intros Hu Hd Hsum.
  pose proof (Z.mod_pos_bound (u / 10 ^ 9) 60 ltac:(lia)) as Hm.
  apply (parse_last fuel "s" 9 u (u / 10 ^ 9 mod 60) d);
    try reflexivity; try lia.
  assert (60 <= 2 ^ 63 / 10 ^ Z.of_nat 9) by (vm_compute; discriminate).
  lia.
Qed.

Lemma secText_facts (u : Z) :
  0 <= u ->
  startsWithDigit (time.fmtInt (fst (time.fmtFrac "s" u 9)) (u / 10 ^ 9 mod 60))
  = true /\
  (2 <= String.length
          (time.fmtInt (fst (time.fmtFrac "s" u 9)) (u / 10 ^ 9 mod 60)))%nat.
Proof.
  intros Hu.
  pose proof (Z.mod_pos_bound (u / 10 ^ 9) 60 ltac:(lia)) as Hm.
  split; [apply fmtInt_starts; lia|].
  pose proof (fmtInt_longer (fst (time.fmtFrac "s" u 9)) (u / 10 ^ 9 mod 60)
                ltac:(lia)) as H1.
  pose proof (fmtFrac_length "s" u 9) as H2. simpl String.length in H2 at 1.
  lia.
Qed.

Lemma parse_formatUnsigned (u : Z) (fuel : nat) :
  0 <= u <= 2 ^ 63 -> (String.length (time.formatUnsigned u) <= fuel)%nat ->
  time.parseLoop fuel (time.formatUnsigned u) 0 = Some u.
Proof.
  intros Hu. unfold time.formatUnsigned.
  destruct (Z.ltb_spec u time.Second) as [Hsec|Hsec].
  - destruct (Z.eqb_spec u 0) as [->|Hnz].
    { intros Hfuel. simpl in Hfuel. destruct fuel as [|fuel]; [lia|].
      change "0s"%string with (time.fmtInt "s" 0).
      rewrite (parse_round_int fuel "s" "s" EmptyString (10 ^ 9));
        try reflexivity; try lia.
      - apply parseLoop_empty.
      - vm_compute. discriminate. }
    destruct (Z.ltb_spec u time.Microsecond) as [Hus|Hus];
      [|destruct (Z.ltb_spec u time.Millisecond) as [Hms|Hms]];
      intros Hfuel;
      (destruct fuel as [|fuel];
       [pose proof (fmtInt_fmtFrac_length) as Hl; exfalso|]).
    + specialize (Hl "ns"%string u 0%nat). simpl String.length in Hl at 1. lia.
    + apply (parse_subsecond fuel "ns" 0 u); try reflexivity; lia.
    + specialize (Hl (time.micro ++ "s")%string u 3%nat).
      simpl String.length in Hl at 1. lia.
    + apply (parse_subsecond fuel (time.micro ++ "s") 3 u);
        try reflexivity; lia.
    + specialize (Hl "ms"%string u 6%nat). simpl String.length in Hl at 1. lia.
    + apply (parse_subsecond fuel "ms" 6 u); try reflexivity; lia.
  - change time.Second with (10 ^ 9) in Hsec.
    rewrite pair_fst_snd, fmtFrac_snd by (try reflexivity; lia).
    change (10 ^ Z.of_nat 9) with (10 ^ 9).
    set (u1 := u / 10 ^ 9).
    pose proof (Z.div_mod u (10 ^ 9) ltac:(lia)) as Hdm. fold u1 in Hdm.
    pose proof (Z.mod_pos_bound u (10 ^ 9) ltac:(lia)) as Hm9.
    assert (Hu1 : 1 <= u1) by (apply Z.div_le_lower_bound; lia).
    pose proof (Z.div_mod u1 60 ltac:(lia)) as Hdm1.
    pose proof (Z.mod_pos_bound u1 60 ltac:(lia)) as Hm1.
    destruct (secText_facts u ltac:(lia)) as [Hst Hlen]. fold u1 in Hst, Hlen.
    set (secText := time.fmtInt (fst (time.fmtFrac "s" u 9)) (u1 mod 60)) in *.
    cbv zeta.
    destruct (Z.ltb_spec 0 (u1 / 60)) as [Hmin|Hmin].
    + set (u2 := u1 / 60) in *.
      pose proof (Z.div_mod u2 60 ltac:(lia)) as Hdm2.
      pose proof (Z.mod_pos_bound u2 60 ltac:(lia)) as Hm2.
      pose proof (fmtInt_longer (String "m" secText) (u2 mod 60) ltac:(lia))
        as Hlen2. simpl String.length in Hlen2 at 1.
      set (minText := time.fmtInt (String "m" secText) (u2 mod 60)) in *.
      assert (Hspan_m : time.unitSpan (String "m" secText)
                        = ("m"%string, secText))
        by (apply unitSpan_letter; [reflexivity | reflexivity | exact Hst]).
      assert (HMin : time.Minute = 60 * 10 ^ 9) by reflexivity.
      assert (HHour : time.Hour = 3600 * 10 ^ 9) by reflexivity.
      assert (H63m : 60 <= 2 ^ 63 / time.Minute) by (vm_compute; discriminate).
      destruct (Z.ltb_spec 0 (u2 / 60)) as [Hhr|Hhr].
      * set (u3 := u2 / 60) in *.
        pose proof (fmtInt_longer (String "h" minText) u3 ltac:(lia))
          as Hlen3. simpl String.length in Hlen3 at 1.
        intros Hfuel.
        destruct fuel as [|[|[|fuel]]]; try lia.
        assert (Hst_m : startsWithDigit minText = true)
          by (apply fmtInt_starts; lia).
        assert (Hspan_h : time.unitSpan (String "h" minText)
                          = ("h"%string, minText))
          by (apply unitSpan_letter; [reflexivity | reflexivity | exact Hst_m]).
        rewrite (parse_round_int _ (String "h" minText) "h" minText time.Hour);
          try reflexivity; try assumption; try lia.
        -- unfold minText.
           rewrite (parse_round_int _ (String "m" secText) "m" secText
                      time.Minute);
             try reflexivity; try assumption; try lia.
           unfold secText, u1.
           rewrite parse_seconds; try lia.
           ++ f_equal. fold u1. lia.
           ++ fold u1. lia.
        -- rewrite HHour. apply Z.div_le_lower_bound; [lia|]. nia.
      * assert (Hu20 : u2 / 60 = 0) by (pose proof (Z.div_pos u2 60); lia).
        intros Hfuel.
        destruct fuel as [|[|fuel]]; try lia.
        unfold minText.
        rewrite (parse_round_int _ (String "m" secText) "m" secText
                   time.Minute);
          try reflexivity; try assumption; try lia.
        unfold secText, u1.
        rewrite parse_seconds; try lia.
        -- f_equal. fold u1. lia.
        -- fold u1. lia.
    + assert (Hu10 : u1 / 60 = 0) by (pose proof (Z.div_pos u1 60); lia).
      intros Hfuel. destruct fuel as [|fuel]; [lia|].
      unfold secText, u1. rewrite parse_seconds; try lia.
      * f_equal. fold u1. lia.
      * fold u1. lia.
Qed.

Lemma formatUnsigned_starts (u : Z) : 0 <= u -> startsWithDigit (time.formatUnsigned u) = true.
Proof.
  intros Hu. unfold time.formatUnsigned.
  destruct (u <? time.Second).
  - destruct (u =? 0); [reflexivity|].
    destruct (u <? time.Microsecond); [|destruct (u <? time.Millisecond)];
      rewrite pair_fst_snd, fmtFrac_snd by (try reflexivity; lia);
      apply fmtInt_starts, Z.div_pos; try lia;
      apply Z.pow_pos_nonneg; lia.
  - rewrite pair_fst_snd, fmtFrac_snd by (try reflexivity; lia).
    cbv zeta.
    pose proof (Z.div_pos u (10 ^ Z.of_nat 9) Hu ltac:(lia)) as H1.
    pose proof (Z.mod_pos_bound (u / 10 ^ Z.of_nat 9) 60 ltac:(lia)) as Hm1.
    pose proof (Z.div_pos (u / 10 ^ Z.of_nat 9) 60 H1 ltac:(lia)) as H2.
    pose proof (Z.mod_pos_bound (u / 10 ^ Z.of_nat 9 / 60) 60 ltac:(lia)) as Hm2.
    destruct (0 <? u / 10 ^ Z.of_nat 9 / 60); [|apply fmtInt_starts; lia].
    destruct (0 <? u / 10 ^ Z.of_nat 9 / 60 / 60); apply fmtInt_starts.
    + apply Z.div_pos; lia.
    + lia.
Qed.

Lemma formatUnsigned_two_bytes (u : Z) : 0 <= u -> (2 <= String.length (time.formatUnsigned u))%nat.
Proof.
  intros Hu. unfold time.formatUnsigned.
  destruct (u <? time.Second).
  - destruct (u =? 0); [simpl; lia|].
    destruct (u <? time.Microsecond); [|destruct (u <? time.Millisecond)];
      rewrite pair_fst_snd, fmtFrac_snd by (try reflexivity; lia).
    + pose proof (fmtInt_longer (fst (time.fmtFrac "ns" u 0))
                    (u / 10 ^ Z.of_nat 0)
                    ltac:(apply Z.div_pos; lia)) as H1.
      pose proof (fmtFrac_length "ns" u 0) as H2.
      simpl String.length in H2 at 1. lia.
    + pose proof (fmtInt_longer (fst (time.fmtFrac (time.micro ++ "s") u 3))
                    (u / 10 ^ Z.of_nat 3)
                    ltac:(apply Z.div_pos; lia)) as H1.
      pose proof (fmtFrac_length (time.micro ++ "s") u 3) as H2.
      simpl String.length in H2 at 1. lia.
    + pose proof (fmtInt_longer (fst (time.fmtFrac "ms" u 6))
                    (u / 10 ^ Z.of_nat 6)
                    ltac:(apply Z.div_pos; lia)) as H1.
      pose proof (fmtFrac_length "ms" u 6) as H2.
      simpl String.length in H2 at 1. lia.
  - rewrite pair_fst_snd, fmtFrac_snd by (try reflexivity; lia).
    cbv zeta.
    destruct (secText_facts u Hu) as [_ Hlen].
    change (10 ^ Z.of_nat 9) with (10 ^ 9).
    set (secText := time.fmtInt (fst (time.fmtFrac "s" u 9))
                      (u / 10 ^ 9 mod 60)) in *.
    destruct (0 <? u / 10 ^ 9 / 60); [|exact Hlen].
    pose proof (fmtInt_length (String "m" secText) (u / 10 ^ 9 / 60 mod 60))
      as H2. simpl String.length in H2 at 1.
    set (minText := time.fmtInt (String "m" secText)
                      (u / 10 ^ 9 / 60 mod 60)) in *.
    destruct (0 <? u / 10 ^ 9 / 60 / 60); [|lia].
    pose proof (fmtInt_length (String "h" minText) (u / 10 ^ 9 / 60 / 60))
      as H3. simpl String.length in H3 at 1. lia.
Qed.

Theorem ParseDuration_String (d : Z) :
  MinInt64 <= d <= MaxInt64 ->
  time.ParseDuration (time.Duration_String d) = (d, None).
Proof.
  unfold MinInt64, MaxInt64. intros Hd.
  unfold time.Duration_String. cbv zeta. unfold time.ParseDuration.
  destruct (Z.ltb_spec d 0) as [Hneg|Hpos].
  - change (fmt.byte "-" =? 45) with true. cbn [orb].
    pose proof (formatUnsigned_two_bytes (- d) ltac:(lia)) as Hlen.
    pose proof (parse_formatUnsigned (- d) (String.length (time.formatUnsigned (- d)))
                  ltac:(lia) ltac:(lia)) as Hparse.
    destruct (time.formatUnsigned (- d)) as [|c [|c' s]] eqn:Hb;
      [simpl in Hlen; lia | simpl in Hlen; lia |].
    assert (Hne0 : String.eqb (String c (String c' s)) "0" = false).
    { apply String.eqb_neq. intros H. discriminate. }
    rewrite Hne0. cbn [String.eqb]. rewrite Hparse.
    f_equal. rewrite Z.opp_involutive. apply wrap64_id.
    unfold MinInt64, MaxInt64. lia.
  - pose proof (formatUnsigned_two_bytes d Hpos) as Hlen.
    pose proof (formatUnsigned_starts d Hpos) as Hst.
    pose proof (parse_formatUnsigned d (String.length (time.formatUnsigned d))
                  ltac:(lia) ltac:(lia)) as Hparse.
    destruct (time.formatUnsigned d) as [|c [|c' s]] eqn:Hb;
      [simpl in Hlen; lia | simpl in Hlen; lia |].
    cbn [startsWithDigit] in Hst.
    assert (Hsign : (fmt.byte c =? 45) || (fmt.byte c =? 43) = false).
    { unfold fmt.isDigit in Hst. apply andb_prop in Hst.
      destruct Hst as [H1 H2]. apply Z.leb_le in H1, H2.
      destruct (Z.eqb_spec (fmt.byte c) 45); [lia|].
      destruct (Z.eqb_spec (fmt.byte c) 43); [lia | reflexivity]. }
    rewrite Hsign.
    assert (Hne0 : String.eqb (String c (String c' s)) "0" = false).
    { apply String.eqb_neq. intros H. discriminate. }
    rewrite Hne0. cbn [String.eqb]. rewrite Hparse.
    destruct (Z.ltb_spec (2 ^ 63 - 1) d); [lia | reflexivity].
Qed.

(** ** Histograms *)

Lemma bucket_incrCode (k j : Z) (m : gmap Z Z) :
  bucket (incrCode k m) j =
  if decide (k = j) then incr (bucket m k) else bucket m j.
Proof.
  unfold bucket, incrCode. rewrite lookup_insert.
  destruct (decide (k = j)); reflexivity.
Qed.

Lemma bucket_incrCodes (ks : list Z) (m : gmap Z Z) (j : Z) :
  bucket (incrCodes ks m) j = incrN (count_occ Z.eq_dec ks j) (bucket m j).
Proof.
  revert m. induction ks as [|k ks IH]; intros m; [reflexivity|].
  unfold incrCodes in *. simpl fold_left. rewrite IH, bucket_incrCode.
  simpl count_occ.
  destruct (Z.eq_dec k j) as [->|Hne].
  - rewrite decide_True by reflexivity. rewrite incrN_S. reflexivity.
  - rewrite decide_False by assumption. reflexivity.
Qed.

Lemma dom_incrCodes (ks : list Z) (m : gmap Z Z) :
  dom (incrCodes ks m) = dom m ∪ list_to_set ks.
Proof.
  revert m. induction ks as [|k ks IH]; intros m.
  - simpl. apply set_eq. intros x.
    rewrite elem_of_union, elem_of_empty. tauto.
  - unfold incrCodes in *. simpl fold_left. rewrite IH.
    unfold incrCode. rewrite dom_insert_L. apply set_eq. intros x.
    simpl list_to_set. rewrite !elem_of_union. tauto.
Qed.

Lemma histTotal_empty : histTotal ∅ = 0.
Proof. apply map_fold_empty. Qed.

Lemma histTotal_insert_fresh (k v : Z) (m : gmap Z Z) :
  m !! k = None -> histTotal (<[k:=v]> m) = v + histTotal m.
Proof.
  intros H. unfold histTotal.
  rewrite map_fold_insert_L; [reflexivity | intros; lia | assumption].
Qed.

Lemma histTotal_insert (k v : Z) (m : gmap Z Z) :
  histTotal (<[k:=v]> m) = histTotal m - bucket m k + v.
Proof.
  unfold bucket. destruct (m !! k) as [x|] eqn:Hk; simpl.
  - rewrite <- (insert_delete_eq m k v).
    rewrite histTotal_insert_fresh by apply lookup_delete_eq.
    rewrite <- (insert_delete_id m k x Hk) at 2.
    rewrite histTotal_insert_fresh by apply lookup_delete_eq. lia.
  - rewrite histTotal_insert_fresh by assumption. lia.
Qed.

(** As long as no count can overflow, counting a list of codes adds its
    length to the sum of the counts. *)
Lemma histTotal_incrCodes (ks : list Z) (m : gmap Z Z) (b : Z) :
  0 <= b ->
  map_Forall (fun _ v => 0 <= v <= b) m ->
  b + Z.of_nat (length ks) <= MaxInt64 ->
  histTotal (incrCodes ks m) = histTotal m + Z.of_nat (length ks).
Proof.
  revert m b. induction ks as [|k ks IH]; intros m b H0 Hm Hb.
  - simpl. lia.
  - unfold incrCodes in *. simpl fold_left.
    assert (Hk : 0 <= bucket m k <= b).
    { unfold bucket. destruct (m !! k) as [x|] eqn:Hx; simpl.
      - apply (map_Forall_lookup_1 _ _ _ _ Hm Hx).
      - lia. }
    assert (Hincr : incr (bucket m k) = bucket m k + 1).
    { apply incr_exact. revert Hb. unfold MinInt64, MaxInt64.
      simpl length. lia. }
    rewrite (IH _ (b + 1)).
    + unfold incrCode. fold (bucket m k).
      rewrite histTotal_insert, Hincr. simpl length. lia.
    + lia.
    + unfold incrCode. fold (bucket m k). apply map_Forall_insert_2.
      * rewrite Hincr. lia.
      * eapply map_Forall_impl; [exact Hm|]. simpl. intros. lia.
    + simpl length in Hb. lia.
Qed.

Lemma histTotal_count (ks : list Z) :
  Z.of_nat (length ks) <= MaxInt64 ->
  histTotal (incrCodes ks ∅) = Z.of_nat (length ks).
Proof.
  intros H. rewrite (histTotal_incrCodes ks ∅ 0).
  - rewrite histTotal_empty. lia.
  - lia.
  - apply map_Forall_empty.
  - lia.
Qed.

Lemma bucket_count (ks : list Z) (j : Z) :
  Z.of_nat (length ks) <= MaxInt64 ->
  bucket (incrCodes ks ∅) j = Z.of_nat (count_occ Z.eq_dec ks j).
Proof.
  intros H. rewrite bucket_incrCodes. unfold bucket at 1.
  rewrite lookup_empty. simpl. apply incrN_zero.
  pose proof (count_occ_bound Z.eq_dec j ks). lia.
Qed.

Lemma elem_of_dom_incrCodes (ks : list Z) (j : Z) :
  j ∈ dom (incrCodes ks ∅) <-> j ∈ ks.
Proof.
  rewrite dom_incrCodes, dom_empty_L, elem_of_union, elem_of_list_to_set.
  split; [intros [H|H]; [|exact H] | intros H; right; exact H].
  exfalso. revert H. apply not_elem_of_empty.
Qed.

(** ** Sums *)

Lemma sumZ_app (l1 l2 : list Z) : sumZ (l1 ++ l2) = sumZ l1 + sumZ l2.
Proof.
  unfold sumZ. induction l1 as [|x l1 IH]; simpl; [reflexivity|].
  rewrite IH. lia.
Qed.

Lemma length_concat_sumZ {A : Type} (ls : list (list A)) :
  Z.of_nat (length (concat ls)) =
  sumZ ((fun l => Z.of_nat (length l)) <$> ls).
Proof.
  induction ls as [|l ls IH]; [reflexivity|].
  simpl. rewrite length_app, Nat2Z.inj_add, IH. reflexivity.
Qed.

Lemma count_occ_concat_sumZ (ls : list (list Z)) (j : Z) :
  Z.of_nat (count_occ Z.eq_dec (concat ls) j) =
  sumZ ((fun l => Z.of_nat (count_occ Z.eq_dec l j)) <$> ls).
Proof.
  induction ls as [|l ls IH]; [reflexivity|].
  simpl concat. rewrite count_occ_app, Nat2Z.inj_add, IH. reflexivity.
Qed.

Lemma elem_of_concat_fmap {A B : Type} (f : A -> list B) (l : list A) (y : B) :
  y ∈ concat (f <$> l) <-> exists x, x ∈ l /\ y ∈ f x.
Proof.
  induction l as [|a l IH]; simpl.
  - split; [intros H; inversion H | intros (x & H & _); inversion H].
  - rewrite elem_of_app, IH. split.
    + intros [H | (x & Hx & H)].
      * exists a. split; [apply list_elem_of_here | exact H].
      * exists x. split; [apply list_elem_of_further, Hx | exact H].
    + intros (x & Hx & H). apply elem_of_cons in Hx.
      destruct Hx as [-> | Hx]; [left; exact H | right; eauto].
Qed.

Lemma sumZ_const (c : Z) {A : Type} (f : A -> Z) (l : list A) :
  (forall x, x ∈ l -> f x = c) ->
  sumZ (f <$> l) = c * Z.of_nat (length l).
Proof.
  induction l as [|x l IH]; intros H.
  - simpl. lia.
  - cbn [fmap list_fmap sumZ foldr length].
    fold (sumZ (f <$> l)). rewrite IH.
    + rewrite (H x) by apply list_elem_of_here. lia.
    + intros y Hy. apply H. apply list_elem_of_further. exact Hy.
Qed.

(** The running total of [calculateAverageDuration] is the sum of the
    durations, reduced to 64 bits. *)
Lemma fold_total (ds : list Z) (t : Z) :
  MinInt64 <= t <= MaxInt64 ->
  fold_left (fun total d => wrap64 (total + d)) ds t = wrap64 (t + sumZ ds).
Proof.
  revert t. induction ds as [|d ds IH]; intros t Ht.
  - simpl. rewrite Z.add_0_r. symmetry. apply wrap64_id. exact Ht.
  - simpl. rewrite IH by apply wrap64_range.
    rewrite wrap64_wrap64_add. f_equal. lia.
Qed.

Lemma sumDurations_wrap (ds : list Z) : sumDurations ds = wrap64 (sumZ ds).
Proof.
  unfold sumDurations. rewrite fold_total; [reflexivity|].
  unfold MinInt64, MaxInt64. lia.
Qed.

Lemma sumDurations_exact (ds : list Z) :
  MinInt64 <= sumZ ds <= MaxInt64 -> sumDurations ds = sumZ ds.
Proof. intros H. rewrite sumDurations_wrap. apply wrap64_id. exact H. Qed.

(** ** The log of events *)

Lemma progressCalls_app (t1 t2 : list Event) :
  progressCalls (t1 ++ t2) = progressCalls t1 ++ progressCalls t2.
Proof. apply omap_app. Qed.

Lemma progressCalls_go (cycle : Z) (ids : list Z) :
  progressCalls (EvGo cycle <$> ids) = [].
Proof. induction ids as [|i ids IH]; [reflexivity | exact IH]. Qed.

Lemma progressCalls_cycleEvents (n cycle : Z) :
  progressCalls (cycleEvents n cycle) = [cycle].
Proof.
  unfold cycleEvents. rewrite !progressCalls_app, progressCalls_go.
  reflexivity.
Qed.

Lemma progressCalls_concat (n : Z) (cs : list Z) :
  progressCalls (concat (cycleEvents n <$> cs)) = cs.
Proof.
  induction cs as [|c cs IH]; [reflexivity|].
  cbn [concat fmap list_fmap].
  rewrite progressCalls_app, progressCalls_cycleEvents.
  fold (fmap (M:=list) (cycleEvents n) cs). rewrite IH. reflexivity.
Qed.

(** Inside the events of one cycle, a dispatch is preceded by dispatches
    of the same cycle only. *)
Lemma go_in_dispatches (c0 : Z) (ids : list Z) (pre suf : list Event)
  (c id : Z) :
  (EvGo c0 <$> ids) ++ [EvWait c0] = pre ++ EvGo c id :: suf ->
  c = c0 /\ Forall (fun e => exists id', e = EvGo c id') pre.
Proof.
  revert pre. induction ids as [|i ids IH]; intros pre H.
  - destruct pre as [|e [|e' pre]]; simpl in H; discriminate.
  - destruct pre as [|e pre]; simpl in H.
    + injection H as -> _ _. split; [reflexivity | constructor].
    + injection H as <- H. destruct (IH pre H) as [-> HF].
      split; [reflexivity|]. constructor; [eauto | exact HF].
Qed.

(** In the log of a run, every dispatch of a cycle comes after the call
    of [progress] for that cycle, and only dispatches of the cycle lie
    between the two. *)
Lemma go_after_progress (n : Z) (cs : list Z) (pre suf : list Event)
  (c id : Z) :
  concat (cycleEvents n <$> cs) = pre ++ EvGo c id :: suf ->
  exists pre' mid,
    pre = pre' ++ EvProgress c :: mid /\
    Forall (fun e => exists id', e = EvGo c id') mid.
Proof.
  revert pre. induction cs as [|c0 cs IH]; intros pre H.
  - destruct pre; discriminate.
  - cbn [concat fmap list_fmap] in H.
    fold (fmap (M:=list) (cycleEvents n) cs) in H.
    apply app_eq_app in H.
    destruct H as (l & [[H1 H2] | [H1 H2]]).
    + destruct l as [|e l].
      * simpl in H2. symmetry in H2.
        destruct (IH [] H2) as (pre' & mid & Hnil & _).
        destruct pre'; discriminate.
      * injection H2 as <- H2.
        unfold cycleEvents in H1. destruct pre as [|e pre]; [discriminate|].
        simpl in H1. injection H1 as <- H1.
        destruct (go_in_dispatches _ _ _ _ _ _ H1) as [-> HF].
        exists [], pre. split; [reflexivity | exact HF].
    + destruct (IH l H2) as (pre' & mid & -> & HF).
      exists (cycleEvents n c0 ++ pre'), mid.
      split; [rewrite H1, <- app_assoc; reflexivity | exact HF].
Qed.

(** ** The reduction of a list of results *)

Section Properties.

Variable ParseDuration : string -> Z * option string.
Variable url : string.
Variables numGoroutines maxCycles : Z.
Variable http_Get : Z -> Z -> GetResult.
Variable since : Z -> Z -> Z.
Variable sched : Z -> list nat.

Local Abbreviation reduce := (reduce ParseDuration).
Local Abbreviation latencies := (latencies ParseDuration).
Local Abbreviation probe := (probe url http_Get since).
Local Abbreviation results := (results url numGoroutines http_Get since sched).
Local Abbreviation allResults :=
  (allResults url numGoroutines http_Get since sched).
Local Abbreviation runCycle :=
  (runCycle ParseDuration url numGoroutines http_Get since sched).
Local Abbreviation cycles :=
  (cycles ParseDuration url numGoroutines maxCycles http_Get since sched).
Local Abbreviation runAPITest :=
  (runAPITest ParseDuration url numGoroutines maxCycles http_Get since sched).
Local Abbreviation cycleSummary :=
  (cycleSummary ParseDuration url numGoroutines http_Get since sched).
Local Abbreviation cycleEvents := (cycleEvents numGoroutines).
Local Abbreviation stateAfter :=
  (stateAfter ParseDuration url numGoroutines http_Get since sched).
Local Abbreviation finalReport :=
  (finalReport ParseDuration url numGoroutines maxCycles http_Get since sched).
Local Abbreviation finalTrace := (finalTrace numGoroutines maxCycles).
Local Abbreviation measured :=
  (measured url numGoroutines http_Get since sched).

Lemma successes_cons (r : RequestResult.t) (rs : list RequestResult.t) :
  successes (r :: rs) =
  if succeeded r then r :: successes rs else successes rs.
Proof. reflexivity. Qed.

Lemma failures_cons (r : RequestResult.t) (rs : list RequestResult.t) :
  failures (r :: rs) =
  if succeeded r then failures rs else r :: failures rs.
Proof. unfold failures. simpl. destruct (succeeded r); reflexivity. Qed.

Lemma successes_app (rs1 rs2 : list RequestResult.t) :
  successes (rs1 ++ rs2) = successes rs1 ++ successes rs2.
Proof. apply List.filter_app. Qed.

Lemma failures_app (rs1 rs2 : list RequestResult.t) :
  failures (rs1 ++ rs2) = failures rs1 ++ failures rs2.
Proof. apply List.filter_app. Qed.

Lemma codes_app (rs1 rs2 : list RequestResult.t) :
  codes (rs1 ++ rs2) = codes rs1 ++ codes rs2.
Proof. unfold codes. rewrite successes_app. apply fmap_app. Qed.

Lemma latencies_app (rs1 rs2 : list RequestResult.t) :
  latencies (rs1 ++ rs2) = latencies rs1 ++ latencies rs2.
Proof. unfold latencies. rewrite successes_app. apply fmap_app. Qed.

Lemma successes_failures_length (rs : list RequestResult.t) :
  (length (successes rs) + length (failures rs))%nat = length rs.
Proof. apply List.filter_length. Qed.

(** The loop over [results] updates every variable on its own: the
    counters by as many increments as there are results of their kind,
    the histograms by the codes of the successes, the slices by their
    durations. *)
Lemma fold_reduce (rs : list RequestResult.t) (a : Acc) :
  fold_left reduce rs a =
  mkAcc
    (Report.mk
       (incrN (length rs) (Report.TotalRequests (report a)))
       (incrN (length (successes rs)) (Report.SuccessCount (report a)))
       (incrN (length (failures rs)) (Report.ErrorCount (report a)))
       (Report.AvgDurationMS (report a))
       (incrCodes (codes rs) (Report.ResponseCodes (report a)))
       (Report.CycleDetails (report a)))
    (CycleStats.mk
       (CycleStats.CycleNumber (cycleStats a))
       (incrN (length rs) (CycleStats.TotalRequests (cycleStats a)))
       (incrN (length (successes rs)) (CycleStats.SuccessCount (cycleStats a)))
       (incrN (length (failures rs)) (CycleStats.ErrorCount (cycleStats a)))
       (CycleStats.AvgDurationMS (cycleStats a))
       (incrCodes (codes rs) (CycleStats.ResponseCodes (cycleStats a))))
    (totalDurations a ++ latencies rs)
    (cycleDurations a ++ latencies rs).
Proof.
  revert a. induction rs as [|r rs IH]; intros a.
  - destruct a as [[] [] ? ?]. simpl. rewrite !app_nil_r. reflexivity.
  - simpl fold_left. rewrite IH. clear IH.
    unfold latencies, codes.
    rewrite successes_cons, failures_cons.
    unfold reduce.
    destruct (succeeded r); simpl; rewrite ?incrN_S, <- ?app_assoc;
      reflexivity.
Qed.

(** ** One cycle, and the loop over the cycles *)

Lemma calculateAverageDuration_nonempty (ds : list Z) :
  (0 < length ds)%nat ->
  calculateAverageDuration ds =
  Done (Z.quot (sumDurations ds) (Z.of_nat (length ds))).
Proof.
  intros H. unfold calculateAverageDuration.
  destruct (Z.eqb_spec (Z.of_nat (length ds)) 0); [lia | reflexivity].
Qed.

Lemma incrCodes_app (ks1 ks2 : list Z) (m : gmap Z Z) :
  incrCodes (ks1 ++ ks2) m = incrCodes ks2 (incrCodes ks1 m).
Proof. apply fold_left_app. Qed.

Lemma allResults_app (cs1 cs2 : list Z) :
  allResults (cs1 ++ cs2) = allResults cs1 ++ allResults cs2.
Proof.
  unfold allResults. rewrite fmap_app. apply concat_app.
Qed.

Lemma allResults_singleton (c : Z) : allResults [c] = results c.
Proof. unfold allResults. simpl. apply app_nil_r. Qed.

Lemma stateAfter_nil (st : RunState) : stateAfter [] st = st.
Proof.
  destruct st as [[] ? ?]. unfold stateAfter. simpl.
  rewrite !app_nil_r. reflexivity.
Qed.

Lemma stateAfter_app (cs1 cs2 : list Z) (st : RunState) :
  stateAfter (cs1 ++ cs2) st = stateAfter cs2 (stateAfter cs1 st).
Proof.
  unfold stateAfter. simpl.
  rewrite allResults_app, successes_app, failures_app, codes_app,
    latencies_app, !length_app, !incrN_add, incrCodes_app, !fmap_app,
    concat_app, <- !app_assoc.
  reflexivity.
Qed.

Lemma runCycle_made (cycle : Z) (st : RunState) :
  runtime.makechan numGoroutines = true ->
  runCycle cycle st = Done (stateAfter [cycle] st).
Proof.
  intros HN. unfold runCycle. rewrite HN. cbn [negb].
  rewrite fold_reduce. cbn [report cycleStats totalDurations cycleDurations].
  cbn [CycleStats.CycleNumber CycleStats.TotalRequests
         CycleStats.SuccessCount CycleStats.ErrorCount
         CycleStats.AvgDurationMS CycleStats.ResponseCodes].
  rewrite app_nil_l.
  unfold stateAfter.
  rewrite allResults_singleton.
  change (cycleSummary <$> [cycle]) with [cycleSummary cycle].
  change (concat (cycleEvents <$> [cycle])) with (cycleEvents cycle ++ []).
  unfold cycleSummary, average, cycleEvents.
  destruct (Z.ltb_spec 0 (Z.of_nat (length (latencies (results cycle))))).
  - rewrite calculateAverageDuration_nonempty by lia.
    cbn. rewrite app_nil_r, <- !app_assoc. reflexivity.
  - cbn. rewrite app_nil_r, <- !app_assoc. reflexivity.
Qed.

Lemma runCycle_spec (cycle : Z) (st : RunState) :
  0 <= numGoroutines <= runtime.maxWidth ->
  runCycle cycle st = Done (stateAfter [cycle] st).
Proof. intros HN. apply runCycle_made, makechan_width, HN. Qed.

(** A width that [makechan] refuses makes the cycle panic. *)
Lemma runCycle_refused (cycle : Z) (st : RunState) :
  runtime.makechan numGoroutines = false ->
  runCycle cycle st = Panic "makechan: size out of range".
Proof. intros HN. unfold runCycle. rewrite HN. reflexivity. Qed.

(** A negative width makes the allocation of the channel panic. *)
Lemma runCycle_negative (cycle : Z) (st : RunState) :
  numGoroutines < 0 ->
  runCycle cycle st = Panic "makechan: size out of range".
Proof. intros HN. apply runCycle_refused, makechan_negative, HN. Qed.

(** So does a width beyond the largest buffer. *)
Lemma runCycle_too_wide (cycle : Z) (st : RunState) :
  runtime.maxWidth < numGoroutines <= MaxInt64 ->
  runCycle cycle st = Panic "makechan: size out of range".
Proof. intros HN. apply runCycle_refused, makechan_too_wide, HN. Qed.

(** The loop runs the cycles [cycle], [cycle + 1], ..., [maxCycles] and
    stops, provided that [maxCycles] is below the largest [int]: the
    counter never wraps around. *)
Lemma cycles_spec (n : nat) (fuel : nat) (cycle : Z) (st : RunState) :
  0 <= numGoroutines <= runtime.maxWidth ->
  maxCycles < MaxInt64 ->
  MinInt64 <= cycle ->
  Z.of_nat n = Z.max 0 (maxCycles - cycle + 1) ->
  (n < fuel)%nat ->
  cycles fuel cycle st = Done (stateAfter (seqZ cycle (Z.of_nat n)) st).
Proof.
  intros HN Hmax. unfold MinInt64, MaxInt64 in *. revert fuel cycle st.
  induction n as [|n IH]; intros fuel cycle st Hlo Hn Hfuel.
  - destruct fuel as [|fuel]; [lia|]. simpl.
    destruct (Z.leb_spec cycle maxCycles); [lia|].
    rewrite stateAfter_nil. reflexivity.
  - destruct fuel as [|fuel]; [lia|]. cbn [cycles].
    destruct (Z.leb_spec cycle maxCycles); [|lia].
    rewrite runCycle_spec by assumption. cbn [mbind res_bind].
    rewrite incr_exact by (unfold MinInt64, MaxInt64; lia).
    rewrite IH by lia.
    rewrite <- stateAfter_app. f_equal.
    rewrite (seqZ_cons cycle (Z.of_nat (S n))) by lia.
    simpl. do 3 f_equal. lia.
Qed.

(** With [maxCycles] the largest [int], the condition of the loop never
    fails: the counter wraps around and the run does not return. *)
Lemma cycles_diverge (fuel : nat) (cycle : Z) (st : RunState) :
  0 <= numGoroutines <= runtime.maxWidth ->
  maxCycles = MaxInt64 -> cycle <= MaxInt64 ->
  cycles fuel cycle st = OutOfFuel.
Proof.
  intros HN Hmax. revert cycle st.
  induction fuel as [|fuel IH]; intros cycle st Hc; [reflexivity|].
  cbn [cycles]. destruct (Z.leb_spec cycle maxCycles); [|lia].
  rewrite runCycle_spec by assumption. cbn [mbind res_bind].
  apply IH. apply wrap64_range.
Qed.

Lemma runAPITest_diverges (fuel : nat) :
  0 <= numGoroutines <= runtime.maxWidth ->
  maxCycles = MaxInt64 -> runAPITest fuel = OutOfFuel.
Proof.
  intros HN Hmax. unfold runAPITest.
  rewrite cycles_diverge; [reflexivity | assumption | assumption |].
  unfold MaxInt64. lia.
Qed.

(** The run returns, with the report and the events of the cycles
    1..[maxCycles], whatever the fuel above [maxCycles]. *)
Lemma runAPITest_spec (fuel : nat) :
  0 <= numGoroutines <= runtime.maxWidth ->
  maxCycles < MaxInt64 ->
  (Z.to_nat maxCycles < fuel)%nat ->
  runAPITest fuel = Done (finalReport, finalTrace).
Proof.
  intros HN Hmax Hfuel. unfold runAPITest.
  rewrite (cycles_spec (Z.to_nat maxCycles)); unfold MinInt64; try lia.
  cbn [mbind res_bind].
  replace (Z.of_nat (Z.to_nat maxCycles)) with (Z.max 0 maxCycles) by lia.
  assert (Hseq : seqZ 1 (Z.max 0 maxCycles) = seqZ 1 maxCycles).
  { destruct (Z.le_gt_cases 0 maxCycles).
    - f_equal. lia.
    - rewrite !seqZ_nil by lia. reflexivity. }
  rewrite Hseq.
  unfold stateAfter, finalReport, finalTrace,
    average.
  cbn [run_report run_totalDurations run_trace].
  rewrite !app_nil_l.
  destruct (Z.ltb_spec 0
              (Z.of_nat (length (latencies (allResults (seqZ 1 maxCycles)))))).
  - rewrite calculateAverageDuration_nonempty by lia. reflexivity.
  - reflexivity.
Qed.

(** ** Exactly [numGoroutines] results per cycle *)

Lemma results_Permutation (cycle : Z) :
  results cycle ≡ₚ probe cycle <$> seqZ 0 numGoroutines.
Proof.
  unfold results. apply fmap_Permutation, arrival_Permutation.
Qed.

Lemma results_length (cycle : Z) :
  length (results cycle) = Z.to_nat numGoroutines.
Proof.
  rewrite (Permutation_length (results_Permutation cycle)).
  rewrite length_fmap. apply length_seqZ.
Qed.

Lemma cycleSummary_counts (cycle : Z) :
  0 <= numGoroutines <= MaxInt64 ->
  CycleStats.TotalRequests (cycleSummary cycle) = numGoroutines /\
  CycleStats.SuccessCount (cycleSummary cycle) =
    Z.of_nat (length (successes (results cycle))) /\
  CycleStats.ErrorCount (cycleSummary cycle) =
    Z.of_nat (length (failures (results cycle))).
Proof.
  intros HN. unfold cycleSummary.
  cbn [CycleStats.TotalRequests CycleStats.SuccessCount CycleStats.ErrorCount].
  pose proof (successes_failures_length (results cycle)) as Hsf.
  pose proof (results_length cycle) as Hlen.
  rewrite !incrN_zero; lia.
Qed.

Lemma cycleSummary_total (cycle : Z) :
  0 <= numGoroutines <= MaxInt64 ->
  CycleStats.TotalRequests (cycleSummary cycle) =
  Z.of_nat (length (results cycle)).
Proof.
  intros HN. destruct (cycleSummary_counts cycle HN) as (-> & _).
  rewrite results_length. lia.
Qed.

Lemma cycleSummary_success (cycle : Z) :
  0 <= numGoroutines <= MaxInt64 ->
  CycleStats.SuccessCount (cycleSummary cycle) =
  Z.of_nat (length (successes (results cycle))).
Proof. intros HN. apply (cycleSummary_counts cycle HN). Qed.

Lemma cycleSummary_error (cycle : Z) :
  0 <= numGoroutines <= MaxInt64 ->
  CycleStats.ErrorCount (cycleSummary cycle) =
  Z.of_nat (length (failures (results cycle))).
Proof. intros HN. apply (cycleSummary_counts cycle HN). Qed.

(** C1. A cycle of width N >= 1 launches N goroutines, finds the value of
    each of them in the channel, and reduces them all: the statistics of
    the cycle have TotalRequests = N = SuccessCount + ErrorCount.  Every
    execution of the goroutines that gets past [wg.Wait()] leaves N
    values in the channel, one per goroutine, in an order that the
    scheduling choices of [results] describe; the loop body, started in
    any state, counts exactly these; and so does every entry of the
    report of a whole run.  The width is one for which
    the channel of a cycle can be made, at most 3909374676535; beyond it
    the first cycle panics. *)
Theorem cycle_reduces_exactly_N :
  1 <= numGoroutines <= runtime.maxWidth ->
  (forall (cycle : Z) (c : Fanout),
     rtc (fanoutStep numGoroutines) fanoutStart c -> pc c = Closed ->
     Z.of_nat (length (probe cycle <$> sent c)) = numGoroutines /\
     sent c ≡ₚ seqZ 0 numGoroutines /\
     exists choices : list nat,
       probe cycle <$> sent c =
       probe cycle <$> arrival choices (seqZ 0 numGoroutines)) /\
  (forall (cycle : Z) (st : RunState),
     exists (st' : RunState) (cs : CycleStats.t),
       runCycle cycle st = Done st' /\
       run_trace st' =
         run_trace st ++ [EvProgress cycle]
           ++ (EvGo cycle <$> seqZ 0 numGoroutines) ++ [EvWait cycle] /\
       Z.of_nat (length (seqZ 0 numGoroutines)) = numGoroutines /\
       results cycle ≡ₚ probe cycle <$> seqZ 0 numGoroutines /\
       Z.of_nat (length (results cycle)) = numGoroutines /\
       Report.CycleDetails (run_report st') =
         Report.CycleDetails (run_report st) ++ [cs] /\
       CycleStats.TotalRequests cs = numGoroutines /\
       CycleStats.SuccessCount cs + CycleStats.ErrorCount cs = numGoroutines /\
       CycleStats.SuccessCount cs =
         Z.of_nat (length (successes (results cycle))) /\
       CycleStats.ErrorCount cs =
         Z.of_nat (length (failures (results cycle)))) /\
  (maxCycles < MaxInt64 ->
   forall fuel : nat, (Z.to_nat maxCycles < fuel)%nat ->
     exists (final : Report.t) (trace : list Event),
       runAPITest fuel = Done (final, trace) /\
       Forall (fun cs =>
                 CycleStats.TotalRequests cs = numGoroutines /\
                 CycleStats.SuccessCount cs + CycleStats.ErrorCount cs
                 = numGoroutines)
         (Report.CycleDetails final)).
Proof.
  intros HN. pose proof maxWidth_fits as HW. split; [|split].
  - intros cycle c Hreach Hclosed.
    destruct (fanout_closed_holds_all numGoroutines c ltac:(lia) Hreach
                Hclosed) as (Hperm & Hlen & choices & Hch).
    split; [rewrite length_fmap; exact Hlen|].
    split; [exact Hperm|].
    exists choices. rewrite Hch. reflexivity.
  - intros cycle st.
    exists (stateAfter [cycle] st), (cycleSummary cycle).
    destruct (cycleSummary_counts cycle) as (HT & HS & HE); [lia|].
    pose proof (successes_failures_length (results cycle)) as Hsf.
    pose proof (results_length cycle) as Hlen.
    repeat split.
    + apply runCycle_spec. lia.
    + unfold stateAfter. simpl. rewrite app_nil_r. reflexivity.
    + rewrite length_seqZ. lia.
    + apply results_Permutation.
    + lia.
    + exact HT.
    + lia.
    + exact HS.
    + exact HE.
  - intros Hmax fuel Hfuel. exists finalReport, finalTrace. split.
    + apply runAPITest_spec; lia.
    + unfold finalReport. cbn [Report.CycleDetails].
      apply Forall_fmap, Forall_forall. intros cycle _. unfold compose.
      destruct (cycleSummary_counts cycle) as (HT & HS & HE); [lia|].
      pose proof (successes_failures_length (results cycle)) as Hsf.
      pose proof (results_length cycle) as Hlen.
      split; [exact HT | rewrite HS, HE; lia].
Qed.

(** ** The report as the merge of the cycles *)

Lemma sumZ_fmap_ext {A : Type} (f g : A -> Z) (l : list A) :
  (forall x, x ∈ l -> f x = g x) -> sumZ (f <$> l) = sumZ (g <$> l).
Proof.
  intros H. f_equal. apply list_fmap_ext. intros i x Hx.
  apply H. apply list_elem_of_lookup. eauto.
Qed.

Lemma successes_allResults (cs : list Z) :
  successes (allResults cs) = concat ((fun c => successes (results c)) <$> cs).
Proof.
  induction cs as [|c cs IH]; [reflexivity|].
  change (c :: cs) with ([c] ++ cs).
  rewrite allResults_app, successes_app, allResults_singleton, IH.
  reflexivity.
Qed.

Lemma failures_allResults (cs : list Z) :
  failures (allResults cs) = concat ((fun c => failures (results c)) <$> cs).
Proof.
  induction cs as [|c cs IH]; [reflexivity|].
  change (c :: cs) with ([c] ++ cs).
  rewrite allResults_app, failures_app, allResults_singleton, IH.
  reflexivity.
Qed.

Lemma codes_allResults (cs : list Z) :
  codes (allResults cs) = concat ((fun c => codes (results c)) <$> cs).
Proof.
  induction cs as [|c cs IH]; [reflexivity|].
  change (c :: cs) with ([c] ++ cs).
  rewrite allResults_app, codes_app, allResults_singleton, IH.
  reflexivity.
Qed.

Lemma latencies_allResults (cs : list Z) :
  latencies (allResults cs) =
  concat ((fun c => latencies (results c)) <$> cs).
Proof.
  induction cs as [|c cs IH]; [reflexivity|].
  change (c :: cs) with ([c] ++ cs).
  rewrite allResults_app, latencies_app, allResults_singleton, IH.
  reflexivity.
Qed.

Lemma allResults_length (cs : list Z) :
  0 <= numGoroutines ->
  Z.of_nat (length (allResults cs)) = numGoroutines * Z.of_nat (length cs).
Proof.
  intros HN. unfold allResults.
  rewrite length_concat_sumZ, <- list_fmap_compose.
  apply sumZ_const. intros c _. unfold compose.
  rewrite results_length. lia.
Qed.

Lemma successes_length_le (rs : list RequestResult.t) :
  (length (successes rs) <= length rs)%nat.
Proof. apply List.filter_length_le. Qed.

Lemma failures_length_le (rs : list RequestResult.t) :
  (length (failures rs) <= length rs)%nat.
Proof. apply List.filter_length_le. Qed.

Lemma codes_length (rs : list RequestResult.t) :
  length (codes rs) = length (successes rs).
Proof. apply length_fmap. Qed.

Lemma latencies_length (rs : list RequestResult.t) :
  length (latencies rs) = length (successes rs).
Proof. apply length_fmap. Qed.

(** The size of a whole run, when the total number of requests fits an
    [int]. *)
Lemma run_length :
  0 <= numGoroutines -> 0 <= maxCycles ->
  Z.of_nat (length (allResults (seqZ 1 maxCycles))) = numGoroutines * maxCycles.
Proof.
  intros HN HC. rewrite allResults_length, length_seqZ by assumption.
  rewrite Z2Nat.id by assumption. reflexivity.
Qed.

(** Whatever the size of the run, the counters of the report hold the
    numbers of results modulo 2^64. *)
Lemma run_counters_wrap :
  0 <= numGoroutines -> 0 <= maxCycles ->
  Report.TotalRequests finalReport = wrap64 (numGoroutines * maxCycles) /\
  Report.SuccessCount finalReport =
    wrap64 (Z.of_nat (length (successes (allResults (seqZ 1 maxCycles))))) /\
  Report.ErrorCount finalReport =
    wrap64 (Z.of_nat (length (failures (allResults (seqZ 1 maxCycles))))).
Proof.
  intros HN HC. unfold finalReport.
  cbn [Report.TotalRequests Report.SuccessCount Report.ErrorCount].
  rewrite !incrN_wrap by (unfold MinInt64, MaxInt64; lia).
  rewrite run_length by assumption. repeat split; reflexivity.
Qed.

(** C2. The report of a run of cycleCount >= 1 cycles is the merge of the
    statistics of its cycles: TotalRequests, SuccessCount and ErrorCount
    are the sums over CycleDetails (and TotalRequests is the width times
    the number of cycles), every bucket of the histogram is the sum of the
    buckets of the cycles for that code, and CycleDetails has one entry
    per cycle, numbered 1, 2, ..., cycleCount in this order.  The width is one for which
    the channel of a cycle can be made, at most 3909374676535; beyond it
    the first cycle panics. *)
Theorem report_merges_cycles :
  0 <= numGoroutines <= runtime.maxWidth ->
  1 <= maxCycles < MaxInt64 ->
  numGoroutines * maxCycles <= MaxInt64 ->
  forall fuel : nat, (Z.to_nat maxCycles < fuel)%nat ->
    exists (final : Report.t) (trace : list Event),
      runAPITest fuel = Done (final, trace) /\
      Report.TotalRequests final =
        sumZ (CycleStats.TotalRequests <$> Report.CycleDetails final) /\
      Report.TotalRequests final = numGoroutines * maxCycles /\
      Report.SuccessCount final =
        sumZ (CycleStats.SuccessCount <$> Report.CycleDetails final) /\
      Report.ErrorCount final =
        sumZ (CycleStats.ErrorCount <$> Report.CycleDetails final) /\
      (forall k : Z,
         bucket (Report.ResponseCodes final) k =
         sumZ ((fun cs => bucket (CycleStats.ResponseCodes cs) k)
                 <$> Report.CycleDetails final)) /\
      (forall k : Z,
         k ∈ dom (Report.ResponseCodes final) <->
         exists cs, cs ∈ Report.CycleDetails final /\
                    k ∈ dom (CycleStats.ResponseCodes cs)) /\
      CycleStats.CycleNumber <$> Report.CycleDetails final = seqZ 1 maxCycles /\
      Z.of_nat (length (Report.CycleDetails final)) = maxCycles.
Proof.
  intros HW HC Hfit fuel Hfuel. pose proof (proj1 HW) as HN.
  exists finalReport, finalTrace.
  split; [apply runAPITest_spec; lia|].
  pose proof run_length as Hrun. specialize (Hrun HN ltac:(lia)).
  set (all := allResults (seqZ 1 maxCycles)) in *.
  pose proof (successes_length_le all) as Hs.
  pose proof (failures_length_le all) as Hf.
  assert (Hwidth : numGoroutines <= MaxInt64) by nia.
  assert (Hcyc : forall c : Z,
             Z.of_nat (length (results c)) <= MaxInt64).
  { intros c. rewrite results_length. lia. }
  unfold finalReport. fold all.
  cbn [Report.TotalRequests Report.SuccessCount Report.ErrorCount
         Report.ResponseCodes Report.CycleDetails].
  rewrite !incrN_zero by lia.
  rewrite <- !list_fmap_compose. unfold compose.
  repeat split.
  - unfold all, allResults.
    rewrite length_concat_sumZ, <- list_fmap_compose.
    apply sumZ_fmap_ext. intros c _. unfold compose.
    symmetry. apply cycleSummary_total. lia.
  - exact Hrun.
  - unfold all. rewrite successes_allResults.
    rewrite length_concat_sumZ, <- list_fmap_compose.
    apply sumZ_fmap_ext. intros c _. unfold compose.
    symmetry. apply cycleSummary_success. lia.
  - unfold all. rewrite failures_allResults.
    rewrite length_concat_sumZ, <- list_fmap_compose.
    apply sumZ_fmap_ext. intros c _. unfold compose.
    symmetry. apply cycleSummary_error. lia.
  - intros k. rewrite bucket_count by (rewrite codes_length; lia).
    unfold all. rewrite codes_allResults, count_occ_concat_sumZ.
    rewrite <- !list_fmap_compose.
    apply sumZ_fmap_ext. intros c _. unfold compose.
    unfold cycleSummary. cbn [CycleStats.ResponseCodes].
    rewrite bucket_count; [reflexivity|].
    rewrite codes_length.
    pose proof (successes_length_le (results c)). specialize (Hcyc c). lia.
  - rewrite elem_of_dom_incrCodes. unfold all.
    rewrite codes_allResults, elem_of_concat_fmap. intros (c & Hc & Hk).
    exists (cycleSummary c). split.
    + apply list_elem_of_fmap. exists c. split; [reflexivity | exact Hc].
    + unfold cycleSummary. cbn [CycleStats.ResponseCodes].
      apply elem_of_dom_incrCodes. exact Hk.
  - rewrite elem_of_dom_incrCodes. unfold all.
    rewrite codes_allResults, elem_of_concat_fmap. intros (cs & Hcs & Hk).
    apply list_elem_of_fmap in Hcs. destruct Hcs as (c & -> & Hc).
    unfold cycleSummary in Hk. cbn [CycleStats.ResponseCodes] in Hk.
    apply elem_of_dom_incrCodes in Hk.
    exists c. split; assumption.
  - apply list_fmap_id.
  - rewrite length_fmap, length_seqZ. lia.
Qed.

(** ** Histograms and averages of the report *)

Lemma average_nil : average [] = EmptyString.
Proof. reflexivity. Qed.

Lemma average_empty_iff (ds : list Z) :
  average ds = EmptyString <-> length ds = 0%nat.
Proof.
  unfold average. destruct (Z.ltb_spec 0 (Z.of_nat (length ds))).
  - split; [|lia]. intros Hs. apply Duration_String_nonempty in Hs.
    contradiction.
  - split; [lia | reflexivity].
Qed.

Lemma elem_of_codes (rs : list RequestResult.t) (k : Z) :
  k ∈ codes rs <->
  exists r, r ∈ rs /\ succeeded r = true /\ statusCode r = k.
Proof.
  unfold codes, successes. rewrite list_elem_of_fmap. split.
  - intros (r & -> & Hr). apply list_elem_of_In, filter_In in Hr.
    destruct Hr as [Hr Hs]. exists r.
    split; [apply list_elem_of_In, Hr | split; [exact Hs | reflexivity]].
  - intros (r & Hr & Hs & <-). exists r. split; [reflexivity|].
    apply list_elem_of_In, filter_In.
    split; [apply list_elem_of_In, Hr | exact Hs].
Qed.

(** When the requests of a run fit an [int], so do those of any part of
    it. *)
Lemma cycle_fits (c : Z) :
  0 <= numGoroutines -> 1 <= maxCycles ->
  numGoroutines * maxCycles <= MaxInt64 ->
  Z.of_nat (length (results c)) <= MaxInt64.
Proof. intros HN HC Hfit. rewrite results_length. nia. Qed.

(** C5. In every entry of CycleDetails and in the report itself, the
    counts of the histogram add up to SuccessCount, every bucket counts
    the successful results with that status code, and every key is the
    status code of a successful result: a result with an error adds
    nothing to a histogram.  The width is one for which
    the channel of a cycle can be made, at most 3909374676535; beyond it
    the first cycle panics. *)
Theorem histogram_sums_to_successes :
  0 <= numGoroutines <= runtime.maxWidth ->
  1 <= maxCycles < MaxInt64 ->
  numGoroutines * maxCycles <= MaxInt64 ->
  forall fuel : nat, (Z.to_nat maxCycles < fuel)%nat ->
    exists (final : Report.t) (trace : list Event),
      runAPITest fuel = Done (final, trace) /\
      histTotal (Report.ResponseCodes final) = Report.SuccessCount final /\
      (forall k : Z,
         bucket (Report.ResponseCodes final) k =
         Z.of_nat (count_occ Z.eq_dec
                     (codes (allResults (seqZ 1 maxCycles))) k)) /\
      (forall k : Z,
         k ∈ dom (Report.ResponseCodes final) ->
         exists c r, 1 <= c <= maxCycles /\ r ∈ results c /\
                     succeeded r = true /\ statusCode r = k) /\
      (forall cs : CycleStats.t,
         cs ∈ Report.CycleDetails final ->
         histTotal (CycleStats.ResponseCodes cs) = CycleStats.SuccessCount cs /\
         (forall k : Z,
            bucket (CycleStats.ResponseCodes cs) k =
            Z.of_nat (count_occ Z.eq_dec
                        (codes (results (CycleStats.CycleNumber cs))) k)) /\
         (forall k : Z,
            k ∈ dom (CycleStats.ResponseCodes cs) ->
            exists r, r ∈ results (CycleStats.CycleNumber cs) /\
                      succeeded r = true /\ statusCode r = k)).
Proof.
  intros HW HC Hfit fuel Hfuel. pose proof (proj1 HW) as HN.
  exists finalReport, finalTrace.
  split; [apply runAPITest_spec; lia|].
  pose proof run_length as Hrun. specialize (Hrun HN ltac:(lia)).
  set (all := allResults (seqZ 1 maxCycles)) in *.
  pose proof (successes_length_le all) as Hs.
  unfold finalReport. fold all.
  cbn [Report.SuccessCount Report.ResponseCodes Report.CycleDetails].
  split; [|split; [|split]].
  - rewrite histTotal_count by (rewrite codes_length; lia).
    rewrite incrN_zero by lia. rewrite codes_length. reflexivity.
  - intros k. apply bucket_count. rewrite codes_length. lia.
  - intros k Hk. apply elem_of_dom_incrCodes in Hk.
    unfold all in Hk. rewrite codes_allResults in Hk.
    apply elem_of_concat_fmap in Hk. destruct Hk as (c & Hc & Hk).
    apply elem_of_seqZ in Hc. apply elem_of_codes in Hk.
    destruct Hk as (r & Hr & Hsucc & Hcode).
    exists c, r. repeat split; try assumption; lia.
  - intros cs Hcs. apply list_elem_of_fmap in Hcs.
    destruct Hcs as (c & -> & Hc).
    pose proof (cycle_fits c HN ltac:(lia) Hfit) as Hc_fits.
    pose proof (successes_length_le (results c)) as Hcs.
    unfold cycleSummary.
    cbn [CycleStats.SuccessCount CycleStats.ResponseCodes
           CycleStats.CycleNumber].
    split; [|split].
    + rewrite histTotal_count by (rewrite codes_length; lia).
      rewrite incrN_zero by lia. rewrite codes_length. reflexivity.
    + intros k. apply bucket_count. rewrite codes_length. lia.
    + intros k Hk. apply elem_of_dom_incrCodes, elem_of_codes in Hk.
      exact Hk.
Qed.

(** C6. With no successful result, the average is left unset, in every
    entry of CycleDetails and in the report: the guard on the number of
    durations keeps the division away (the run returns, it does not
    panic), and the empty text differs from the text of a zero duration;
    indeed every average that is set is a non-empty text.  The width is one for which
    the channel of a cycle can be made, at most 3909374676535; beyond it
    the first cycle panics. *)
Theorem average_unset_without_success :
  0 <= numGoroutines <= runtime.maxWidth ->
  1 <= maxCycles < MaxInt64 ->
  numGoroutines * maxCycles <= MaxInt64 ->
  forall fuel : nat, (Z.to_nat maxCycles < fuel)%nat ->
    exists (final : Report.t) (trace : list Event),
      runAPITest fuel = Done (final, trace) /\
      (Report.SuccessCount final = 0 ->
       Report.AvgDurationMS final = EmptyString /\
       Report.AvgDurationMS final <> time.Duration_String 0) /\
      (Report.AvgDurationMS final = EmptyString ->
       Report.SuccessCount final = 0) /\
      (forall cs : CycleStats.t,
         cs ∈ Report.CycleDetails final ->
         (CycleStats.SuccessCount cs = 0 ->
          CycleStats.AvgDurationMS cs = EmptyString /\
          CycleStats.AvgDurationMS cs <> time.Duration_String 0) /\
         (CycleStats.AvgDurationMS cs = EmptyString ->
          CycleStats.SuccessCount cs = 0)).
Proof.
  intros HW HC Hfit fuel Hfuel. pose proof (proj1 HW) as HN.
  exists finalReport, finalTrace.
  split; [apply runAPITest_spec; lia|].
  pose proof run_length as Hrun. specialize (Hrun HN ltac:(lia)).
  set (all := allResults (seqZ 1 maxCycles)) in *.
  pose proof (successes_length_le all) as Hs.
  unfold finalReport. fold all.
  cbn [Report.SuccessCount Report.AvgDurationMS Report.CycleDetails].
  rewrite incrN_zero by lia.
  split; [|split].
  - intros H0.
    assert (Hnil : average (latencies all) = EmptyString).
    { apply average_empty_iff. rewrite latencies_length. lia. }
    rewrite Hnil. split; [reflexivity|].
    intros H. symmetry in H. apply Duration_String_nonempty in H. exact H.
  - intros H. apply average_empty_iff in H.
    rewrite latencies_length in H. lia.
  - intros cs Hcs. apply list_elem_of_fmap in Hcs.
    destruct Hcs as (c & -> & Hc).
    pose proof (cycle_fits c HN ltac:(lia) Hfit) as Hc_fits.
    pose proof (successes_length_le (results c)) as Hcs.
    unfold cycleSummary.
    cbn [CycleStats.SuccessCount CycleStats.AvgDurationMS].
    rewrite incrN_zero by lia.
    split.
    + intros H0.
      assert (Hnil : average (latencies (results c)) = EmptyString).
      { apply average_empty_iff. rewrite latencies_length. lia. }
      rewrite Hnil. split; [reflexivity|].
      intros H. symmetry in H. apply Duration_String_nonempty in H. exact H.
    + intros H. apply average_empty_iff in H.
      rewrite latencies_length in H. lia.
Qed.

(** ** Averages *)

Lemma quot_truncates (s n : Z) :
  0 < n ->
  Z.abs (n * Z.quot s n) <= Z.abs s < Z.abs (n * Z.quot s n) + n /\
  0 <= Z.quot s n * s.
Proof.
  intros Hn.
  pose proof (Z.quot_rem' s n) as Hqr.
  destruct (Z.le_gt_cases 0 s) as [Hs|Hs].
  - pose proof (Z.rem_bound_pos s n Hs Hn) as Hr.
    pose proof (Z.quot_pos s n Hs Hn) as Hq. nia.
  - pose proof (Z.rem_bound_pos_neg s n Hn ltac:(lia)) as Hr.
    assert (Hq : Z.quot s n <= 0).
    { rewrite <- (Z.opp_involutive s), Z.quot_opp_l by lia.
      pose proof (Z.quot_pos (- s) n ltac:(lia) Hn). lia. }
    nia.
Qed.

Lemma isTruncatedMean_average (ds : list Z) :
  (0 < length ds)%nat ->
  isTruncatedMean ds (Z.of_nat (length ds)) (average ds).
Proof.
  intros Hlen. unfold isTruncatedMean, average.
  destruct (Z.ltb_spec 0 (Z.of_nat (length ds))); [|lia].
  destruct (quot_truncates (sumDurations ds) (Z.of_nat (length ds)))
    as [Hb Hsgn]; [lia|].
  repeat split; try apply Hb; try exact Hsgn.
  - apply sumDurations_wrap.
  - intros Hfit. rewrite sumDurations_exact by exact Hfit. reflexivity.
Qed.

(** When parsing inverts printing on the durations measured in a run, as
    [time.ParseDuration] does on the output of [Duration.String], the
    durations that the reduction pools are the measured ones. *)
Lemma latencies_measured (cycle : Z) :
  (forall id, fst (ParseDuration (time.Duration_String (since cycle id)))
              = since cycle id) ->
  latencies (results cycle) = measured cycle.
Proof.
  intros Hinv. unfold latencies, results, measured, successes.
  induction (arrival (sched cycle) (seqZ 0 numGoroutines)) as [|id ids IH];
    [reflexivity|].
  cbn [fmap list_fmap List.filter].
  destruct (succeeded (probe cycle id)) eqn:Hs.
  - cbn [fmap list_fmap]. f_equal; [|exact IH].
    unfold parsedDuration, probe, checkStatus.
    destruct (http_Get cycle id); cbn [RequestResult.Duration]; apply Hinv.
  - exact IH.
Qed.

(** C9. Whenever SuccessCount > 0, in an entry of CycleDetails or in the
    report, the average reported is the text of the integer quotient of
    the sum, in nanoseconds, of the durations of the successful results by
    their number, SuccessCount; the quotient is truncated toward zero, the
    remainder being dropped.  The durations are those that the reduction
    reads back from the results; when the parser inverts the printer, as
    [time.ParseDuration] does, they are the durations that the successful
    goroutines measured.  The width is one for which
    the channel of a cycle can be made, at most 3909374676535; beyond it
    the first cycle panics. *)
Theorem average_is_truncated_quotient :
  0 <= numGoroutines <= runtime.maxWidth ->
  1 <= maxCycles < MaxInt64 ->
  numGoroutines * maxCycles <= MaxInt64 ->
  forall fuel : nat, (Z.to_nat maxCycles < fuel)%nat ->
    exists (final : Report.t) (trace : list Event),
      runAPITest fuel = Done (final, trace) /\
      (0 < Report.SuccessCount final ->
       isTruncatedMean (latencies (allResults (seqZ 1 maxCycles)))
         (Report.SuccessCount final) (Report.AvgDurationMS final)) /\
      (forall cs : CycleStats.t,
         cs ∈ Report.CycleDetails final ->
         0 < CycleStats.SuccessCount cs ->
         isTruncatedMean (latencies (results (CycleStats.CycleNumber cs)))
           (CycleStats.SuccessCount cs) (CycleStats.AvgDurationMS cs)) /\
      ((forall c id,
          fst (ParseDuration (time.Duration_String (since c id))) = since c id) ->
       latencies (allResults (seqZ 1 maxCycles))
         = concat (measured <$> seqZ 1 maxCycles) /\
       (forall c : Z, latencies (results c) = measured c) /\
       (0 < Report.SuccessCount final ->
        isTruncatedMean (concat (measured <$> seqZ 1 maxCycles))
          (Report.SuccessCount final) (Report.AvgDurationMS final)) /\
       (forall cs : CycleStats.t,
          cs ∈ Report.CycleDetails final ->
          0 < CycleStats.SuccessCount cs ->
          isTruncatedMean (measured (CycleStats.CycleNumber cs))
            (CycleStats.SuccessCount cs) (CycleStats.AvgDurationMS cs))).
Proof.
  intros HW HC Hfit fuel Hfuel. pose proof (proj1 HW) as HN.
  exists finalReport, finalTrace.
  split; [apply runAPITest_spec; lia|].
  pose proof run_length as Hrun. specialize (Hrun HN ltac:(lia)).
  set (all := allResults (seqZ 1 maxCycles)) in *.
  pose proof (successes_length_le all) as Hs.
  unfold finalReport. fold all.
  cbn [Report.SuccessCount Report.AvgDurationMS Report.CycleDetails].
  rewrite incrN_zero by lia.
  assert (Hrun_mean :
            0 < Z.of_nat (length (successes all)) ->
            isTruncatedMean (latencies all)
              (Z.of_nat (length (successes all))) (average (latencies all))).
  { intros Hpos. rewrite <- latencies_length.
    apply isTruncatedMean_average. rewrite latencies_length. lia. }
  assert (Hcycle_mean :
            forall cs : CycleStats.t,
              cs ∈ cycleSummary <$> seqZ 1 maxCycles ->
              0 < CycleStats.SuccessCount cs ->
              isTruncatedMean
                (latencies (results (CycleStats.CycleNumber cs)))
                (CycleStats.SuccessCount cs) (CycleStats.AvgDurationMS cs)).
  { intros cs Hcs. apply list_elem_of_fmap in Hcs.
    destruct Hcs as (c & -> & Hc).
    pose proof (cycle_fits c HN ltac:(lia) Hfit) as Hc_fits.
    pose proof (successes_length_le (results c)) as Hcs.
    unfold cycleSummary.
    cbn [CycleStats.SuccessCount CycleStats.AvgDurationMS
           CycleStats.CycleNumber].
    rewrite incrN_zero by lia.
    intros Hpos. rewrite <- latencies_length.
    apply isTruncatedMean_average. rewrite latencies_length. lia. }
  split; [exact Hrun_mean|]. split; [exact Hcycle_mean|].
  intros Hinv.
  assert (Hcycle : forall c : Z, latencies (results c) = measured c)
    by (intros c; apply latencies_measured; intros id; apply Hinv).
  assert (Hall : latencies all = concat (measured <$> seqZ 1 maxCycles)).
  { unfold all. rewrite latencies_allResults. f_equal.
    apply list_fmap_ext. intros i c _. apply Hcycle. }
  split; [exact Hall|]. split; [exact Hcycle|]. split.
  - rewrite <- Hall. exact Hrun_mean.
  - intros cs Hcs Hpos. rewrite <- Hcycle. apply Hcycle_mean; assumption.
Qed.

(** ** The progress callback *)

(** C8. In a run of cycleCount >= 1 cycles, [progress] is called exactly
    cycleCount times, with the arguments 1, 2, ..., cycleCount in this
    order, and the call for a cycle comes before the goroutines of that
    cycle are launched: every dispatch of the log is preceded by the call
    for its cycle, with nothing but dispatches of that cycle in
    between.  The width is one for which
    the channel of a cycle can be made, at most 3909374676535; beyond it
    the first cycle panics. *)
Theorem progress_once_per_cycle_before_dispatch :
  0 <= numGoroutines <= runtime.maxWidth ->
  1 <= maxCycles < MaxInt64 ->
  forall fuel : nat, (Z.to_nat maxCycles < fuel)%nat ->
    exists (final : Report.t) (trace : list Event),
      runAPITest fuel = Done (final, trace) /\
      trace =
        concat ((fun c => [EvProgress c]
                            ++ (EvGo c <$> seqZ 0 numGoroutines)
                            ++ [EvWait c]) <$> seqZ 1 maxCycles) /\
      progressCalls trace = seqZ 1 maxCycles /\
      Z.of_nat (length (progressCalls trace)) = maxCycles /\
      (forall (pre suf : list Event) (c id : Z),
         trace = pre ++ EvGo c id :: suf ->
         exists pre' mid,
           pre = pre' ++ EvProgress c :: mid /\
           Forall (fun e => exists id', e = EvGo c id') mid).
Proof.
  intros HW HC fuel Hfuel. pose proof (proj1 HW) as HN.
  exists finalReport, finalTrace.
  split; [apply runAPITest_spec; lia|].
  unfold finalTrace.
  split; [reflexivity|]. split; [|split].
  - apply progressCalls_concat.
  - rewrite progressCalls_concat, length_seqZ. lia.
  - intros pre suf c id H. exact (go_after_progress _ _ _ _ _ _ H).
Qed.

(** ** The average of the run pools the durations of all cycles *)

Lemma sumZ_concat (ls : list (list Z)) : sumZ (concat ls) = sumZ (sumZ <$> ls).
Proof.
  induction ls as [|l ls IH]; [reflexivity|].
  cbn [concat fmap list_fmap]. rewrite sumZ_app, IH. reflexivity.
Qed.

(** C3. The average of the report is computed from the pool of the
    durations of all successful results of the run: it is the text of the
    quotient of the sum of the pool by SuccessCount, the sum being the sum
    over the cycles of their sums and SuccessCount the sum of their
    counts, so that every cycle weighs by its number of successes.  It is
    not the mean of the averages of the cycles: in the example run these
    are 100ms and 400ms, their mean is 250ms, and the report says 200ms,
    the mean of 100ms, 100ms and 400ms.  The width is one for which
    the channel of a cycle can be made, at most 3909374676535; beyond it
    the first cycle panics. *)
Theorem run_average_is_pooled_mean :
  (0 <= numGoroutines <= runtime.maxWidth ->
   1 <= maxCycles < MaxInt64 ->
   numGoroutines * maxCycles <= MaxInt64 ->
   forall fuel : nat, (Z.to_nat maxCycles < fuel)%nat ->
     exists (final : Report.t) (trace : list Event),
       runAPITest fuel = Done (final, trace) /\
       let pools := (fun c => latencies (results c)) <$> seqZ 1 maxCycles in
       Report.SuccessCount final = Z.of_nat (length (concat pools)) /\
       Report.SuccessCount final =
         sumZ (CycleStats.SuccessCount <$> Report.CycleDetails final) /\
       sumZ (concat pools) = sumZ (sumZ <$> pools) /\
       ((forall c id,
           fst (ParseDuration (time.Duration_String (since c id)))
           = since c id) ->
        pools = measured <$> seqZ 1 maxCycles) /\
       (0 < Report.SuccessCount final ->
        Report.AvgDurationMS final =
          time.Duration_String
            (Z.quot (sumDurations (concat pools)) (Report.SuccessCount final)) /\
        (MinInt64 <= sumZ (concat pools) <= MaxInt64 ->
         Report.AvgDurationMS final =
           time.Duration_String
             (Z.quot (sumZ (sumZ <$> pools))
                (sumZ (CycleStats.SuccessCount
                         <$> Report.CycleDetails final)))))) /\
  (exists (final : Report.t) (trace : list Event),
     Example.run = Done (final, trace) /\
     CycleStats.AvgDurationMS <$> Report.CycleDetails final
       = ["100ms"; "400ms"]%string /\
     meanOfCycleAverages time.ParseDuration (Report.CycleDetails final)
       = Done (250 * time.Millisecond) /\
     Report.AvgDurationMS final = "200ms"%string /\
     Report.AvgDurationMS final <>
       time.Duration_String (250 * time.Millisecond)).
Proof.
  split.
  - intros HW HC Hfit fuel Hfuel. pose proof (proj1 HW) as HN.
    exists finalReport, finalTrace.
    split; [apply runAPITest_spec; lia|].
    pose proof run_length as Hrun. specialize (Hrun HN ltac:(lia)).
    set (all := allResults (seqZ 1 maxCycles)) in *.
    pose proof (successes_length_le all) as Hs.
    assert (Hpool : concat ((fun c => latencies (results c))
                              <$> seqZ 1 maxCycles) = latencies all).
    { unfold all. symmetry. apply latencies_allResults. }
    assert (Hsum : Z.of_nat (length (successes all)) =
                   sumZ (CycleStats.SuccessCount
                           <$> Report.CycleDetails finalReport)).
    { unfold finalReport. cbn [Report.CycleDetails].
      unfold all. rewrite successes_allResults, length_concat_sumZ.
      rewrite <- !list_fmap_compose. apply sumZ_fmap_ext.
      intros c _. unfold compose. symmetry.
      apply cycleSummary_success. nia. }
    cbv zeta. rewrite Hpool, <- Hsum.
    unfold finalReport. fold all.
    cbn [Report.SuccessCount Report.AvgDurationMS Report.CycleDetails].
    rewrite incrN_zero by lia.
    rewrite <- sumZ_concat, Hpool.
    rewrite latencies_length.
    split; [reflexivity|]. split; [reflexivity|]. split; [reflexivity|].
    split.
    { intros Hinv. apply list_fmap_ext. intros i c _.
      apply latencies_measured. intros id. apply Hinv. }
    intros Hpos. unfold average. rewrite latencies_length.
    destruct (Z.ltb_spec 0 (Z.of_nat (length (successes all)))); [|lia].
    split; [reflexivity|].
    intros Hfits. rewrite sumDurations_exact by exact Hfits. reflexivity.
  - eexists; eexists. split; [vm_compute; reflexivity|].
    split; [vm_compute; reflexivity|].
    split; [vm_compute; reflexivity|].
    split; [vm_compute; reflexivity|].
    vm_compute. discriminate.
Qed.

End Properties.

(** ** The probe *)

Lemma url_Error_nonempty (Op quotedURL Err : string) :
  url_Error Op quotedURL Err <> EmptyString.
Proof.
  unfold url_Error. destruct Op as [|c Op]; discriminate.
Qed.

(** C4. The result of a probe is classified by the error of the transport
    alone.  When [http.Get] returns a response, whatever its status, the
    result passes the test of success, carries the status text, from
    which the reduction reads the code, and has no error text.  When
    [http.Get] returns an error, whose message is not empty, the result
    fails the test, carries the message and has no status; this is so for
    every message of a [*url.Error], the errors of [http.Get].  The text
    of the measured duration is present in both cases. *)
Theorem checkStatus_classifies_by_transport (url : string) (id duration : Z) :
  (forall status : string,
     let r := checkStatus url id (Response status) duration in
     succeeded r = true /\
     RequestResult.Status r = status /\
     statusCode r = default 0 (fmt.Sscanf_d status) /\
     RequestResult.Error r = EmptyString /\
     RequestResult.Duration r = time.Duration_String duration /\
     RequestResult.Duration r <> EmptyString /\
     RequestResult.ID r = id /\ RequestResult.URL r = url) /\
  (forall msg : string,
     msg <> EmptyString ->
     let r := checkStatus url id (TransportError msg) duration in
     succeeded r = false /\
     RequestResult.Error r = msg /\
     RequestResult.Status r = EmptyString /\
     RequestResult.Duration r = time.Duration_String duration /\
     RequestResult.Duration r <> EmptyString /\
     RequestResult.ID r = id /\ RequestResult.URL r = url) /\
  (forall Op quotedURL Err : string,
     let r := checkStatus url id
                (TransportError (url_Error Op quotedURL Err)) duration in
     succeeded r = false /\
     RequestResult.Error r = url_Error Op quotedURL Err /\
     RequestResult.Status r = EmptyString /\
     RequestResult.Duration r = time.Duration_String duration).
Proof.
  assert (Herr : forall msg : string,
             msg <> EmptyString ->
             let r := checkStatus url id (TransportError msg) duration in
             succeeded r = false /\
             RequestResult.Error r = msg /\
             RequestResult.Status r = EmptyString /\
             RequestResult.Duration r = time.Duration_String duration /\
             RequestResult.Duration r <> EmptyString /\
             RequestResult.ID r = id /\ RequestResult.URL r = url).
  { intros msg Hmsg r. subst r. unfold checkStatus, succeeded.
    cbn [RequestResult.ID RequestResult.URL RequestResult.Status
           RequestResult.Error RequestResult.Duration].
    split; [apply String.eqb_neq; exact Hmsg|].
    split; [reflexivity|]. split; [reflexivity|]. split; [reflexivity|].
    split; [apply Duration_String_nonempty|].
    split; reflexivity. }
  split; [|split].
  - intros status r. subst r. unfold checkStatus, succeeded, statusCode.
    cbn [RequestResult.ID RequestResult.URL RequestResult.Status
           RequestResult.Error RequestResult.Duration].
    split; [reflexivity|]. split; [reflexivity|].
    split; [destruct (fmt.Sscanf_d status); reflexivity|].
    split; [reflexivity|]. split; [reflexivity|].
    split; [apply Duration_String_nonempty|].
    split; reflexivity.
  - exact Herr.
  - intros Op quotedURL Err.
    destruct (Herr _ (url_Error_nonempty Op quotedURL Err))
      as (H1 & H2 & H3 & H4 & _).
    repeat split; assumption.
Qed.

(** A transport error with an empty message, which [net/http] never
    produces, would pass the test of success. *)
Remark empty_message_passes (url : string) (id duration : Z) :
  succeeded (checkStatus url id (TransportError EmptyString) duration) = true.
Proof. reflexivity. Qed.

(** ** A cycle of width zero *)

(** C7. With a width of 0 the loop body launches nothing, finds the
    channel empty and appends statistics with all counts 0, an empty
    histogram and no average; it does not fail.  A whole run of such
    cycles returns a report of zeros with one such entry per cycle. *)
Theorem zero_width_cycle_is_empty
  (ParseDuration : string -> Z * option string) (url : string)
  (maxCycles : Z) (http_Get : Z -> Z -> GetResult) (since : Z -> Z -> Z)
  (sched : Z -> list nat) :
  (forall (cycle : Z) (st : RunState),
     runCycle ParseDuration url 0 http_Get since sched cycle st =
     Done (mkRun
             (ReportUpd.appendCycle
                (CycleStats.mk cycle 0 0 0 EmptyString ∅) (run_report st))
             (run_totalDurations st)
             (run_trace st ++ [EvProgress cycle; EvWait cycle]))) /\
  (maxCycles < MaxInt64 ->
   forall fuel : nat, (Z.to_nat maxCycles < fuel)%nat ->
     runAPITest ParseDuration url 0 maxCycles http_Get since sched fuel =
     Done (Report.mk 0 0 0 EmptyString ∅
             ((fun c => CycleStats.mk c 0 0 0 EmptyString ∅)
                <$> seqZ 1 maxCycles),
           concat ((fun c => [EvProgress c; EvWait c]) <$> seqZ 1 maxCycles))).
Proof.
  split.
  - intros cycle st. rewrite runCycle_made by (vm_compute; reflexivity).
    destruct st as [[] ? ?]. unfold stateAfter, ReportUpd.appendCycle.
    cbn. unfold incrN. cbn. rewrite !app_nil_r. reflexivity.
  - intros Hmax fuel Hfuel.
    rewrite runAPITest_spec
      by (try assumption; rewrite ?maxWidth_value; lia).
    assert (Hall : forall cs,
               allResults url 0 http_Get since sched cs = []).
    { induction cs as [|c cs IH]; [reflexivity | exact IH]. }
    unfold finalReport, finalTrace. rewrite Hall. reflexivity.
Qed.

(** ** The status code *)

Lemma append_nil_l (s : string) : (EmptyString ++ s)%string = s.
Proof. reflexivity. Qed.

Lemma append_cons (c : ascii) (s t : string) :
  (String c s ++ t)%string = String c (s ++ t)%string.
Proof. reflexivity. Qed.

Lemma digits_app (ds rest : string) :
  isDigits ds = true -> startsWithDigit rest = false ->
  fmt.digits (ds ++ rest) = (ds, rest).
Proof.
  intros Hds Hrest.
  induction ds as [|c ds IH]; cbn [isDigits] in Hds.
  - rewrite append_nil_l. destruct rest as [|c rest]; [reflexivity|].
    cbn [startsWithDigit] in Hrest. cbn [fmt.digits].
    rewrite Hrest. reflexivity.
  - apply andb_prop in Hds. destruct Hds as [Hc Hds].
    rewrite append_cons. cbn [fmt.digits].
    rewrite Hc, (IH Hds). reflexivity.
Qed.

Lemma digit_not_space (c : ascii) (s : string) :
  fmt.isDigit c = true -> fmt.SkipSpace (String c s) = Some (String c s).
Proof.
  unfold fmt.isDigit. intros H. apply andb_prop in H. destruct H as [H1 H2].
  apply Z.leb_le in H1, H2.
  cbn [fmt.SkipSpace].
  destruct (Z.eqb_spec (fmt.byte c) 10); [lia|].
  assert (Hs1 : fmt.isSpace1 (fmt.byte c) = false).
  { unfold fmt.isSpace1.
    destruct (Z.leb_spec (fmt.byte c) 13); [lia|].
    destruct (Z.eqb_spec (fmt.byte c) 32); [lia|].
    rewrite andb_false_r. reflexivity. }
  rewrite Hs1.
  assert (Hs2 : forall b, fmt.isSpace2 (fmt.byte c) b = false).
  { intros b. unfold fmt.isSpace2.
    destruct (Z.eqb_spec (fmt.byte c) 194); [lia | reflexivity]. }
  assert (Hs3 : forall b b', fmt.isSpace3 (fmt.byte c) b b' = false).
  { intros b b'. unfold fmt.isSpace3.
    destruct (Z.eqb_spec (fmt.byte c) 225); [lia|].
    destruct (Z.eqb_spec (fmt.byte c) 226); [lia|].
    destruct (Z.eqb_spec (fmt.byte c) 227); [lia|].
    reflexivity. }
  destruct s as [|c2 [|c3 s]]; rewrite ?Hs2, ?Hs3; reflexivity.
Qed.

Lemma digit_not_sign (c : ascii) : fmt.isDigit c = true -> fmt.isSign c = false.
Proof.
  unfold fmt.isDigit, fmt.isSign. intros H.
  apply andb_prop in H. destruct H as [H1 H2]. apply Z.leb_le in H1, H2.
  destruct (Z.eqb_spec (fmt.byte c) 43); [lia|].
  destruct (Z.eqb_spec (fmt.byte c) 45); [lia | reflexivity].
Qed.

Lemma decimal_nonneg (ds : string) (acc : Z) :
  isDigits ds = true -> 0 <= acc -> 0 <= fmt.decimal acc ds.
Proof.
  revert acc. induction ds as [|c ds IH]; intros acc Hds Hacc; simpl in *.
  - exact Hacc.
  - apply andb_prop in Hds. destruct Hds as [Hc Hds].
    unfold fmt.isDigit in Hc. apply andb_prop in Hc. destruct Hc as [H1 H2].
    apply Z.leb_le in H1, H2. apply IH; [exact Hds | lia].
Qed.

(** A status text that starts with digits scans to their decimal value. *)
Lemma Sscanf_leading_digits (ds rest : string) :
  ds <> EmptyString -> isDigits ds = true -> startsWithDigit rest = false ->
  fmt.decimal 0 ds <= MaxInt64 ->
  fmt.Sscanf_d (ds ++ rest) = Some (fmt.decimal 0 ds).
Proof.
  intros Hne Hds Hrest Hfit.
  destruct ds as [|c ds]; [contradiction|].
  pose proof Hds as Hds'. simpl in Hds'.
  apply andb_prop in Hds'. destruct Hds' as [Hc _].
  unfold fmt.Sscanf_d. rewrite append_cons.
  rewrite (digit_not_space c _ Hc).
  unfold fmt.scanInt. rewrite (digit_not_sign c Hc).
  rewrite <- append_cons, (digits_app _ _ Hds Hrest).
  assert (Hneg : (fmt.byte c =? 45) = false).
  { unfold fmt.isDigit in Hc. apply andb_prop in Hc. destruct Hc as [H1 H2].
    apply Z.leb_le in H1, H2. apply Z.eqb_neq. lia. }
  rewrite Hneg. unfold fmt.ParseInt.
  pose proof (decimal_nonneg (String c ds) 0 Hds ltac:(lia)) as H0.
  destruct (Z.leb_spec MinInt64 (fmt.decimal 0 (String c ds)));
    [|unfold MinInt64 in *; lia].
  destruct (Z.leb_spec (fmt.decimal 0 (String c ds)) MaxInt64); [|lia].
  reflexivity.
Qed.

(** A status text that does not begin with an integer does not scan. *)
Lemma Sscanf_no_integer (s : string) :
  beginsWithInteger s = false -> fmt.Sscanf_d s = None.
Proof.
  unfold beginsWithInteger, fmt.Sscanf_d.
  destruct (fmt.SkipSpace s) as [[|c s']|]; try reflexivity.
  unfold fmt.scanInt. intros H.
  destruct (fmt.isSign c).
  - destruct s' as [|c' s'']; [reflexivity|].
    simpl in H. simpl. rewrite H. reflexivity.
  - simpl in H. simpl. rewrite H. reflexivity.
Qed.

Lemma allAsciiDigits_isDigits (s : string) : allAsciiDigits s = isDigits s.
Proof.
  induction s as [|c s IH]; [reflexivity|].
  cbn [allAsciiDigits isDigits]. rewrite IH. reflexivity.
Qed.

Lemma firstIsAsciiDigit_startsWithDigit (s : string) :
  firstIsAsciiDigit s = startsWithDigit s.
Proof. destruct s; reflexivity. Qed.

(** The scanner's conversion of a text of digits is their positional
    value. *)
Lemma decimal_positional (ds : string) (acc : Z) :
  fmt.decimal acc ds =
  acc * 10 ^ Z.of_nat (String.length ds) + positional ds.
Proof.
  revert acc. induction ds as [|c ds IH]; intros acc.
  - simpl. lia.
  - cbn [fmt.decimal positional String.length]. rewrite IH.
    rewrite Nat2Z.inj_succ, Z.pow_succ_r by lia.
    unfold fmt.byte, asciiCode. ring.
Qed.

(** Digits that write a number beyond the range of [int] do not scan. *)
Lemma Sscanf_out_of_range_digits (ds rest : string) :
  ds <> EmptyString -> isDigits ds = true -> startsWithDigit rest = false ->
  MaxInt64 < fmt.decimal 0 ds ->
  fmt.Sscanf_d (ds ++ rest) = None.
Proof.
  intros Hne Hds Hrest Hbig.
  destruct ds as [|c ds]; [contradiction|].
  pose proof Hds as Hds'. simpl in Hds'.
  apply andb_prop in Hds'. destruct Hds' as [Hc _].
  unfold fmt.Sscanf_d. rewrite append_cons.
  rewrite (digit_not_space c _ Hc).
  unfold fmt.scanInt. rewrite (digit_not_sign c Hc).
  rewrite <- append_cons, (digits_app _ _ Hds Hrest).
  assert (Hneg : (fmt.byte c =? 45) = false).
  { unfold fmt.isDigit in Hc. apply andb_prop in Hc. destruct Hc as [H1 H2].
    apply Z.leb_le in H1, H2. apply Z.eqb_neq. lia. }
  rewrite Hneg. unfold fmt.ParseInt.
  destruct (Z.leb_spec (fmt.decimal 0 (String c ds)) MaxInt64); [lia|].
  rewrite andb_false_r. reflexivity.
Qed.

(** A text that starts with a letter does not begin with an integer. *)
Lemma letter_not_integer (s : string) :
  firstIsAsciiLetter s = true -> beginsWithInteger s = false.
Proof.
  destruct s as [|c s]; [discriminate|].
  cbn [firstIsAsciiLetter]. unfold asciiLetter, asciiCode. intros Hl.
  assert (Hb : 65 <= fmt.byte c <= 90 \/ 97 <= fmt.byte c <= 122).
  { unfold fmt.byte. apply orb_prop in Hl.
    destruct Hl as [H|H]; apply andb_prop in H; destruct H as [H1 H2];
      apply Z.leb_le in H1, H2; lia. }
  assert (Hskip : fmt.SkipSpace (String c s) = Some (String c s)).
  { cbn [fmt.SkipSpace].
    destruct (Z.eqb_spec (fmt.byte c) 10); [lia|].
    assert (Hs1 : fmt.isSpace1 (fmt.byte c) = false).
    { unfold fmt.isSpace1.
      destruct (Z.leb_spec (fmt.byte c) 13); [lia|].
      destruct (Z.eqb_spec (fmt.byte c) 32); [lia|].
      rewrite andb_false_r. reflexivity. }
    rewrite Hs1.
    assert (Hs2 : forall b, fmt.isSpace2 (fmt.byte c) b = false).
    { intros b. unfold fmt.isSpace2.
      destruct (Z.eqb_spec (fmt.byte c) 194); [lia | reflexivity]. }
    assert (Hs3 : forall b b', fmt.isSpace3 (fmt.byte c) b b' = false).
    { intros b b'. unfold fmt.isSpace3.
      destruct (Z.eqb_spec (fmt.byte c) 225); [lia|].
      destruct (Z.eqb_spec (fmt.byte c) 226); [lia|].
      destruct (Z.eqb_spec (fmt.byte c) 227); [lia|].
      reflexivity. }
    destruct s as [|c2 [|c3 s]]; rewrite ?Hs2, ?Hs3; reflexivity. }
  unfold beginsWithInteger. rewrite Hskip.
  assert (Hsign : fmt.isSign c = false).
  { unfold fmt.isSign.
    destruct (Z.eqb_spec (fmt.byte c) 43); [lia|].
    destruct (Z.eqb_spec (fmt.byte c) 45); [lia | reflexivity]. }
  rewrite Hsign. cbn [startsWithDigit]. unfold fmt.isDigit.
  destruct (Z.leb_spec 48 (fmt.byte c)); [|reflexivity].
  destruct (Z.leb_spec (fmt.byte c) 57); [lia | reflexivity].
Qed.

Lemma countedUnder_incrCode (k : Z) (m : gmap Z Z) :
  countedUnder k m (incrCode k m).
Proof.
  unfold countedUnder, incrCode, incr. split; [|split].
  - apply lookup_insert_eq.
  - intros Hfit. rewrite lookup_insert_eq. f_equal.
    apply wrap64_id. unfold MinInt64, MaxInt64 in *. lia.
  - intros j Hj. apply lookup_insert_ne. congruence.
Qed.

(** C10. The key under which a successful result is counted, in the
    histogram of the cycle and in that of the report, is the number that
    scanning its status text with the verb [%d] yields.  For a text that
    starts with decimal digits, such as "200 OK", it is the number that
    these digits write (200), provided that it fits an [int].  It is 0 when
    the scan fails: for the empty text, for a text that starts with a
    letter, more generally for a text that does not begin with a decimal
    integer, and for digits that write a number beyond the range of
    [int]; the error of the scan is dropped and the result is counted all
    the same, as a success and under key 0.  Counting under a key adds one
    to the count of that key, which is 0 for a new key, and leaves every
    other key alone. *)
Theorem status_code_is_scanned_integer
  (ParseDuration : string -> Z * option string) (a : Acc)
  (r : RequestResult.t) :
  succeeded r = true ->
  (countedUnder (statusCode r)
     (Report.ResponseCodes (report a))
     (Report.ResponseCodes (report (reduce ParseDuration a r))) /\
   countedUnder (statusCode r)
     (CycleStats.ResponseCodes (cycleStats a))
     (CycleStats.ResponseCodes (cycleStats (reduce ParseDuration a r))) /\
   Report.SuccessCount (report (reduce ParseDuration a r)) =
     incr (Report.SuccessCount (report a)) /\
   Report.ErrorCount (report (reduce ParseDuration a r)) =
     Report.ErrorCount (report a)) /\
  (Report.ResponseCodes (report (reduce ParseDuration a r)) =
     incrCode (statusCode r) (Report.ResponseCodes (report a)) /\
   CycleStats.ResponseCodes (cycleStats (reduce ParseDuration a r)) =
     incrCode (statusCode r) (CycleStats.ResponseCodes (cycleStats a))) /\
  (forall ds rest : string,
     RequestResult.Status r = (ds ++ rest)%string ->
     ds <> EmptyString -> allAsciiDigits ds = true ->
     firstIsAsciiDigit rest = false ->
     (positional ds <= MaxInt64 -> statusCode r = positional ds) /\
     (MaxInt64 < positional ds -> statusCode r = 0)) /\
  (RequestResult.Status r = EmptyString \/
   firstIsAsciiLetter (RequestResult.Status r) = true ->
   statusCode r = 0) /\
  (forall v : Z,
     fmt.Sscanf_d (RequestResult.Status r) = Some v -> statusCode r = v) /\
  (fmt.Sscanf_d (RequestResult.Status r) = None -> statusCode r = 0) /\
  (beginsWithInteger (RequestResult.Status r) = false -> statusCode r = 0).
Proof.
  intros Hsucc.
  assert (Hred : Report.ResponseCodes (report (reduce ParseDuration a r)) =
                   incrCode (statusCode r) (Report.ResponseCodes (report a)) /\
                 CycleStats.ResponseCodes
                   (cycleStats (reduce ParseDuration a r)) =
                   incrCode (statusCode r)
                     (CycleStats.ResponseCodes (cycleStats a)) /\
                 Report.SuccessCount (report (reduce ParseDuration a r)) =
                   incr (Report.SuccessCount (report a)) /\
                 Report.ErrorCount (report (reduce ParseDuration a r)) =
                   Report.ErrorCount (report a)).
  { unfold reduce. rewrite Hsucc. cbn. repeat split; reflexivity. }
  destruct Hred as (Hr & Hc & Hs & He).
  assert (Hnone : beginsWithInteger (RequestResult.Status r) = false ->
                  statusCode r = 0).
  { intros Hno. apply Sscanf_no_integer in Hno.
    unfold statusCode. rewrite Hno. reflexivity. }
  split; [|split; [|split; [|split; [|split; [|split]]]]].
  - split; [rewrite Hr; apply countedUnder_incrCode|].
    split; [rewrite Hc; apply countedUnder_incrCode|].
    split; assumption.
  - split; assumption.
  - intros ds rest Hst Hne Hds Hrest.
    rewrite allAsciiDigits_isDigits in Hds.
    rewrite firstIsAsciiDigit_startsWithDigit in Hrest.
    pose proof (decimal_positional ds 0) as Hval.
    rewrite Z.mul_0_l, Z.add_0_l in Hval. rewrite <- Hval.
    unfold statusCode. rewrite Hst. split.
    + intros Hfit. rewrite Sscanf_leading_digits by assumption. reflexivity.
    + intros Hbig.
      rewrite Sscanf_out_of_range_digits by assumption. reflexivity.
  - intros [Hempty|Hletter].
    + unfold statusCode. rewrite Hempty. reflexivity.
    + apply Hnone, letter_not_integer, Hletter.
  - intros v Hv. unfold statusCode. rewrite Hv. reflexivity.
  - intros Hn. unfold statusCode. rewrite Hn. reflexivity.
  - exact Hnone.
Qed.

(** * The example run, and the theorems at work on it *)

Example Sscanf_200_OK : fmt.Sscanf_d "200 OK" = Some 200.
Proof. reflexivity. Qed.

Example Sscanf_no_number : fmt.Sscanf_d "OK" = None.
Proof. reflexivity. Qed.

Example Sscanf_out_of_range : fmt.Sscanf_d "99999999999999999999 OK" = None.
Proof. reflexivity. Qed.

Example Duration_String_examples :
  time.Duration_String 0 = "0s"%string /\
  time.Duration_String 999 = "999ns"%string /\
  time.Duration_String 1234000 = "1.234ms"%string /\
  time.Duration_String 1500000000 = "1.5s"%string /\
  time.Duration_String 9900000000000 = "2h45m0s"%string /\
  time.Duration_String (2 ^ 63 - 1) = "2562047h47m16.854775807s"%string.
Proof. vm_compute. repeat split; reflexivity. Qed.

Example ParseDuration_examples :
  time.ParseDuration "1.5s" = (1500000000, None) /\
  time.ParseDuration "2h45m0s" = (9900000000000, None) /\
  time.ParseDuration (time.Duration_String 1234567) = (1234567, None) /\
  time.ParseDuration (time.Duration_String 1234) = (1234, None) /\
  time.ParseDuration (time.Duration_String (2 ^ 63 - 1)) = (2 ^ 63 - 1, None) /\
  time.ParseDuration "1" = (0, Some time.invalid).
Proof. vm_compute. repeat split; reflexivity. Qed.

Example run_report_and_trace :
  Example.run =
  Done (Report.mk 4 3 1 "200ms" {[ 200 := 3 ]}
          [CycleStats.mk 1 2 2 0 "100ms" {[ 200 := 2 ]};
           CycleStats.mk 2 2 1 1 "400ms" {[ 200 := 1 ]}],
        [EvProgress 1; EvGo 1 0; EvGo 1 1; EvWait 1;
         EvProgress 2; EvGo 2 0; EvGo 2 1; EvWait 2]).
Proof. vm_compute. reflexivity. Qed.

Example negative_width_panics :
  runAPITest time.ParseDuration Example.url (-1) 2
    Example.http_Get Example.since Example.sched 3
  = Panic "makechan: size out of range".
Proof. reflexivity. Qed.

Lemma cycle_reduces_exactly_N_witness :
  1 <= 2 <= runtime.maxWidth /\
  2 < MaxInt64 /\
  exists (final : Report.t) (trace : list Event),
    Example.run = Done (final, trace) /\
    Forall (fun cs =>
              CycleStats.TotalRequests cs = 2 /\
              CycleStats.SuccessCount cs + CycleStats.ErrorCount cs = 2)
      (Report.CycleDetails final).
Proof.
  assert (H1 : 1 <= 2 <= runtime.maxWidth) by (rewrite maxWidth_value; lia).
  assert (H2 : 2 < MaxInt64) by (unfold MaxInt64; lia).
  split; [exact H1|]. split; [exact H2|].
  destruct (cycle_reduces_exactly_N time.ParseDuration Example.url 2 2
              Example.http_Get Example.since Example.sched H1)
    as (_ & _ & Hrun).
  apply (Hrun H2 3%nat). vm_compute. lia.
Defined.

Lemma report_merges_cycles_witness :
  0 <= 2 <= runtime.maxWidth /\ 1 <= 2 < MaxInt64 /\ 2 * 2 <= MaxInt64 /\
  exists (final : Report.t) (trace : list Event),
    Example.run = Done (final, trace) /\
    Report.TotalRequests final = 2 * 2 /\
    CycleStats.CycleNumber <$> Report.CycleDetails final = seqZ 1 2.
Proof.
  assert (H1 : 0 <= 2 <= runtime.maxWidth) by (rewrite maxWidth_value; lia).
  assert (H2 : 1 <= 2 < MaxInt64) by (unfold MaxInt64; lia).
  assert (H3 : 2 * 2 <= MaxInt64) by (unfold MaxInt64; lia).
  split; [exact H1|]. split; [exact H2|]. split; [exact H3|].
  destruct (report_merges_cycles time.ParseDuration Example.url 2 2
              Example.http_Get Example.since Example.sched H1 H2 H3 3%nat)
    as (final & trace & Hrun & _ & Htotal & _ & _ & _ & _ & Hnum & _).
  { vm_compute. lia. }
  exists final, trace. split; [exact Hrun|]. split; [exact Htotal | exact Hnum].
Defined.

Lemma run_average_is_pooled_mean_witness :
  0 <= 2 <= runtime.maxWidth /\ 1 <= 2 < MaxInt64 /\ 2 * 2 <= MaxInt64 /\
  exists (final : Report.t) (trace : list Event),
    Example.run = Done (final, trace) /\
    Report.SuccessCount final =
      sumZ (CycleStats.SuccessCount <$> Report.CycleDetails final).
Proof.
  assert (H1 : 0 <= 2 <= runtime.maxWidth) by (rewrite maxWidth_value; lia).
  assert (H2 : 1 <= 2 < MaxInt64) by (unfold MaxInt64; lia).
  assert (H3 : 2 * 2 <= MaxInt64) by (unfold MaxInt64; lia).
  split; [exact H1|]. split; [exact H2|]. split; [exact H3|].
  destruct (run_average_is_pooled_mean time.ParseDuration Example.url 2 2
              Example.http_Get Example.since Example.sched) as [Hall _].
  destruct (Hall H1 H2 H3 3%nat) as (final & trace & Hrun & _ & Hsum & _).
  { vm_compute. lia. }
  exists final, trace. split; [exact Hrun | exact Hsum].
Defined.

(** In the example run the parser inverts the printer on the measured
    durations, and the pool consists of these. *)
Example run_pools_measured :
  (fun c => latencies time.ParseDuration
              (results Example.url 2 Example.http_Get Example.since
                 Example.sched c)) <$> seqZ 1 2
  = [[100 * time.Millisecond; 100 * time.Millisecond];
     [400 * time.Millisecond]].
Proof. vm_compute. reflexivity. Qed.

Lemma checkStatus_classifies_by_transport_witness :
  "connection refused"%string <> EmptyString /\
  succeeded (checkStatus Example.url 0 (TransportError "connection refused") 5)
  = false.
Proof.
  assert (H : "connection refused"%string <> EmptyString) by discriminate.
  split; [exact H|].
  destruct (checkStatus_classifies_by_transport Example.url 0 5)
    as (_ & Herr & _).
  apply (Herr "connection refused"%string H).
Defined.

Lemma histogram_sums_to_successes_witness :
  0 <= 2 <= runtime.maxWidth /\ 1 <= 2 < MaxInt64 /\ 2 * 2 <= MaxInt64 /\
  exists (final : Report.t) (trace : list Event),
    Example.run = Done (final, trace) /\
    histTotal (Report.ResponseCodes final) = Report.SuccessCount final.
Proof.
  assert (H1 : 0 <= 2 <= runtime.maxWidth) by (rewrite maxWidth_value; lia).
  assert (H2 : 1 <= 2 < MaxInt64) by (unfold MaxInt64; lia).
  assert (H3 : 2 * 2 <= MaxInt64) by (unfold MaxInt64; lia).
  split; [exact H1|]. split; [exact H2|]. split; [exact H3|].
  destruct (histogram_sums_to_successes time.ParseDuration Example.url 2 2
              Example.http_Get Example.since Example.sched H1 H2 H3 3%nat)
    as (final & trace & Hrun & Hsum & _).
  { vm_compute. lia. }
  exists final, trace. split; [exact Hrun | exact Hsum].
Defined.

Lemma average_unset_without_success_witness :
  0 <= 2 <= runtime.maxWidth /\ 1 <= 2 < MaxInt64 /\ 2 * 2 <= MaxInt64 /\
  exists (final : Report.t) (trace : list Event),
    runAPITest time.ParseDuration Example.url 2 2
      (fun _ _ => TransportError "connection refused") Example.since
      Example.sched 3 = Done (final, trace) /\
    Report.SuccessCount final = 0 /\
    Report.AvgDurationMS final = EmptyString /\
    Report.AvgDurationMS final <> time.Duration_String 0.
Proof.
  assert (H1 : 0 <= 2 <= runtime.maxWidth) by (rewrite maxWidth_value; lia).
  assert (H2 : 1 <= 2 < MaxInt64) by (unfold MaxInt64; lia).
  assert (H3 : 2 * 2 <= MaxInt64) by (unfold MaxInt64; lia).
  split; [exact H1|]. split; [exact H2|]. split; [exact H3|].
  destruct (average_unset_without_success time.ParseDuration Example.url 2 2
              (fun _ _ => TransportError "connection refused") Example.since
              Example.sched H1 H2 H3 3%nat)
    as (final & trace & Hrun & Hunset & _).
  { vm_compute. lia. }
  assert (Hzero : Report.SuccessCount final = 0).
  { pose proof Hrun as Hrun'. vm_compute in Hrun'.
    injection Hrun' as Hfinal _. rewrite <- Hfinal. reflexivity. }
  exists final, trace.
  split; [exact Hrun|]. split; [exact Hzero | exact (Hunset Hzero)].
Defined.

Lemma zero_width_cycle_is_empty_witness :
  2 < MaxInt64 /\
  runAPITest time.ParseDuration Example.url 0 2
    Example.http_Get Example.since Example.sched 3 =
  Done (Report.mk 0 0 0 EmptyString ∅
          [CycleStats.mk 1 0 0 0 EmptyString ∅;
           CycleStats.mk 2 0 0 0 EmptyString ∅],
        [EvProgress 1; EvWait 1; EvProgress 2; EvWait 2]).
Proof.
  assert (H : 2 < MaxInt64) by (unfold MaxInt64; lia).
  split; [exact H|].
  destruct (zero_width_cycle_is_empty time.ParseDuration Example.url 2
              Example.http_Get Example.since Example.sched) as [_ Hrun].
  apply (Hrun H 3%nat). vm_compute. lia.
Defined.

Lemma progress_once_per_cycle_before_dispatch_witness :
  0 <= 2 <= runtime.maxWidth /\ 1 <= 2 < MaxInt64 /\
  exists (final : Report.t) (trace : list Event),
    Example.run = Done (final, trace) /\
    progressCalls trace = seqZ 1 2.
Proof.
  assert (H1 : 0 <= 2 <= runtime.maxWidth) by (rewrite maxWidth_value; lia).
  assert (H2 : 1 <= 2 < MaxInt64) by (unfold MaxInt64; lia).
  split; [exact H1|]. split; [exact H2|].
  destruct (progress_once_per_cycle_before_dispatch time.ParseDuration
              Example.url 2 2 Example.http_Get Example.since Example.sched
              H1 H2 3%nat)
    as (final & trace & Hrun & _ & Hcalls & _).
  { vm_compute. lia. }
  exists final, trace. split; [exact Hrun | exact Hcalls].
Defined.

(** Two requests of 1ns and 2ns: the average is 1ns, the half nanosecond
    being dropped. *)
Lemma average_is_truncated_quotient_witness :
  0 <= 2 <= runtime.maxWidth /\ 1 <= 1 < MaxInt64 /\ 2 * 1 <= MaxInt64 /\
  exists (final : Report.t) (trace : list Event),
    runAPITest time.ParseDuration Example.url 2 1
      (fun _ _ => Response "200 OK") (fun _ id => if id =? 0 then 1 else 2)
      Example.sched 2 = Done (final, trace) /\
    Report.SuccessCount final = 2 /\
    isTruncatedMean [2; 1] (Report.SuccessCount final)
      (Report.AvgDurationMS final) /\
    Report.AvgDurationMS final = "1ns"%string.
Proof.
  assert (H1 : 0 <= 2 <= runtime.maxWidth) by (rewrite maxWidth_value; lia).
  assert (H2 : 1 <= 1 < MaxInt64) by (unfold MaxInt64; lia).
  assert (H3 : 2 * 1 <= MaxInt64) by (unfold MaxInt64; lia).
  split; [exact H1|]. split; [exact H2|]. split; [exact H3|].
  destruct (average_is_truncated_quotient time.ParseDuration Example.url 2 1
              (fun _ _ => Response "200 OK")
              (fun _ id => if id =? 0 then 1 else 2)
              Example.sched H1 H2 H3 2%nat)
    as (final & trace & Hrun & _ & _ & Hmeasured).
  { vm_compute. lia. }
  assert (Hinv : forall c id : Z,
             fst (time.ParseDuration
                    (time.Duration_String (if id =? 0 then 1 else 2)))
             = (if id =? 0 then 1 else 2)).
  { intros c id. destruct (id =? 0); reflexivity. }
  destruct (Hmeasured Hinv) as (_ & _ & Hmean & _).
  assert (Hfinal : Report.SuccessCount final = 2 /\
                   Report.AvgDurationMS final = "1ns"%string).
  { pose proof Hrun as Hrun'. vm_compute in Hrun'.
    injection Hrun' as Hfinal _. rewrite <- Hfinal. split; reflexivity. }
  destruct Hfinal as [Hcount Htext].
  exists final, trace.
  split; [exact Hrun|]. split; [exact Hcount|]. split; [|exact Htext].
  apply Hmean. rewrite Hcount. lia.
Defined.

Lemma status_code_is_scanned_integer_witness :
  succeeded (checkStatus Example.url 0 (Response "200 OK") 5) = true /\
  statusCode (checkStatus Example.url 0 (Response "200 OK") 5) = 200 /\
  Report.ResponseCodes
    (report
       (reduce time.ParseDuration
          (mkAcc (Report.mk 0 0 0 EmptyString ∅ [])
             (CycleStats.mk 1 0 0 0 EmptyString ∅) [] [])
          (checkStatus Example.url 0 (Response "200 OK") 5))) !! 200
  = Some 1.
Proof.
  assert (H : succeeded (checkStatus Example.url 0 (Response "200 OK") 5)
              = true) by reflexivity.
  split; [exact H|].
  destruct (status_code_is_scanned_integer time.ParseDuration
              (mkAcc (Report.mk 0 0 0 EmptyString ∅ [])
                 (CycleStats.mk 1 0 0 0 EmptyString ∅) [] [])
              (checkStatus Example.url 0 (Response "200 OK") 5) H)
    as ((Hcount & _) & _ & Hdigits & _).
  assert (Hkey : statusCode (checkStatus Example.url 0 (Response "200 OK") 5)
                 = 200).
  { destruct (Hdigits "200"%string " OK"%string) as [Hfit _].
    - reflexivity.
    - discriminate.
    - reflexivity.
    - reflexivity.
    - apply Hfit. vm_compute. discriminate. }
  split; [exact Hkey|].
  destruct Hcount as (_ & Hone & _).
  rewrite Hkey in Hone. apply Hone. vm_compute.
  split; [discriminate | reflexivity].
Defined.

(** With the parser of the [time] package, the durations that the
    reduction pools are the ones that the goroutines measured. *)
Corollary latencies_are_measured (url : string) (numGoroutines : Z)
  (http_Get : Z -> Z -> GetResult) (since : Z -> Z -> Z)
  (sched : Z -> list nat) (cycle : Z) :
  (forall id, MinInt64 <= since cycle id <= MaxInt64) ->
  latencies time.ParseDuration
    (results url numGoroutines http_Get since sched cycle)
  = measured url numGoroutines http_Get since sched cycle.
Proof.
  intros Hrange. apply latencies_measured. intros id.
  rewrite ParseDuration_String by apply Hrange. reflexivity.
Qed.

(** * Further properties of the code *)

(** ** Sums, quotients and filters *)

Lemma sumZ_bounds (ds : list Z) (lo hi : Z) :
  Forall (fun d => lo <= d <= hi) ds ->
  Z.of_nat (length ds) * lo <= sumZ ds <= Z.of_nat (length ds) * hi.
Proof.
  induction 1 as [|d ds Hd _ IH]; [simpl; lia|].
  cbn [sumZ foldr length]. fold (sumZ ds). lia.
Qed.

(** A quotient that truncates toward zero stays between the bounds of
    the terms of the sum. *)
Lemma quot_between (s n lo hi : Z) :
  0 < n -> n * lo <= s <= n * hi -> lo <= Z.quot s n <= hi.
Proof.
  intros Hn Hs.
  destruct (Z.le_gt_cases 0 s) as [Hpos|Hneg].
  - rewrite Z.quot_div_nonneg by lia.
    split.
    + destruct (Z.le_gt_cases lo 0) as [Hlo|Hlo].
      * pose proof (Z.div_pos s n Hpos Hn). lia.
      * apply Z.div_le_lower_bound; lia.
    + apply Z.div_le_upper_bound; lia.
  - replace s with (- (- s)) by lia.
    rewrite Z.quot_opp_l by lia.
    rewrite Z.quot_div_nonneg by lia.
    split.
    + assert ((- s) / n <= - lo); [|lia].
      apply Z.div_le_upper_bound; lia.
    + destruct (Z.le_gt_cases 0 hi) as [Hhi|Hhi].
      * pose proof (Z.div_pos (- s) n ltac:(lia) Hn). lia.
      * assert (- hi <= (- s) / n); [|lia].
        apply Z.div_le_lower_bound; lia.
Qed.

Lemma sumZ_Permutation (l1 l2 : list Z) : l1 ≡ₚ l2 -> sumZ l1 = sumZ l2.
Proof.
  induction 1 as [|x l1 l2 _ IH|x y l|l1 l2 l3 _ IH1 _ IH2]; simpl; lia.
Qed.

Lemma filter_Permutation_bool {A : Type} (f : A -> bool) (l1 l2 : list A) :
  l1 ≡ₚ l2 -> List.filter f l1 ≡ₚ List.filter f l2.
Proof.
  induction 1 as [|x l1 l2 _ IH|x y l|l1 l2 l3 _ IH1 _ IH2].
  - reflexivity.
  - simpl. destruct (f x); [constructor|]; exact IH.
  - simpl. destruct (f x), (f y); try reflexivity. apply perm_swap.
  - etrans; eassumption.
Qed.

Lemma filter_all {A : Type} (f : A -> bool) (l : list A) :
  (forall x, x ∈ l -> f x = true) -> List.filter f l = l.
Proof.
  induction l as [|x l IH]; intros H; [reflexivity|].
  simpl. rewrite (H x) by apply list_elem_of_here.
  f_equal. apply IH. intros y Hy. apply H, list_elem_of_further, Hy.
Qed.

Lemma filter_none {A : Type} (f : A -> bool) (l : list A) :
  (forall x, x ∈ l -> f x = false) -> List.filter f l = [].
Proof.
  induction l as [|x l IH]; intros H; [reflexivity|].
  simpl. rewrite (H x) by apply list_elem_of_here.
  apply IH. intros y Hy. apply H, list_elem_of_further, Hy.
Qed.

(** ** calculateAverageDuration on its own *)

(** X5. [calculateAverageDuration] panics, with an integer division by
    zero, on the empty slice and on nothing else.  On a non-empty slice
    whose sum fits 64 bits it returns a duration between the smallest and
    the largest of its elements.  When the sum does not fit, the result
    can leave these bounds: the average of twice the largest duration is
    -1ns. *)
Theorem calculateAverageDuration_edges :
  (forall (ds : list Z) (msg : string),
     calculateAverageDuration ds = Panic msg <->
     ds = [] /\ msg = "runtime error: integer divide by zero"%string) /\
  (forall (ds : list Z) (lo hi : Z),
     ds <> [] -> Forall (fun d => lo <= d <= hi) ds ->
     MinInt64 <= sumZ ds <= MaxInt64 ->
     exists q : Z, calculateAverageDuration ds = Done q /\ lo <= q <= hi) /\
  calculateAverageDuration [MaxInt64; MaxInt64] = Done (-1).
Proof.
  split; [|split].
  - intros ds msg. unfold calculateAverageDuration.
    destruct ds as [|d ds].
    + simpl. split.
      * intros H. injection H as <-. split; reflexivity.
      * intros [_ ->]. reflexivity.
    + destruct (Z.eqb_spec (Z.of_nat (length (d :: ds))) 0) as [H|_].
      * simpl length in H. lia.
      * split; [discriminate | intros [H _]; discriminate].
  - intros ds lo hi Hne Hall Hfit.
    assert (Hlen : (0 < length ds)%nat)
      by (destruct ds; [congruence | simpl; lia]).
    rewrite calculateAverageDuration_nonempty by exact Hlen.
    eexists. split; [reflexivity|].
    rewrite sumDurations_exact by exact Hfit.
    apply quot_between; [lia|]. apply sumZ_bounds, Hall.
  - vm_compute. reflexivity.
Qed.

(** ** The order of arrival does not matter *)

Lemma calculateAverageDuration_Permutation (ds1 ds2 : list Z) :
  ds1 ≡ₚ ds2 -> calculateAverageDuration ds1 = calculateAverageDuration ds2.
Proof.
  intros Hperm. unfold calculateAverageDuration.
  rewrite !sumDurations_wrap, (sumZ_Permutation _ _ Hperm),
    (Permutation_length Hperm).
  reflexivity.
Qed.

Lemma average_Permutation (ds1 ds2 : list Z) :
  ds1 ≡ₚ ds2 -> average ds1 = average ds2.
Proof.
  intros Hperm. unfold average.
  rewrite !sumDurations_wrap, (sumZ_Permutation _ _ Hperm),
    (Permutation_length Hperm).
  reflexivity.
Qed.

(** Two increments of a histogram commute. *)
Lemma incrCode_comm (k1 k2 : Z) (m : gmap Z Z) :
  incrCode k1 (incrCode k2 m) = incrCode k2 (incrCode k1 m).
Proof.
  destruct (decide (k1 = k2)) as [->|Hne]; [reflexivity|].
  unfold incrCode.
  rewrite !lookup_insert_ne by congruence.
  apply insert_insert_ne. congruence.
Qed.

Lemma incrCodes_Permutation (ks1 ks2 : list Z) (m : gmap Z Z) :
  ks1 ≡ₚ ks2 -> incrCodes ks1 m = incrCodes ks2 m.
Proof.
  intros Hperm. revert m.
  induction Hperm as [|k ks1 ks2 _ IH|k1 k2 ks|ks1 ks2 ks3 _ IH1 _ IH2];
    intros m.
  - reflexivity.
  - unfold incrCodes in *. simpl. apply IH.
  - unfold incrCodes. simpl. rewrite incrCode_comm. reflexivity.
  - rewrite IH1. apply IH2.
Qed.

Section Schedules.

Variable ParseDuration : string -> Z * option string.
Variable url : string.
Variables numGoroutines maxCycles : Z.
Variable http_Get : Z -> Z -> GetResult.
Variable since : Z -> Z -> Z.
Variables sched1 sched2 : Z -> list nat.

Lemma results_sched (cycle : Z) :
  results url numGoroutines http_Get since sched1 cycle
  ≡ₚ results url numGoroutines http_Get since sched2 cycle.
Proof.
  rewrite !results_Permutation. reflexivity.
Qed.

Lemma cycleSummary_sched (cycle : Z) :
  cycleSummary ParseDuration url numGoroutines http_Get since sched1 cycle
  = cycleSummary ParseDuration url numGoroutines http_Get since sched2 cycle.
Proof.
  pose proof (results_sched cycle) as Hperm.
  assert (Hs := filter_Permutation_bool succeeded _ _ Hperm).
  assert (Hf := filter_Permutation_bool (fun r => negb (succeeded r)) _ _ Hperm).
  unfold cycleSummary, codes, latencies, successes, failures.
  rewrite (Permutation_length Hperm), (Permutation_length Hs),
    (Permutation_length Hf).
  f_equal.
  - apply average_Permutation, fmap_Permutation, Hs.
  - apply incrCodes_Permutation, fmap_Permutation, Hs.
Qed.

(** Two states of the run that differ in the order of the pooled
    durations only are taken by a cycle to two such states, or to the same
    panic. *)
Lemma runCycle_sched (cycle : Z) (st1 st2 : RunState) :
  run_report st1 = run_report st2 ->
  run_totalDurations st1 ≡ₚ run_totalDurations st2 ->
  run_trace st1 = run_trace st2 ->
  match runCycle ParseDuration url numGoroutines http_Get since sched1 cycle st1,
        runCycle ParseDuration url numGoroutines http_Get since sched2 cycle st2
  with
  | Done a, Done b =>
      run_report a = run_report b /\
      run_totalDurations a ≡ₚ run_totalDurations b /\
      run_trace a = run_trace b
  | Panic m1, Panic m2 => m1 = m2
  | _, _ => False
  end.
Proof.
  intros Hr Hd Ht.
  destruct (runtime.makechan numGoroutines) eqn:Hmade.
  2: { rewrite !runCycle_refused by exact Hmade. reflexivity. }
  - rewrite !runCycle_made by exact Hmade.
    pose proof (results_sched cycle) as Hperm.
    assert (Hs := filter_Permutation_bool succeeded _ _ Hperm).
    assert (Hf := filter_Permutation_bool (fun r => negb (succeeded r)) _ _ Hperm).
    unfold stateAfter. rewrite !allResults_singleton.
    cbn [run_report run_totalDurations run_trace].
    rewrite Hr, Ht.
    change (cycleSummary ParseDuration url numGoroutines http_Get since sched1
              <$> [cycle])
      with [cycleSummary ParseDuration url numGoroutines http_Get since sched1
              cycle].
    change (cycleSummary ParseDuration url numGoroutines http_Get since sched2
              <$> [cycle])
      with [cycleSummary ParseDuration url numGoroutines http_Get since sched2
              cycle].
    rewrite cycleSummary_sched.
    unfold codes, latencies, successes, failures.
    rewrite (Permutation_length Hperm), (Permutation_length Hs),
      (Permutation_length Hf).
    rewrite (incrCodes_Permutation _ _ _ (fmap_Permutation statusCode _ _ Hs)).
    split; [reflexivity|]. split; [|reflexivity].
    apply Permutation_app; [exact Hd|].
    apply fmap_Permutation, Hs.
Qed.

Lemma cycles_sched (fuel : nat) (cycle : Z) (st1 st2 : RunState) :
  run_report st1 = run_report st2 ->
  run_totalDurations st1 ≡ₚ run_totalDurations st2 ->
  run_trace st1 = run_trace st2 ->
  match cycles ParseDuration url numGoroutines maxCycles http_Get since sched1
          fuel cycle st1,
        cycles ParseDuration url numGoroutines maxCycles http_Get since sched2
          fuel cycle st2
  with
  | Done a, Done b =>
      run_report a = run_report b /\
      run_totalDurations a ≡ₚ run_totalDurations b /\
      run_trace a = run_trace b
  | Panic m1, Panic m2 => m1 = m2
  | OutOfFuel, OutOfFuel => True
  | _, _ => False
  end.
Proof.
  revert cycle st1 st2.
  induction fuel as [|fuel IH]; intros cycle st1 st2 Hr Hd Ht; [exact I|].
  cbn [cycles]. destruct (cycle <=? maxCycles).
  - pose proof (runCycle_sched cycle st1 st2 Hr Hd Ht) as Hstep.
    destruct (runCycle ParseDuration url numGoroutines http_Get since sched1
                cycle st1) as [a|m1|],
             (runCycle ParseDuration url numGoroutines http_Get since sched2
                cycle st2) as [b|m2|]; try contradiction.
    + cbn [mbind res_bind]. destruct Hstep as (Hr' & Hd' & Ht').
      apply IH; assumption.
    + exact Hstep.
  - split; [exact Hr|]. split; assumption.
Qed.

(** X4. The outcome of a run does not depend on the order in which the
    goroutines of a cycle reach the channel: for the same answers of the
    server and the same measured durations, two schedulings give the same
    report, the same log of the main goroutine, or the same failure.  The
    counters and the histograms count regardless of order, and the sum of
    the durations, taken in 64 bits, is the same in any order. *)
Theorem report_does_not_depend_on_arrival_order (fuel : nat) :
  runAPITest ParseDuration url numGoroutines maxCycles http_Get since sched1
    fuel
  = runAPITest ParseDuration url numGoroutines maxCycles http_Get since sched2
      fuel.
Proof.
  unfold runAPITest.
  pose proof (cycles_sched fuel 1
                (mkRun (Report.mk 0 0 0 EmptyString ∅ []) [] [])
                (mkRun (Report.mk 0 0 0 EmptyString ∅ []) [] [])
                eq_refl (reflexivity _) eq_refl) as Hrun.
  destruct (cycles ParseDuration url numGoroutines maxCycles http_Get since
              sched1 fuel 1 _) as [a|m1|],
           (cycles ParseDuration url numGoroutines maxCycles http_Get since
              sched2 fuel 1 _) as [b|m2|]; try contradiction.
  - destruct Hrun as (Hr & Hd & Ht). cbn [mbind res_bind].
    rewrite Hr, Ht, (Permutation_length Hd),
      (calculateAverageDuration_Permutation _ _ Hd).
    reflexivity.
  - cbn [mbind res_bind]. f_equal. exact Hrun.
  - reflexivity.
Qed.

End Schedules.

(** ** Runs at the edges of their arguments *)

Section Edges.

Variable ParseDuration : string -> Z * option string.
Variable url : string.
Variables numGoroutines maxCycles : Z.
Variable http_Get : Z -> Z -> GetResult.
Variable since : Z -> Z -> Z.
Variable sched : Z -> list nat.

Local Abbreviation runAPITest :=
  (runAPITest ParseDuration url numGoroutines maxCycles http_Get since sched).
Local Abbreviation cycles :=
  (cycles ParseDuration url numGoroutines maxCycles http_Get since sched).

Lemma runAPITest_no_cycle (fuel : nat) :
  maxCycles <= 0 ->
  runAPITest (S fuel) = Done (Report.mk 0 0 0 EmptyString ∅ [], []).
Proof.
  intros Hmax. unfold runAPITest. cbn [cycles].
  destruct (Z.leb_spec 1 maxCycles); [lia | reflexivity].
Qed.

(** X1. With a number of cycles of zero or less the loop body never
    runs: the run returns at once the report of zeros, with an empty
    histogram, no entry in CycleDetails and no average, and [progress] is
    not called; no channel is made, so that even a negative width does no
    harm. *)
Theorem no_cycle_gives_the_empty_report :
  maxCycles <= 0 ->
  forall fuel : nat, (0 < fuel)%nat ->
    runAPITest fuel = Done (Report.mk 0 0 0 EmptyString ∅ [], []).
Proof.
  intros Hmax fuel Hfuel.
  destruct fuel as [|fuel]; [lia|].
  apply runAPITest_no_cycle, Hmax.
Qed.

Lemma cycles_no_panic (fuel : nat) (cycle : Z) (st : RunState) (msg : string) :
  runtime.makechan numGoroutines = true -> cycles fuel cycle st <> Panic msg.
Proof.
  intros HN. revert cycle st.
  induction fuel as [|fuel IH]; intros cycle st; [discriminate|].
  cbn [cycles]. destruct (cycle <=? maxCycles); [|discriminate].
  rewrite runCycle_made by exact HN. cbn [mbind res_bind]. apply IH.
Qed.

Lemma runAPITest_refused (fuel : nat) :
  runtime.makechan numGoroutines = false -> 1 <= maxCycles ->
  runAPITest (S fuel) = Panic "makechan: size out of range".
Proof.
  intros HN Hmax. unfold runAPITest. cbn [cycles].
  destruct (Z.leb_spec 1 maxCycles); [|lia].
  rewrite runCycle_refused by exact HN. reflexivity.
Qed.

(** X2. A run panics exactly when the width is one that [make(chan)]
    refuses, negative or beyond the largest buffer of 3909374676535
    values, and at least one cycle is asked for.  It then panics in the
    first cycle, with the message of [makechan].  For every other width
    nothing panics, whatever the server answers and however long the run:
    in particular no average divides by zero. *)
Theorem run_panics_exactly_when_the_width_is_refused :
  MinInt64 <= numGoroutines <= MaxInt64 ->
  ((exists (fuel : nat) (msg : string), runAPITest fuel = Panic msg) <->
   (numGoroutines < 0 \/ runtime.maxWidth < numGoroutines) /\
   1 <= maxCycles) /\
  ((numGoroutines < 0 \/ runtime.maxWidth < numGoroutines) ->
   1 <= maxCycles ->
   forall fuel : nat, (0 < fuel)%nat ->
     runAPITest fuel = Panic "makechan: size out of range") /\
  (0 <= numGoroutines <= runtime.maxWidth ->
   forall (fuel : nat) (msg : string), runAPITest fuel <> Panic msg).
Proof.
  intros Hint.
  assert (Hbad : numGoroutines < 0 \/ runtime.maxWidth < numGoroutines ->
                 runtime.makechan numGoroutines = false).
  { intros [Hneg|Hwide].
    - apply makechan_negative, Hneg.
    - apply makechan_too_wide. lia. }
  assert (Hgood : runtime.makechan numGoroutines = true ->
                  forall (fuel : nat) (msg : string),
                    runAPITest fuel <> Panic msg).
  { intros Hmade fuel msg Hrun. unfold runAPITest in Hrun.
    pose proof (cycles_no_panic fuel 1
                  (mkRun (Report.mk 0 0 0 EmptyString ∅ []) [] []) msg Hmade)
      as Hno.
    destruct (cycles fuel 1 _) as [st|m|]; cbn [mbind res_bind] in Hrun.
    - destruct (Z.ltb_spec 0 (Z.of_nat (length (run_totalDurations st))));
        [|discriminate].
      rewrite calculateAverageDuration_nonempty in Hrun by lia.
      discriminate.
    - congruence.
    - discriminate. }
  split; [|split].
  - split.
    + intros (fuel & msg & Hrun).
      destruct (runtime.makechan numGoroutines) eqn:Hmade.
      * exfalso. exact (Hgood eq_refl fuel msg Hrun).
      * split.
        -- destruct (Z.lt_ge_cases numGoroutines 0) as [Hneg|Hpos];
             [left; exact Hneg | right].
           destruct (Z.lt_ge_cases runtime.maxWidth numGoroutines)
             as [Hw|Hw]; [exact Hw|].
           rewrite makechan_width in Hmade by lia. discriminate.
        -- destruct (Z.le_gt_cases 1 maxCycles) as [H|H]; [exact H|].
           destruct fuel as [|fuel]; [discriminate|].
           rewrite runAPITest_no_cycle in Hrun by lia. discriminate.
    + intros [Hwidth Hmax].
      exists 1%nat, "makechan: size out of range"%string.
      apply runAPITest_refused; [apply Hbad, Hwidth | exact Hmax].
  - intros Hwidth Hmax fuel Hfuel.
    destruct fuel as [|fuel]; [lia|].
    apply runAPITest_refused; [apply Hbad, Hwidth | exact Hmax].
  - intros Hwidth. apply Hgood, makechan_width, Hwidth.
Qed.

End Edges.

(** X3. When the number of cycles is the largest [int] and the width is
    one for which the channel can be made, the run never returns: after
    the last cycle the counter wraps around to the smallest [int], which
    passes the test of the loop again. *)
Theorem largest_cycle_count_never_returns
  (ParseDuration : string -> Z * option string) (url : string)
  (numGoroutines : Z) (http_Get : Z -> Z -> GetResult) (since : Z -> Z -> Z)
  (sched : Z -> list nat) :
  incr MaxInt64 = MinInt64 /\
  (0 <= numGoroutines <= runtime.maxWidth ->
   forall fuel : nat,
     runAPITest ParseDuration url numGoroutines MaxInt64 http_Get since sched
       fuel = OutOfFuel).
Proof.
  split.
  - reflexivity.
  - intros HN fuel. apply runAPITest_diverges; [exact HN | reflexivity].
Qed.

(** ** Servers that always fail, and servers that always answer *)

Section Servers.

Variable ParseDuration : string -> Z * option string.
Variable url : string.
Variables numGoroutines maxCycles : Z.
Variable http_Get : Z -> Z -> GetResult.
Variable since : Z -> Z -> Z.
Variable sched : Z -> list nat.

Local Abbreviation probe := (probe url http_Get since).
Local Abbreviation results := (results url numGoroutines http_Get since sched).
Local Abbreviation allResults :=
  (allResults url numGoroutines http_Get since sched).
Local Abbreviation runAPITest :=
  (runAPITest ParseDuration url numGoroutines maxCycles http_Get since sched).
Local Abbreviation cycleSummary :=
  (cycleSummary ParseDuration url numGoroutines http_Get since sched).
Local Abbreviation finalReport :=
  (finalReport ParseDuration url numGoroutines maxCycles http_Get since sched).

Lemma elem_of_results (cycle : Z) (r : RequestResult.t) :
  r ∈ results cycle ->
  exists id, 0 <= id < numGoroutines /\ r = probe cycle id.
Proof.
  rewrite results_Permutation, list_elem_of_fmap.
  intros (id & -> & Hid). apply elem_of_seqZ in Hid.
  exists id. split; [lia | reflexivity].
Qed.

Lemma elem_of_allResults (cs : list Z) (r : RequestResult.t) :
  r ∈ allResults cs ->
  exists cycle id, cycle ∈ cs /\ 0 <= id < numGoroutines /\ r = probe cycle id.
Proof.
  unfold allResults. rewrite elem_of_concat_fmap.
  intros (cycle & Hc & Hr). apply elem_of_results in Hr.
  destruct Hr as (id & Hid & ->). eauto.
Qed.

(** X13. The results of a cycle carry the numbers 0, 1, ..., N-1 of the
    goroutines, each of them once and in the order of arrival, together
    with the address that was asked and the text of the duration that
    this goroutine measured. *)
Theorem cycle_results_carry_each_id_once (cycle : Z) :
  RequestResult.ID <$> results cycle ≡ₚ seqZ 0 numGoroutines /\
  NoDup (RequestResult.ID <$> results cycle) /\
  Forall (fun r =>
            RequestResult.URL r = url /\
            0 <= RequestResult.ID r < numGoroutines /\
            RequestResult.Duration r =
              time.Duration_String (since cycle (RequestResult.ID r)))
    (results cycle).
Proof.
  assert (Hid : forall id, RequestResult.ID (probe cycle id) = id)
    by (intros id; unfold probe, checkStatus; destruct (http_Get cycle id);
        reflexivity).
  assert (Hperm : RequestResult.ID <$> results cycle ≡ₚ seqZ 0 numGoroutines).
  { rewrite results_Permutation, <- list_fmap_compose.
    rewrite (list_fmap_ext _ id (seqZ 0 numGoroutines));
      [rewrite list_fmap_id; reflexivity|].
    intros i x _. apply Hid. }
  split; [exact Hperm|]. split.
  - rewrite Hperm. apply NoDup_seqZ.
  - apply Forall_forall. intros r Hr.
    apply elem_of_results in Hr. destruct Hr as (id & Hrange & ->).
    rewrite Hid. unfold probe, checkStatus.
    destruct (http_Get cycle id); cbn [RequestResult.URL RequestResult.Duration];
      (split; [reflexivity | split; [exact Hrange | reflexivity]]).
Qed.

(** X9. When every request fails in transport (the server is down, the
    name does not resolve), and the width is one for which the channel
    can be made, the report holds nothing but errors:
    ErrorCount is the number of requests, the width times the number of
    cycles, SuccessCount is 0, the histogram is empty and no average is
    set, in the report and in the entry of every cycle. *)
Theorem unreachable_server_gives_errors_only :
  (forall cycle id, exists msg,
      http_Get cycle id = TransportError msg /\ msg <> EmptyString) ->
  0 <= numGoroutines <= runtime.maxWidth -> 0 <= maxCycles < MaxInt64 ->
  numGoroutines * maxCycles <= MaxInt64 ->
  forall fuel : nat, (Z.to_nat maxCycles < fuel)%nat ->
    exists trace : list Event,
      runAPITest fuel =
      Done (Report.mk (numGoroutines * maxCycles) 0 (numGoroutines * maxCycles)
              EmptyString ∅
              ((fun c => CycleStats.mk c numGoroutines 0 numGoroutines
                           EmptyString ∅) <$> seqZ 1 maxCycles),
            trace).
Proof.
  intros Hdown HW HM Hfit fuel Hfuel. pose proof (proj1 HW) as HN.
  rewrite runAPITest_spec by (try assumption; lia).
  eexists. f_equal. f_equal.
  assert (Hfail : forall cycle id, succeeded (probe cycle id) = false).
  { intros cycle id. destruct (Hdown cycle id) as (msg & Hget & Hmsg).
    unfold probe. rewrite Hget.
    unfold succeeded, checkStatus. cbn [RequestResult.Error].
    apply String.eqb_neq. exact Hmsg. }
  assert (Hs : forall cs, successes (allResults cs) = []).
  { intros cs. apply filter_none. intros r Hr.
    apply elem_of_allResults in Hr. destruct Hr as (c & id & _ & _ & ->).
    apply Hfail. }
  assert (Hf : forall cs, failures (allResults cs) = allResults cs).
  { intros cs. apply filter_all. intros r Hr.
    apply elem_of_allResults in Hr. destruct Hr as (c & id & _ & _ & ->).
    rewrite Hfail. reflexivity. }
  unfold finalReport, codes, latencies.
  rewrite Hs, Hf. cbn [fmap list_fmap length].
  pose proof (run_length url numGoroutines maxCycles http_Get since sched
                HN ltac:(lia)) as Hlen.
  rewrite incrN_zero by lia. rewrite Hlen.
  f_equal.
  destruct (Z.eq_dec maxCycles 0) as [->|Hne]; [reflexivity|].
  apply list_fmap_ext. intros i c _.
  unfold cycleSummary, codes, latencies.
  rewrite <- (allResults_singleton url numGoroutines http_Get since sched c).
  rewrite Hs, Hf. cbn [fmap list_fmap length].
  rewrite allResults_singleton.
  rewrite incrN_zero by (apply cycle_fits with (maxCycles := maxCycles); lia).
  rewrite results_length. rewrite Z2Nat.id by lia. reflexivity.
Qed.

(** X10. When the server answers every request, and the width is one
    for which the channel can be made, every request counts as a success,
    whatever the status lines say (a 404 or a 500 is an answer too): SuccessCount is the width times the number of cycles and
    ErrorCount is 0, in the report and cycle by cycle, and the averages
    are set as soon as there is a request. *)
Theorem answering_server_gives_successes_only :
  (forall cycle id, exists status, http_Get cycle id = Response status) ->
  0 <= numGoroutines <= runtime.maxWidth -> 0 <= maxCycles < MaxInt64 ->
  numGoroutines * maxCycles <= MaxInt64 ->
  forall fuel : nat, (Z.to_nat maxCycles < fuel)%nat ->
    exists (final : Report.t) (trace : list Event),
      runAPITest fuel = Done (final, trace) /\
      Report.TotalRequests final = numGoroutines * maxCycles /\
      Report.SuccessCount final = numGoroutines * maxCycles /\
      Report.ErrorCount final = 0 /\
      (1 <= numGoroutines -> 1 <= maxCycles ->
       Report.AvgDurationMS final <> EmptyString) /\
      Forall (fun cs =>
                CycleStats.SuccessCount cs = numGoroutines /\
                CycleStats.ErrorCount cs = 0 /\
                (1 <= numGoroutines ->
                 CycleStats.AvgDurationMS cs <> EmptyString))
        (Report.CycleDetails final).
Proof.
  intros Hup HW HM Hfit fuel Hfuel. pose proof (proj1 HW) as HN.
  rewrite runAPITest_spec by (try assumption; lia).
  eexists _, _. split; [reflexivity|].
  assert (Hok : forall cycle id, succeeded (probe cycle id) = true).
  { intros cycle id. destruct (Hup cycle id) as (status & Hget).
    unfold probe. rewrite Hget. reflexivity. }
  assert (Hs : forall cs, successes (allResults cs) = allResults cs).
  { intros cs. apply filter_all. intros r Hr.
    apply elem_of_allResults in Hr. destruct Hr as (c & id & _ & _ & ->).
    apply Hok. }
  assert (Hf : forall cs, failures (allResults cs) = []).
  { intros cs. apply filter_none. intros r Hr.
    apply elem_of_allResults in Hr. destruct Hr as (c & id & _ & _ & ->).
    rewrite Hok. reflexivity. }
  pose proof (run_length url numGoroutines maxCycles http_Get since sched
                HN ltac:(lia)) as Hlen.
  unfold finalReport.
  cbn [Report.TotalRequests Report.SuccessCount Report.ErrorCount
         Report.AvgDurationMS Report.CycleDetails].
  rewrite Hs, Hf. cbn [length].
  rewrite !incrN_zero by lia. rewrite Hlen.
  split; [reflexivity|]. split; [reflexivity|]. split; [reflexivity|].
  split.
  - intros HN1 HM1 Hempty. apply average_empty_iff in Hempty.
    rewrite latencies_length, Hs in Hempty. nia.
  - apply Forall_fmap, Forall_forall. intros c Hc.
    apply elem_of_seqZ in Hc.
    unfold cycleSummary, compose.
    cbn [CycleStats.SuccessCount CycleStats.ErrorCount
           CycleStats.AvgDurationMS].
    rewrite <- (allResults_singleton url numGoroutines http_Get since sched c).
    rewrite Hs, Hf. cbn [length].
    rewrite allResults_singleton.
    rewrite incrN_zero
      by (apply cycle_fits with (maxCycles := maxCycles); lia).
    rewrite incrN_zero by (unfold MaxInt64; lia).
    rewrite results_length.
    split; [lia|]. split; [reflexivity|].
    intros HN1 Hempty. apply average_empty_iff in Hempty.
    rewrite latencies_length in Hempty.
    rewrite <- (allResults_singleton url numGoroutines http_Get since sched c)
      in Hempty.
    rewrite Hs, allResults_singleton, results_length in Hempty. lia.
Qed.

End Servers.

(** ** Durations through their text *)

(** X7. The probe stores the duration that it measured as text, and the
    reduction reads the text back: for every duration that an [int64]
    holds the parser returns that very duration and no error, so that
    dropping the error in the reduction loses nothing and the averages are
    taken over the measured durations. *)
Theorem duration_survives_its_text (url : string) (id : Z) (get : GetResult)
  (duration : Z) :
  MinInt64 <= duration <= MaxInt64 ->
  RequestResult.Duration (checkStatus url id get duration)
    = time.Duration_String duration /\
  time.ParseDuration (RequestResult.Duration (checkStatus url id get duration))
    = (duration, None) /\
  parsedDuration time.ParseDuration (checkStatus url id get duration)
    = duration.
Proof.
  intros Hd.
  assert (Htext : RequestResult.Duration (checkStatus url id get duration)
                  = time.Duration_String duration)
    by (destruct get; reflexivity).
  split; [exact Htext|].
  unfold parsedDuration. rewrite Htext, ParseDuration_String by exact Hd.
  split; reflexivity.
Qed.

Section Latencies.

Variable url : string.
Variables numGoroutines maxCycles : Z.
Variable http_Get : Z -> Z -> GetResult.
Variable since : Z -> Z -> Z.
Variable sched : Z -> list nat.

Local Abbreviation probe := (probe url http_Get since).
Local Abbreviation results := (results url numGoroutines http_Get since sched).
Local Abbreviation allResults :=
  (allResults url numGoroutines http_Get since sched).
Local Abbreviation latencies := (latencies time.ParseDuration).

Lemma pool_between (lo hi : Z) (cs : list Z) :
  MinInt64 <= lo -> hi <= MaxInt64 ->
  (forall cycle id, lo <= since cycle id <= hi) ->
  Forall (fun d => lo <= d <= hi) (latencies (allResults cs)).
Proof.
  intros Hlo Hhi Hsince. apply Forall_forall. intros d Hd.
  unfold latencies, successes in Hd.
  apply list_elem_of_fmap in Hd. destruct Hd as (r & -> & Hr).
  apply list_elem_of_In, filter_In in Hr. destruct Hr as [Hr _].
  apply list_elem_of_In, elem_of_allResults in Hr.
  destruct Hr as (c & id & _ & _ & ->).
  assert (Hparsed : parsedDuration time.ParseDuration (probe c id)
                    = since c id).
  { unfold parsedDuration, probe, checkStatus.
    destruct (http_Get c id); cbn [RequestResult.Duration];
      rewrite ParseDuration_String by (specialize (Hsince c id); lia);
      reflexivity. }
  rewrite Hparsed. apply Hsince.
Qed.

Lemma average_between (lo hi : Z) (ds : list Z) :
  Forall (fun d => lo <= d <= hi) ds ->
  MinInt64 <= Z.of_nat (length ds) * lo ->
  Z.of_nat (length ds) * hi <= MaxInt64 ->
  average ds = EmptyString \/
  exists q : Z, lo <= q <= hi /\ average ds = time.Duration_String q.
Proof.
  intros Hall Hlo Hhi. unfold average.
  destruct (Z.ltb_spec 0 (Z.of_nat (length ds))) as [Hpos|Hzero];
    [right | left; reflexivity].
  pose proof (sumZ_bounds ds lo hi Hall) as Hsum.
  eexists. split; [|reflexivity].
  rewrite sumDurations_exact by lia.
  apply quot_between; [lia | exact Hsum].
Qed.

(** X6. When every request of a run takes between lo and hi, the width
    is one for which the channel can be made, and the durations of the
    whole run add up within 64 bits, every average of the
    report, for a cycle or for the run, is either unset or the text of a
    duration between lo and hi. *)
Theorem averages_lie_between_the_extremes (lo hi : Z) :
  0 <= lo ->
  (forall cycle id, lo <= since cycle id <= hi) ->
  0 <= numGoroutines <= runtime.maxWidth -> 1 <= maxCycles < MaxInt64 ->
  numGoroutines * maxCycles * hi <= MaxInt64 ->
  forall fuel : nat, (Z.to_nat maxCycles < fuel)%nat ->
    exists (final : Report.t) (trace : list Event),
      runAPITest time.ParseDuration url numGoroutines maxCycles http_Get since
        sched fuel = Done (final, trace) /\
      (Report.AvgDurationMS final = EmptyString \/
       exists q : Z,
         lo <= q <= hi /\ Report.AvgDurationMS final = time.Duration_String q) /\
      Forall (fun cs =>
                CycleStats.AvgDurationMS cs = EmptyString \/
                exists q : Z,
                  lo <= q <= hi /\
                  CycleStats.AvgDurationMS cs = time.Duration_String q)
        (Report.CycleDetails final).
Proof.
  intros Hlo Hsince HW HM Hfit fuel Hfuel. pose proof (proj1 HW) as HN.
  rewrite runAPITest_spec by (try assumption; lia).
  eexists _, _. split; [reflexivity|].
  unfold finalReport. cbn [Report.AvgDurationMS Report.CycleDetails].
  destruct (Z.eq_dec numGoroutines 0) as [HN0|HN1].
  - assert (Hnone : forall cs, allResults cs = []).
    { intros cs. apply length_zero_iff_nil, Nat2Z.inj.
      rewrite allResults_length by exact HN. lia. }
    split.
    + left. rewrite Hnone. reflexivity.
    + apply Forall_fmap, Forall_forall. intros c _. left.
      unfold cycleSummary, compose. cbn [CycleStats.AvgDurationMS].
      rewrite <- (allResults_singleton url numGoroutines http_Get since sched c).
      rewrite Hnone. reflexivity.
  - assert (Hlo' : lo <= hi) by (specialize (Hsince 0 0); lia).
    assert (Hsize : 1 <= numGoroutines * maxCycles) by nia.
    assert (Hhi : hi <= MaxInt64) by nia.
    assert (Hmin : MinInt64 <= lo) by (unfold MinInt64; lia).
    split.
    + apply average_between.
      * apply pool_between; assumption.
      * unfold MinInt64. nia.
      * rewrite latencies_length.
        pose proof (successes_length_le (allResults (seqZ 1 maxCycles))).
        pose proof (run_length url numGoroutines maxCycles http_Get since
                      sched HN ltac:(lia)).
        assert (Hle : Z.of_nat (length (successes (allResults (seqZ 1 maxCycles))))
                      <= numGoroutines * maxCycles) by lia.
        nia.
    + apply Forall_fmap, Forall_forall. intros c _.
      unfold cycleSummary, compose. cbn [CycleStats.AvgDurationMS].
      rewrite <- (allResults_singleton url numGoroutines http_Get since sched c).
      apply average_between.
      * apply pool_between; assumption.
      * unfold MinInt64. nia.
      * rewrite latencies_length.
        pose proof (successes_length_le (allResults [c])).
        rewrite allResults_singleton in *.
        pose proof (results_length url numGoroutines http_Get since sched c).
        assert (Hle : Z.of_nat (length (successes (results c)))
                      <= numGoroutines) by lia.
        assert (Hnh : 0 <= numGoroutines * hi)
          by (apply Z.mul_nonneg_nonneg; lia).
        assert (Hone : numGoroutines * hi <= numGoroutines * maxCycles * hi)
          by (replace (numGoroutines * maxCycles * hi)
                with (numGoroutines * hi * maxCycles) by ring; nia).
        assert (Hmul : Z.of_nat (length (successes (results c))) * hi
                       <= numGoroutines * hi)
          by (apply Z.mul_le_mono_nonneg_r; lia).
        lia.
Qed.

End Latencies.

(** ** The goroutines of a cycle, step by step *)

Lemma fanoutMeasure_step (n : Z) (c c' : Fanout) :
  fanoutStep n c c' -> fanoutMeasure c' = fanoutMeasure c + 1.
Proof.
  intros Hstep.
  destruct Hstep as [c Hp Hlt | c Hp Hge | c id Hid Hnot Hroom
                    | c id Hin Hnot | c Hp Hz];
    unfold fanoutMeasure; cbn [pc launched wg sent exited];
    rewrite ?Hp, ?length_app; simpl length; lia.
Qed.

Lemma fanout_nsteps (n : Z) (k : nat) (c0 c : Fanout) :
  fanoutInv n c0 -> nsteps (fanoutStep n) k c0 c ->
  fanoutInv n c /\ fanoutMeasure c = fanoutMeasure c0 + Z.of_nat k.
Proof.
  intros Hinv Hsteps. induction Hsteps as [c|k c0 c1 c Hstep _ IH].
  - split; [exact Hinv | lia].
  - destruct (IH (fanoutInv_step n c0 c1 Hinv Hstep)) as [Hc Hm].
    split; [exact Hc|].
    rewrite Hm, (fanoutMeasure_step n c0 c1 Hstep). lia.
Qed.

Lemma fanoutInv_sizes (n : Z) (c : Fanout) :
  fanoutInv n c ->
  Z.of_nat (length (exited c)) <= Z.of_nat (length (sent c)) <= launched c /\
  launched c <= n /\ 0 <= wg c.
Proof.
  intros (Hl & Hns & Hne & Hes & Hsl & Hwg & Hpc & Hcl).
  assert (Hex : Z.of_nat (length (exited c)) <= Z.of_nat (length (sent c))).
  { apply Nat2Z.inj_le, submseteq_length, NoDup_submseteq; assumption. }
  assert (Hse : Z.of_nat (length (sent c)) <= launched c).
  { apply NoDup_bounded_length; [lia | exact Hns | exact Hsl]. }
  lia.
Qed.

Lemma fanoutMeasure_bound (n : Z) (c : Fanout) :
  fanoutInv n c -> fanoutMeasure c <= 3 * n + 2.
Proof.
  intros Hinv. pose proof (fanoutInv_sizes n c Hinv) as Hs.
  unfold fanoutMeasure. destruct (pc c); lia.
Qed.

Lemma fanoutMeasure_closed (n : Z) (c : Fanout) :
  fanoutInv n c -> pc c = Closed -> fanoutMeasure c = 3 * n + 2.
Proof.
  intros Hinv Hclosed. pose proof (fanoutInv_sizes n c Hinv) as Hs.
  destruct Hinv as (Hl & Hns & Hne & Hes & Hsl & Hwg & Hpc & Hcl).
  specialize (Hcl Hclosed).
  assert (launched c = n) by (apply Hpc; rewrite Hclosed; discriminate).
  unfold fanoutMeasure. rewrite Hclosed. lia.
Qed.

Lemma fanout_closed_is_final (n : Z) (c c' : Fanout) :
  fanoutInv n c -> pc c = Closed -> ~ fanoutStep n c c'.
Proof.
  intros Hinv Hclosed Hstep.
  pose proof (fanoutMeasure_step n c c' Hstep) as Hm.
  pose proof (fanoutMeasure_bound n c' (fanoutInv_step n c c' Hinv Hstep)).
  pose proof (fanoutMeasure_closed n c Hinv Hclosed). lia.
Qed.



(** ** Reading a number: strconv.Atoi *)

Lemma isDigit_value (c : ascii) :
  fmt.isDigit c = true -> 0 <= fmt.byte c - 48 <= 9.
Proof.
  unfold fmt.isDigit. intros H. apply andb_prop in H. destruct H as [H1 H2].
  apply Z.leb_le in H1, H2. lia.
Qed.

Lemma decimal_lower (ds : string) (acc : Z) :
  isDigits ds = true -> 0 <= acc -> acc <= fmt.decimal acc ds.
Proof.
  revert acc. induction ds as [|c ds IH]; intros acc Hds Hacc.
  - simpl. lia.
  - cbn [isDigits] in Hds. apply andb_prop in Hds. destruct Hds as [Hc Hds].
    pose proof (isDigit_value c Hc). cbn [fmt.decimal].
    etrans; [|apply IH; [exact Hds | lia]]. lia.
Qed.

Lemma decimal_upper (ds : string) (acc : Z) :
  isDigits ds = true -> 0 <= acc ->
  fmt.decimal acc ds < (acc + 1) * 10 ^ Z.of_nat (String.length ds).
Proof.
  revert acc. induction ds as [|c ds IH]; intros acc Hds Hacc.
  - simpl. lia.
  - cbn [isDigits] in Hds. apply andb_prop in Hds. destruct Hds as [Hc Hds].
    pose proof (isDigit_value c Hc). cbn [fmt.decimal String.length].
    eapply Z.lt_le_trans; [apply IH; [exact Hds | lia]|].
    rewrite Nat2Z.inj_succ, Z.pow_succ_r by lia.
    pose proof (Z.pow_pos_nonneg 10 (Z.of_nat (String.length ds))
                  ltac:(lia) ltac:(lia)).
    nia.
Qed.

Lemma fastLoop_spec (s : string) (n : Z) :
  strconv.fastLoop s n =
  if isDigits s then Some (fmt.decimal n s) else None.
Proof.
  revert n. induction s as [|c s IH]; intros n; [reflexivity|].
  cbn [strconv.fastLoop isDigits fmt.decimal].
  destruct (fmt.isDigit c); [|reflexivity].
  rewrite IH, (Z.mul_comm n 10). reflexivity.
Qed.

Lemma ParseUint_loop_digits (s : string) (n : Z) :
  isDigits s = true -> 0 <= n <= strconv.maxUint64 ->
  strconv.ParseUint_loop s n =
  if fmt.decimal n s <=? strconv.maxUint64
  then (fmt.decimal n s, None)
  else (strconv.maxUint64, Some strconv.ErrRange).
Proof.
  unfold strconv.maxUint64.
  change (2 ^ 64) with 18446744073709551616.
  revert n. induction s as [|c s IH]; intros n Hds Hn.
  - cbn [strconv.ParseUint_loop fmt.decimal].
    destruct (Z.leb_spec n (18446744073709551616 - 1)); [reflexivity | lia].
  - cbn [isDigits] in Hds. apply andb_prop in Hds. destruct Hds as [Hc Hds].
    pose proof (isDigit_value c Hc) as Hd.
    cbn [strconv.ParseUint_loop fmt.decimal]. rewrite Hc. cbv zeta.
    unfold strconv.maxUint64.
    change (2 ^ 64) with 18446744073709551616.
    change ((18446744073709551616 - 1) / 10 + 1) with 1844674407370955162.
    destruct (Z.leb_spec 10 (fmt.byte c - 48)); [lia|].
    pose proof (decimal_lower s (10 * n + (fmt.byte c - 48)) Hds ltac:(lia))
      as Hlow.
    destruct (Z.leb_spec 1844674407370955162 n) as [Hcut|Hcut].
    + destruct (Z.leb_spec (fmt.decimal (10 * n + (fmt.byte c - 48)) s)
                  (18446744073709551616 - 1)); [lia | reflexivity].
    + destruct (Z.le_gt_cases (n * 10 + (fmt.byte c - 48))
                  (18446744073709551616 - 1)) as [Hfit|Hover].
      * rewrite Z.mod_small by lia.
        destruct (Z.ltb_spec (n * 10 + (fmt.byte c - 48)) (n * 10)); [lia|].
        destruct (Z.ltb_spec (18446744073709551616 - 1)
                    (n * 10 + (fmt.byte c - 48))); [lia|].
        cbn [orb]. rewrite IH by (try assumption; lia).
        rewrite (Z.mul_comm n 10). reflexivity.
      * assert (Hmod : (n * 10 + (fmt.byte c - 48)) mod 18446744073709551616
                       = n * 10 + (fmt.byte c - 48) - 18446744073709551616).
        { symmetry. apply Z.mod_unique with (q := 1); lia. }
        rewrite Hmod.
        destruct (Z.ltb_spec
                    (n * 10 + (fmt.byte c - 48) - 18446744073709551616)
                    (n * 10)); [|lia].
        cbn [orb].
        destruct (Z.leb_spec (fmt.decimal (10 * n + (fmt.byte c - 48)) s)
                    (18446744073709551616 - 1)); [lia | reflexivity].
Qed.

Lemma ParseUint_loop_range (s : string) (n v : Z) :
  strconv.ParseUint_loop s n = (v, Some strconv.ErrRange) ->
  v = strconv.maxUint64.
Proof.
  revert n. induction s as [|c s IH]; intros n; cbn [strconv.ParseUint_loop].
  - discriminate.
  - cbv zeta.
    destruct (if fmt.isDigit c then Some (fmt.byte c - 48)
              else if (97 <=? strconv.lower (fmt.byte c))
                      && (strconv.lower (fmt.byte c) <=? 122)
                   then Some (strconv.lower (fmt.byte c) - 97 + 10)
                   else None) as [d|]; [|discriminate].
    destruct (10 <=? d); [discriminate|].
    destruct (strconv.maxUint64 / 10 + 1 <=? n); [congruence|].
    destruct ((((n * 10 + d) mod 2 ^ 64 <? n * 10)
               || (strconv.maxUint64 <? (n * 10 + d) mod 2 ^ 64))%bool);
      [congruence | apply IH].
Qed.

Lemma ParseUint_loop_nondigits (s : string) (n : Z) :
  isDigits s = false -> snd (strconv.ParseUint_loop s n) <> None.
Proof.
  revert n. induction s as [|c s IH]; intros n Hds; [discriminate|].
  cbn [isDigits] in Hds. cbn [strconv.ParseUint_loop]. cbv zeta.
  destruct (fmt.isDigit c) eqn:Hc.
  - cbn [andb] in Hds.
    destruct (10 <=? fmt.byte c - 48); [discriminate|].
    destruct (strconv.maxUint64 / 10 + 1 <=? n); [discriminate|].
    destruct ((((n * 10 + (fmt.byte c - 48)) mod 2 ^ 64 <? n * 10)
               || (strconv.maxUint64
                   <? (n * 10 + (fmt.byte c - 48)) mod 2 ^ 64))%bool);
      [discriminate | apply IH, Hds].
  - destruct ((97 <=? strconv.lower (fmt.byte c))
              && (strconv.lower (fmt.byte c) <=? 122)) eqn:Hletter;
      [|discriminate].
    apply andb_prop in Hletter. destruct Hletter as [H1 _].
    apply Z.leb_le in H1.
    destruct (Z.leb_spec 10 (strconv.lower (fmt.byte c) - 97 + 10));
      [discriminate | lia].
Qed.

(** [Atoi] returns without error exactly on the decimal integers of the
    range of [int], and then returns their value. *)
Lemma Atoi_spec (s : string) :
  (snd (strconv.Atoi s) = None <->
   isDecimalInt s = true /\ MinInt64 <= decimalValue s <= MaxInt64) /\
  (snd (strconv.Atoi s) = None -> fst (strconv.Atoi s) = decimalValue s).
Proof.
  destruct s as [|c s'].
  { split; [split|]; [discriminate | intros [H _]; discriminate | discriminate]. }
  pose (s := String c s').
  set (body := if fmt.isSign c then s' else String c s').
  assert (Hbody45 : (if (fmt.byte c =? 45) || (fmt.byte c =? 43)
                     then s' else String c s')
                    = body).
  { unfold body, fmt.isSign. rewrite orb_comm. reflexivity. }
  assert (Hbody43 : (if (fmt.byte c =? 43) || (fmt.byte c =? 45)
                     then s' else String c s')
                    = body) by reflexivity.
  assert (Hvalue : decimalValue (String c s') =
                   if fmt.byte c =? 45 then - fmt.decimal 0 body
                   else fmt.decimal 0 body).
  { unfold decimalValue, body, fmt.isSign.
    destruct (Z.eqb_spec (fmt.byte c) 45) as [H45|H45].
    - rewrite orb_true_r. reflexivity.
    - destruct (fmt.byte c =? 43); reflexivity. }
  assert (Hdec : isDecimalInt (String c s') =
                 negb (String.eqb body EmptyString) && isDigits body)
    by reflexivity.
  assert (Hlen : (String.length body <= String.length (String c s'))%nat).
  { unfold body. destruct (fmt.isSign c); simpl; lia. }
  clear s. unfold strconv.Atoi. cbv zeta.
  match goal with
  | |- context [if ?b then _ else strconv.ParseInt _] => destruct b eqn:Hfast
  end.
  - (* the fast path *)
    apply andb_prop in Hfast. destruct Hfast as [_ H19].
    apply Nat.ltb_lt in H19.
    rewrite Hbody45.
    rewrite fastLoop_spec, Hdec, Hvalue.
    destruct body as [|b body'] eqn:Hb.
    + cbn. split; [split|]; [discriminate | intros [H _]; discriminate
                             | discriminate].
    + change (String.length (String b body') <? 1)%nat with false.
      change (negb (String.eqb (String b body') EmptyString)) with true.
      cbn [andb].
      destruct (isDigits (String b body')) eqn:Hds.
      * pose proof (decimal_upper _ 0 Hds ltac:(lia)) as Hup.
        pose proof (decimal_lower _ 0 Hds ltac:(lia)) as Hlow.
        assert (Hpow : 10 ^ Z.of_nat (String.length (String b body'))
                       <= 10 ^ 18).
        { apply Z.pow_le_mono_r; lia. }
        cbn [fst snd].
        split; [split|]; [|reflexivity|reflexivity].
        intros _. split; [reflexivity|].
        unfold MinInt64, MaxInt64.
        destruct (fmt.byte c =? 45); lia.
      * cbn [fst snd].
        split; [split|]; [discriminate | intros [H _]; discriminate
                          | discriminate].
  - (* the slow path *)
    unfold strconv.ParseInt. cbv zeta. rewrite Hbody43.
    rewrite Hdec, Hvalue.
    unfold strconv.ParseUint.
    destruct body as [|b body'] eqn:Hb.
    { cbn. split; [split|]; [discriminate | intros [H _]; discriminate
                             | discriminate]. }
    change (negb (String.eqb (String b body') EmptyString)) with true.
    cbn [andb].
    destruct (isDigits (String b body')) eqn:Hds.
    + rewrite ParseUint_loop_digits
        by (try exact Hds; unfold strconv.maxUint64; lia).
      pose proof (decimal_lower _ 0 Hds ltac:(lia)) as Hlow.
      unfold strconv.maxUint64, MinInt64, MaxInt64.
      change (2 ^ 64) with 18446744073709551616.
      change (2 ^ 63) with 9223372036854775808.
      set (v := fmt.decimal 0 (String b body')) in *.
      destruct (Z.leb_spec v (18446744073709551616 - 1)) as [Hfit|Hover].
      * destruct (Z.eqb_spec (fmt.byte c) 45) as [Hneg|Hpos]; cbn [negb andb].
        -- destruct (Z.ltb_spec 9223372036854775808 v) as [Hbig|Hsmall].
           ++ cbn [fst snd].
              split; [split|]; [discriminate | intros [_ H]; lia
                                | discriminate].
           ++ cbn [fst snd].
              split; [split|]; [|reflexivity|].
              ** intros _. split; [reflexivity | lia].
              ** intros _. unfold wrap64.
                 change (2 ^ 64) with 18446744073709551616.
                 change (2 ^ 63) with 9223372036854775808.
                 destruct (Z.eq_dec v 9223372036854775808) as [->|Hne];
                   [reflexivity|].
                 rewrite (Z.mod_small (v + 9223372036854775808)) by lia.
                 destruct (Z.eq_dec v 0) as [->|Hnz]; [reflexivity|].
                 replace (- (v + 9223372036854775808 - 9223372036854775808)
                          + 9223372036854775808)
                   with (9223372036854775808 - v) by lia.
                 rewrite Z.mod_small by lia. lia.
        -- destruct (Z.leb_spec 9223372036854775808 v) as [Hbig|Hsmall].
           ++ cbn [fst snd].
              split; [split|]; [discriminate | intros [_ H]; lia
                                | discriminate].
           ++ cbn [fst snd].
              split; [split|]; [|reflexivity|].
              ** intros _. split; [reflexivity | lia].
              ** intros _. unfold wrap64.
                 change (2 ^ 64) with 18446744073709551616.
                 change (2 ^ 63) with 9223372036854775808.
                 rewrite Z.mod_small by lia. lia.
      * destruct (Z.eqb_spec (fmt.byte c) 45) as [Hneg|Hpos]; cbn [negb andb].
        -- change (9223372036854775808 <? 18446744073709551616 - 1) with true.
           cbn [fst snd].
           split; [split|]; [discriminate | intros [_ H]; lia | discriminate].
        -- change (9223372036854775808 <=? 18446744073709551616 - 1) with true.
           cbn [fst snd].
           split; [split|]; [discriminate | intros [_ H]; lia | discriminate].
    + pose proof (ParseUint_loop_nondigits _ 0 Hds) as Herr.
      destruct (strconv.ParseUint_loop (String b body') 0) as [un [[|]|]] eqn:Hloop.
      * cbn [fst snd].
        split; [split|]; [discriminate | intros [H _]; discriminate
                          | discriminate].
      * apply ParseUint_loop_range in Hloop. subst un.
        unfold strconv.maxUint64.
        change (2 ^ 64) with 18446744073709551616.
        change (2 ^ 63) with 9223372036854775808.
        change (9223372036854775808 <? 18446744073709551616 - 1) with true.
        change (9223372036854775808 <=? 18446744073709551616 - 1) with true.
        destruct (fmt.byte c =? 45); cbn [negb andb fst snd];
          (split; [split|]; [discriminate | intros [H _]; discriminate
                             | discriminate]).
      * contradiction.
Qed.

Example Atoi_examples :
  strconv.Atoi "200" = (200, None) /\
  strconv.Atoi "+30" = (30, None) /\
  strconv.Atoi "-5" = (-5, None) /\
  strconv.Atoi "" = (0, Some strconv.ErrSyntax) /\
  strconv.Atoi "-" = (0, Some strconv.ErrSyntax) /\
  strconv.Atoi " 5" = (0, Some strconv.ErrSyntax) /\
  strconv.Atoi "1_000" = (0, Some strconv.ErrSyntax) /\
  strconv.Atoi "0x10" = (0, Some strconv.ErrSyntax) /\
  strconv.Atoi "9223372036854775807" = (2 ^ 63 - 1, None) /\
  strconv.Atoi "9223372036854775808" = (2 ^ 63 - 1, Some strconv.ErrRange) /\
  strconv.Atoi "-9223372036854775808" = (- 2 ^ 63, None) /\
  strconv.Atoi "-9223372036854775809" = (- 2 ^ 63, Some strconv.ErrRange) /\
  strconv.Atoi "99999999999999999999999" = (2 ^ 63 - 1, Some strconv.ErrRange) /\
  strconv.Atoi "0000000000000000000000012" = (12, None).
Proof. vm_compute. repeat split; reflexivity. Qed.

Example Itoa_examples :
  strconv.Itoa 0 = "0"%string /\ strconv.Itoa 6000 = "6000"%string /\
  strconv.Itoa (-42) = "-42"%string /\
  strconv.Itoa (- 2 ^ 63) = "-9223372036854775808"%string.
Proof. vm_compute. repeat split; reflexivity. Qed.

(** ** The window *)

Lemma Atoi_positive (s : string) :
  failed (snd (strconv.Atoi s)) || (fst (strconv.Atoi s) <=? 0) = false <->
  isDecimalInt s = true /\ 1 <= decimalValue s <= MaxInt64.
Proof.
  destruct (Atoi_spec s) as [Hiff Hval].
  destruct (strconv.Atoi s) as [n [e|]]; cbn [fst snd failed orb] in *.
  - split; [discriminate|]. intros [Hd Hr].
    assert (Some e = None); [|discriminate].
    apply Hiff. split; [exact Hd|]. unfold MinInt64. lia.
  - specialize (Hval eq_refl). subst n.
    destruct Hiff as [Hiff _]. destruct (Hiff eq_refl) as [Hd Hr].
    destruct (Z.leb_spec (decimalValue s) 0).
    + split; [discriminate | intros [_ H']; lia].
    + split; [|reflexivity]. intros _. split; [exact Hd | lia].
Qed.

Lemma Atoi_valid (s : string) :
  isDecimalInt s = true -> 1 <= decimalValue s <= MaxInt64 ->
  strconv.Atoi s = (decimalValue s, None).
Proof.
  intros Hd Hr. destruct (Atoi_spec s) as [Hiff Hval].
  assert (Hnone : snd (strconv.Atoi s) = None).
  { apply Hiff. split; [exact Hd|]. unfold MinInt64. lia. }
  specialize (Hval Hnone).
  destruct (strconv.Atoi s) as [n e]. cbn [fst snd] in *. congruence.
Qed.

Lemma omap_concat_fmap {A B C : Type} (f : B -> option C) (g : A -> list B)
  (l : list A) :
  omap f (concat (g <$> l)) = concat ((fun x => omap f (g x)) <$> l).
Proof.
  induction l as [|x l IH]; [reflexivity|].
  cbn [fmap list_fmap concat]. rewrite omap_app, IH. reflexivity.
Qed.

Lemma concat_observe_cycle (n m c : Z) :
  concat (observe m <$> cycleEvents n c) =
  [Engine (EvProgress c);
   SetValue (float64_div (float64 c) (float64 m));
   SetText statusLabel (cycleMessage c m)]
    ++ ((fun id => Engine (EvGo c id)) <$> seqZ 0 n)
    ++ [Engine (EvWait c)].
Proof.
  unfold cycleEvents. rewrite !fmap_app, !concat_app.
  cbn [fmap list_fmap concat observe updateProgress app].
  do 3 f_equal.
  induction (seqZ 0 n) as [|id ids IH]; [reflexivity|].
  cbn [fmap list_fmap concat observe app]. f_equal. exact IH.
Qed.

Lemma concat_observe_trace (n m : Z) (cs : list Z) :
  concat (observe m <$> concat (cycleEvents n <$> cs)) =
  concat ((fun c => concat (observe m <$> cycleEvents n c)) <$> cs).
Proof.
  induction cs as [|c cs IH]; [reflexivity|].
  cbn [fmap list_fmap concat]. rewrite fmap_app, concat_app, IH.
  reflexivity.
Qed.

Lemma omap_engine_go {C : Type} (f : Call -> option C) (c : Z) (ids : list Z) :
  (forall id, f (Engine (EvGo c id)) = None) ->
  omap f ((fun id => Engine (EvGo c id)) <$> ids) = [].
Proof.
  intros Hf. induction ids as [|id ids IH]; [reflexivity|].
  cbn [fmap list_fmap omap list_omap]. rewrite Hf. exact IH.
Qed.

Lemma requests_go (c : Z) (ids : list Z) :
  requests ((fun id => Engine (EvGo c id)) <$> ids) = (fun id => (c, id)) <$> ids.
Proof.
  induction ids as [|id ids IH]; [reflexivity|].
  cbn [fmap list_fmap]. unfold requests in *. cbn [omap list_omap]. rewrite IH.
  reflexivity.
Qed.

Lemma resultTexts_cycles (n m : Z) (cs : list Z) :
  resultTexts (concat ((fun c => concat (observe m <$> cycleEvents n c)) <$> cs))
  = [].
Proof.
  unfold resultTexts. rewrite omap_concat_fmap.
  induction cs as [|k cs IH]; [reflexivity|].
  cbn [fmap list_fmap concat]. rewrite IH, app_nil_r.
  rewrite concat_observe_cycle, !omap_app.
  rewrite omap_engine_go by reflexivity. reflexivity.
Qed.

Lemma statusTexts_cycles (n m : Z) (cs : list Z) :
  statusTexts (concat ((fun c => concat (observe m <$> cycleEvents n c)) <$> cs))
  = (fun k => cycleMessage k m) <$> cs.
Proof.
  unfold statusTexts. rewrite omap_concat_fmap.
  induction cs as [|k cs IH]; [reflexivity|].
  cbn [fmap list_fmap concat]. rewrite IH.
  rewrite concat_observe_cycle, !omap_app.
  rewrite omap_engine_go by reflexivity. reflexivity.
Qed.

Lemma barValues_cycles (n m : Z) (cs : list Z) :
  barValues (concat ((fun c => concat (observe m <$> cycleEvents n c)) <$> cs))
  = (fun k => float64_div (float64 k) (float64 m)) <$> cs.
Proof.
  unfold barValues. rewrite omap_concat_fmap.
  induction cs as [|k cs IH]; [reflexivity|].
  cbn [fmap list_fmap concat]. rewrite IH.
  rewrite concat_observe_cycle, !omap_app.
  rewrite omap_engine_go by reflexivity. reflexivity.
Qed.

Lemma requests_cycles (n m : Z) (cs : list Z) :
  requests (concat ((fun c => concat (observe m <$> cycleEvents n c)) <$> cs))
  = concat ((fun k => (fun id => (k, id)) <$> seqZ 0 n) <$> cs).
Proof.
  unfold requests at 1. rewrite omap_concat_fmap.
  induction cs as [|k cs IH]; [reflexivity|].
  cbn [fmap list_fmap concat]. rewrite IH. f_equal.
  rewrite concat_observe_cycle, !omap_app.
  fold (requests ((fun id => Engine (EvGo k id)) <$> seqZ 0 n)).
  rewrite requests_go. cbn [omap list_omap app]. rewrite app_nil_r.
  reflexivity.
Qed.

Section WindowProperties.

Variable ParseDuration : string -> Z * option string.
Variable http_Get : Z -> Z -> GetResult.
Variable since : Z -> Z -> Z.
Variable sched : Z -> list nat.

Local Abbreviation runTest := (runTest ParseDuration http_Get since sched).

Lemma runTest_invalid (url g c : string) (fuel : nat) :
  ~ validEntries url g c ->
  runTest url g c fuel = Done [SetText resultLabel invalidMessage].
Proof.
  intros Hinvalid. unfold runTest. cbv zeta.
  pose proof (Atoi_positive g) as Hg. pose proof (Atoi_positive c) as Hc.
  destruct (strconv.Atoi g) as [n e1], (strconv.Atoi c) as [m e2].
  cbn [fst snd] in Hg, Hc.
  destruct (String.eqb_spec url EmptyString) as [Hurl|Hurl];
    [reflexivity|].
  cbn [orb].
  destruct (failed e1) eqn:He1; [reflexivity|].
  destruct (failed e2) eqn:He2; [reflexivity|].
  cbn [orb] in *.
  destruct (n <=? 0) eqn:Hn; [reflexivity|].
  destruct (m <=? 0) eqn:Hm; [reflexivity|].
  exfalso. apply Hinvalid. split; [exact Hurl|].
  split; [apply Hg | apply Hc]; reflexivity.
Qed.

Lemma runTest_valid (url g c : string) (fuel : nat) :
  validEntries url g c ->
  runTest url g c fuel =
  out ← runAPITest ParseDuration url (decimalValue g) (decimalValue c)
          http_Get since sched fuel;
  Done ([SetText resultLabel EmptyString; SetValue (float64 0);
         SetText statusLabel "Executando ciclos..."]
          ++ concat (observe (decimalValue c) <$> snd out)
          ++ [SetText resultLabel (reportMessage (fst out));
              SetValue (float64 1);
              SetText statusLabel "Concluído!"]).
Proof.
  intros (Hurl & [Hg1 Hg2] & [Hc1 Hc2]). unfold runTest. cbv zeta.
  rewrite (Atoi_valid g Hg1 Hg2), (Atoi_valid c Hc1 Hc2).
  destruct (String.eqb_spec url EmptyString) as [Hurl'|_]; [contradiction|].
  cbn [failed orb].
  destruct (Z.leb_spec (decimalValue g) 0); [lia|].
  destruct (Z.leb_spec (decimalValue c) 0); [lia|].
  reflexivity.
Qed.

(** X11. [runTest] answers with the message that asks for valid values,
    and does nothing else (no request is sent), exactly when the address
    is empty or one of the two numbers is not a decimal integer from 1 to
    the largest [int]: digits only, with at most one sign in front, no
    space, no separator. *)
Theorem window_rejects_exactly_the_invalid_entries
  (url g c : string) (fuel : nat) :
  runTest url g c fuel = Done [SetText resultLabel invalidMessage] <->
  ~ validEntries url g c.
Proof.
  split.
  - intros Hrun Hvalid. rewrite (runTest_valid url g c fuel Hvalid) in Hrun.
    destruct (runAPITest ParseDuration url (decimalValue g) (decimalValue c)
                http_Get since sched fuel) as [out|msg|];
      cbn [mbind res_bind] in Hrun; discriminate.
  - apply runTest_invalid.
Qed.

(** X12. For valid entries, of which the width is one for which the
    channel can be made, the number of cycles is below the largest [int]
    and the total number of requests fits an [int], [runTest]
    returns and the window shows the run: the result label is cleared and
    then set once, to the four lines of the report, whose total is the
    width times the number of cycles and is the sum of the successes and
    the errors shown, the average being empty exactly when no request
    succeeded; the status label shows the start, then one message per
    cycle 1, 2, ... in this order, and last of all the end; the bar is set
    to 0, to cycle/cycles at the start of each cycle, and to 1; and the
    requests sent are those of the goroutines 0..N-1 of the cycles 1, 2,
    ..., cycle after cycle. *)
Theorem window_shows_the_run (url g c : string) :
  validEntries url g c ->
  decimalValue g <= runtime.maxWidth ->
  decimalValue c < MaxInt64 ->
  decimalValue g * decimalValue c <= MaxInt64 ->
  forall fuel : nat, (Z.to_nat (decimalValue c) < fuel)%nat ->
    exists (log : list Call) (ok errors : Z) (avg : string),
      runTest url g c fuel = Done log /\
      0 <= ok /\ 0 <= errors /\
      ok + errors = decimalValue g * decimalValue c /\
      (avg = EmptyString <-> ok = 0) /\
      resultTexts log =
        [EmptyString;
         ("Total Requests: "
            ++ strconv.Itoa (decimalValue g * decimalValue c) ++ newline
            ++ "Success: " ++ strconv.Itoa ok ++ newline
            ++ "Errors: " ++ strconv.Itoa errors ++ newline
            ++ "Avg Duration: " ++ avg)%string] /\
      statusTexts log =
        ["Executando ciclos..."%string]
          ++ ((fun k => cycleMessage k (decimalValue c))
                <$> seqZ 1 (decimalValue c))
          ++ ["Concluído!"%string] /\
      barValues log =
        [float64 0]
          ++ ((fun k => float64_div (float64 k) (float64 (decimalValue c)))
                <$> seqZ 1 (decimalValue c))
          ++ [float64 1] /\
      requests log =
        concat ((fun k => (fun id => (k, id)) <$> seqZ 0 (decimalValue g))
                  <$> seqZ 1 (decimalValue c)) /\
      last log = Some (SetText statusLabel "Concluído!").
Proof.
  intros Hvalid Hwidth Hmax Hfit fuel Hfuel.
  pose proof Hvalid as (Hurl & [Hg1 Hg2] & [Hc1 Hc2]).
  set (n := decimalValue g) in *. set (m := decimalValue c) in *.
  rewrite (runTest_valid url g c fuel Hvalid). fold n m.
  rewrite runAPITest_spec by lia.
  cbn [mbind res_bind fst snd].
  set (rs := allResults url n http_Get since sched (seqZ 1 m)).
  pose proof (run_length url n m http_Get since sched ltac:(lia) ltac:(lia))
    as Hlen. fold rs in Hlen.
  pose proof (successes_failures_length rs) as Hsf.
  eexists _, (Z.of_nat (length (successes rs))),
    (Z.of_nat (length (failures rs))),
    (average (latencies ParseDuration rs)).
  split; [reflexivity|].
  split; [lia|]. split; [lia|]. split; [lia|].
  split.
  { rewrite average_empty_iff, latencies_length. lia. }
  unfold finalTrace. rewrite concat_observe_trace.
  split; [|split; [|split; [|split]]].
  - unfold resultTexts. rewrite !omap_app.
    fold (resultTexts
            (concat ((fun c0 => concat (observe m <$> cycleEvents n c0))
                       <$> seqZ 1 m))).
    rewrite resultTexts_cycles. cbn [omap list_omap app]. f_equal. f_equal.
    unfold reportMessage, finalReport. fold rs.
    cbn [Report.TotalRequests Report.SuccessCount Report.ErrorCount
           Report.AvgDurationMS].
    rewrite !incrN_zero by lia. rewrite Hlen. reflexivity.
  - unfold statusTexts. rewrite !omap_app.
    fold (statusTexts
            (concat ((fun c0 => concat (observe m <$> cycleEvents n c0))
                       <$> seqZ 1 m))).
    rewrite statusTexts_cycles. reflexivity.
  - unfold barValues. rewrite !omap_app.
    fold (barValues
            (concat ((fun c0 => concat (observe m <$> cycleEvents n c0))
                       <$> seqZ 1 m))).
    rewrite barValues_cycles. reflexivity.
  - unfold requests at 1. rewrite !omap_app.
    fold (requests
            (concat ((fun c0 => concat (observe m <$> cycleEvents n c0))
                       <$> seqZ 1 m))).
    rewrite requests_cycles. cbn [omap list_omap app]. apply app_nil_r.
  - rewrite !app_assoc.
    change ([SetText resultLabel (reportMessage (finalReport ParseDuration url n m http_Get since sched));
             SetValue (float64 1); SetText statusLabel "Concluído!"])
      with ([SetText resultLabel (reportMessage (finalReport ParseDuration url n m http_Get since sched));
             SetValue (float64 1)] ++ [SetText statusLabel "Concluído!"]).
    rewrite app_assoc. apply last_snoc.
Qed.

(** X14. The window accepts the largest [int] as the number of cycles,
    and with a width for which the channel can be made [runTest] then
    never returns: the engine is started with a counter that cannot pass
    its bound. *)
Theorem window_accepts_a_run_without_end (url g c : string) :
  validEntries url g c ->
  decimalValue g <= runtime.maxWidth -> decimalValue c = MaxInt64 ->
  forall fuel : nat, runTest url g c fuel = OutOfFuel.
Proof.
  intros Hvalid Hwidth Hmax fuel.
  pose proof Hvalid as (_ & [_ Hg] & _).
  rewrite (runTest_valid url g c fuel Hvalid).
  rewrite runAPITest_diverges by (try exact Hmax; lia).
  reflexivity.
Qed.

End WindowProperties.

(** ** The further theorems at work *)

Example runTest_on_the_example_run :
  (log ← runTest time.ParseDuration Example.http_Get Example.since
           Example.sched Example.url "2" "2" 3;
   Done (resultTexts log, statusTexts log, barValues log))
  = Done ([EmptyString;
           ("Total Requests: 4" ++ newline ++ "Success: 3" ++ newline
              ++ "Errors: 1" ++ newline ++ "Avg Duration: 200ms")%string],
          ["Executando ciclos..."; "Executando ciclo 1 de 2...";
           "Executando ciclo 2 de 2..."; "Concluído!"]%string,
          [SpecFloat.S754_zero false;
           SpecFloat.S754_finite false 4503599627370496 (-53);
           SpecFloat.S754_finite false 4503599627370496 (-52);
           SpecFloat.S754_finite false 4503599627370496 (-52)]).
Proof. vm_compute. reflexivity. Qed.

Lemma calculateAverageDuration_edges_witness :
  [100; 400] <> [] /\
  exists q : Z, calculateAverageDuration [100; 400] = Done q /\ 100 <= q <= 400.
Proof.
  assert (H1 : [100; 400] <> []) by discriminate.
  split; [exact H1|].
  destruct calculateAverageDuration_edges as (_ & Hmid & _).
  apply (Hmid [100; 400] 100 400 H1).
  - repeat constructor; lia.
  - vm_compute. split; discriminate.
Defined.

Lemma no_cycle_gives_the_empty_report_witness :
  0 <= 0 /\
  runAPITest time.ParseDuration Example.url (-3) 0 Example.http_Get
    Example.since Example.sched 1
  = Done (Report.mk 0 0 0 EmptyString ∅ [], []).
Proof.
  assert (H : 0 <= 0) by lia.
  split; [exact H|].
  apply (no_cycle_gives_the_empty_report time.ParseDuration Example.url (-3) 0
           Example.http_Get Example.since Example.sched H 1%nat).
  lia.
Defined.

Lemma run_panics_exactly_when_the_width_is_refused_witness :
  MinInt64 <= 4000000000000 <= MaxInt64 /\
  runAPITest time.ParseDuration Example.url 4000000000000 2 Example.http_Get
    Example.since Example.sched 3 = Panic "makechan: size out of range".
Proof.
  assert (H : MinInt64 <= 4000000000000 <= MaxInt64)
    by (unfold MinInt64, MaxInt64; lia).
  split; [exact H|].
  destruct (run_panics_exactly_when_the_width_is_refused time.ParseDuration
              Example.url 4000000000000 2 Example.http_Get Example.since
              Example.sched H) as (_ & Hpanic & _).
  assert (Hwide : 4000000000000 < 0 \/ runtime.maxWidth < 4000000000000)
    by (right; rewrite maxWidth_value; lia).
  assert (Hcycles : 1 <= 2) by lia.
  apply (Hpanic Hwide Hcycles 3%nat).
  lia.
Defined.

Lemma largest_cycle_count_never_returns_witness :
  0 <= 2 <= runtime.maxWidth /\
  runAPITest time.ParseDuration Example.url 2 MaxInt64 Example.http_Get
    Example.since Example.sched 5 = OutOfFuel.
Proof.
  assert (H : 0 <= 2 <= runtime.maxWidth) by (rewrite maxWidth_value; lia).
  split; [exact H|].
  destruct (largest_cycle_count_never_returns time.ParseDuration Example.url 2
              Example.http_Get Example.since Example.sched) as [_ Hrun].
  apply (Hrun H 5%nat).
Defined.

Lemma averages_lie_between_the_extremes_witness :
  0 <= 100 * time.Millisecond /\
  2 * 2 * (400 * time.Millisecond) <= MaxInt64 /\
  exists (final : Report.t) (trace : list Event),
    Example.run = Done (final, trace) /\
    (Report.AvgDurationMS final = EmptyString \/
     exists q : Z,
       100 * time.Millisecond <= q <= 400 * time.Millisecond /\
       Report.AvgDurationMS final = time.Duration_String q).
Proof.
  assert (H1 : 0 <= 100 * time.Millisecond) by (vm_compute; discriminate).
  assert (H2 : forall cycle id,
             100 * time.Millisecond <= Example.since cycle id
             <= 400 * time.Millisecond).
  { intros cycle id. unfold Example.since.
    destruct (cycle =? 1); vm_compute; split; discriminate. }
  assert (H3 : 0 <= 2 <= runtime.maxWidth) by (rewrite maxWidth_value; lia).
  assert (H4 : 1 <= 2 < MaxInt64) by (unfold MaxInt64; lia).
  assert (H5 : 2 * 2 * (400 * time.Millisecond) <= MaxInt64)
    by (vm_compute; discriminate).
  split; [exact H1|]. split; [exact H5|].
  destruct (averages_lie_between_the_extremes Example.url 2 2 Example.http_Get
              Example.since Example.sched (100 * time.Millisecond)
              (400 * time.Millisecond) H1 H2 H3 H4 H5 3%nat)
    as (final & trace & Hrun & Havg & _).
  { vm_compute. lia. }
  exists final, trace. split; [exact Hrun | exact Havg].
Defined.

Lemma duration_survives_its_text_witness :
  MinInt64 <= 1500000000 <= MaxInt64 /\
  time.ParseDuration
    (RequestResult.Duration
       (checkStatus Example.url 0 (Response "200 OK") 1500000000))
  = (1500000000, None).
Proof.
  assert (H : MinInt64 <= 1500000000 <= MaxInt64)
    by (unfold MinInt64, MaxInt64; lia).
  split; [exact H|].
  destruct (duration_survives_its_text Example.url 0 (Response "200 OK")
              1500000000 H) as (_ & Hparse & _).
  exact Hparse.
Defined.

Lemma unreachable_server_gives_errors_only_witness :
  0 <= 2 <= runtime.maxWidth /\ 0 <= 2 < MaxInt64 /\ 2 * 2 <= MaxInt64 /\
  exists trace : list Event,
    runAPITest time.ParseDuration Example.url 2 2
      (fun _ _ => TransportError "connection refused") Example.since
      Example.sched 3
    = Done (Report.mk (2 * 2) 0 (2 * 2) EmptyString ∅
              ((fun c => CycleStats.mk c 2 0 2 EmptyString ∅) <$> seqZ 1 2),
            trace).
Proof.
  assert (H0 : forall cycle id : Z, exists msg,
             (fun _ _ : Z => TransportError "connection refused") cycle id
             = TransportError msg /\ msg <> EmptyString).
  { intros cycle id. eexists. split; [reflexivity | discriminate]. }
  assert (H1 : 0 <= 2 <= runtime.maxWidth) by (rewrite maxWidth_value; lia).
  assert (H2 : 0 <= 2 < MaxInt64) by (unfold MaxInt64; lia).
  assert (H3 : 2 * 2 <= MaxInt64) by (unfold MaxInt64; lia).
  split; [exact H1|]. split; [exact H2|]. split; [exact H3|].
  apply (unreachable_server_gives_errors_only time.ParseDuration Example.url
           2 2 _ Example.since Example.sched H0 H1 H2 H3 3%nat).
  vm_compute. lia.
Defined.

Lemma answering_server_gives_successes_only_witness :
  0 <= 2 <= runtime.maxWidth /\ 0 <= 2 < MaxInt64 /\ 2 * 2 <= MaxInt64 /\
  exists (final : Report.t) (trace : list Event),
    runAPITest time.ParseDuration Example.url 2 2
      (fun _ _ => Response "500 Internal Server Error") Example.since
      Example.sched 3
    = Done (final, trace) /\
    Report.SuccessCount final = 2 * 2 /\ Report.ErrorCount final = 0.
Proof.
  assert (H0 : forall cycle id : Z, exists status,
             (fun _ _ : Z => Response "500 Internal Server Error") cycle id
             = Response status).
  { intros cycle id. eexists. reflexivity. }
  assert (H1 : 0 <= 2 <= runtime.maxWidth) by (rewrite maxWidth_value; lia).
  assert (H2 : 0 <= 2 < MaxInt64) by (unfold MaxInt64; lia).
  assert (H3 : 2 * 2 <= MaxInt64) by (unfold MaxInt64; lia).
  split; [exact H1|]. split; [exact H2|]. split; [exact H3|].
  destruct (answering_server_gives_successes_only time.ParseDuration
              Example.url 2 2 _ Example.since Example.sched H0 H1 H2 H3 3%nat)
    as (final & trace & Hrun & _ & Hok & Herr & _).
  { vm_compute. lia. }
  exists final, trace.
  split; [exact Hrun|]. split; [exact Hok | exact Herr].
Defined.


Lemma window_rejects_exactly_the_invalid_entries_witness :
  ~ validEntries EmptyString goroutinesDefault cyclesDefault /\
  runTest time.ParseDuration Example.http_Get Example.since Example.sched
    EmptyString goroutinesDefault cyclesDefault 31
  = Done [SetText resultLabel invalidMessage].
Proof.
  assert (H : ~ validEntries EmptyString goroutinesDefault cyclesDefault).
  { intros [Hurl _]. apply Hurl. reflexivity. }
  split; [exact H|].
  apply (window_rejects_exactly_the_invalid_entries time.ParseDuration
           Example.http_Get Example.since Example.sched
           EmptyString goroutinesDefault cyclesDefault 31).
  exact H.
Defined.

(** With the entries that [main] fills in, 200 requests at a time and 30
    cycles, and an address, the test runs to its end. *)
Lemma window_shows_the_run_witness :
  validEntries Example.url goroutinesDefault cyclesDefault /\
  decimalValue goroutinesDefault <= runtime.maxWidth /\
  decimalValue cyclesDefault < MaxInt64 /\
  decimalValue goroutinesDefault * decimalValue cyclesDefault <= MaxInt64 /\
  exists log : list Call,
    runTest time.ParseDuration Example.http_Get Example.since Example.sched
      Example.url goroutinesDefault cyclesDefault 31 = Done log /\
    Z.of_nat (length (requests log)) = 6000 /\
    last log = Some (SetText statusLabel "Concluído!").
Proof.
  assert (H1 : validEntries Example.url goroutinesDefault cyclesDefault).
  { split; [discriminate|].
    split; (split; [reflexivity | vm_compute; split; discriminate]). }
  assert (Hw : decimalValue goroutinesDefault <= runtime.maxWidth)
    by (vm_compute; discriminate).
  assert (H2 : decimalValue cyclesDefault < MaxInt64)
    by (vm_compute; reflexivity).
  assert (H3 : decimalValue goroutinesDefault * decimalValue cyclesDefault
               <= MaxInt64) by (vm_compute; discriminate).
  split; [exact H1|]. split; [exact Hw|]. split; [exact H2|].
  split; [exact H3|].
  destruct (window_shows_the_run time.ParseDuration Example.http_Get
              Example.since Example.sched Example.url goroutinesDefault
              cyclesDefault H1 Hw H2 H3 31%nat)
    as (log & ok & errors & avg & Hrun & _ & _ & _ & _ & _ & _ & _ & Hreq
        & Hlast).
  { vm_compute. lia. }
  exists log. split; [exact Hrun|]. split; [|exact Hlast].
  rewrite Hreq. vm_compute. reflexivity.
Defined.

Lemma window_accepts_a_run_without_end_witness :
  validEntries Example.url goroutinesDefault "9223372036854775807" /\
  decimalValue goroutinesDefault <= runtime.maxWidth /\
  decimalValue "9223372036854775807" = MaxInt64 /\
  runTest time.ParseDuration Example.http_Get Example.since Example.sched
    Example.url goroutinesDefault "9223372036854775807" 5 = OutOfFuel.
Proof.
  assert (H1 : validEntries Example.url goroutinesDefault
                 "9223372036854775807").
  { split; [discriminate|].
    split; (split; [reflexivity | vm_compute; split; discriminate]). }
  assert (Hw : decimalValue goroutinesDefault <= runtime.maxWidth)
    by (vm_compute; discriminate).
  assert (H2 : decimalValue "9223372036854775807" = MaxInt64) by reflexivity.
  split; [exact H1|]. split; [exact Hw|]. split; [exact H2|].
  apply (window_accepts_a_run_without_end time.ParseDuration Example.http_Get
           Example.since Example.sched Example.url goroutinesDefault
           "9223372036854775807" H1 Hw H2 5%nat).
Defined.

